(** * glyphsLib.classes: the typed document model of a .glyphs font source

    A shallow embedding of [Lib/glyphsLib/classes.py].  Python objects live in
    a store of typed heaps (one per class) and are named by locations, so that
    back-references ([parent]) and objects shared between collections keep
    their identity.  Methods are functions in a state-and-exception monad over
    that store; a raised exception carries the store as it was when the
    exception left the method. *)

From Stdlib Require Import ZArith String Ascii List Bool Lia.
From Stdlib Require Import PrimFloat FloatOps SpecFloat DecimalString DecimalZ.
From stdpp Require Import base option list strings gmap.

Local Open Scope Z_scope.
Set Warnings "-register-all".

(** ** Python values *)

(** The exceptions the modelled methods raise.  [DanglingReference] is not a
    Python exception: it is what the model answers when a location names no
    object, which no store built by the methods below ever does. *)
Inductive exn :=
| AttributeError
| KeyError
| TypeError
| ValueError
| IndexError
| OverflowError
| AssertionError
| DanglingReference.

Inductive result (A : Type) :=
| Ok (a : A)
| Err (e : exn).
Arguments Ok {A} a.
Arguments Err {A} e.

Definition loc := nat.

(** The built-in values that fields and custom parameters hold. *)
Inductive pyval :=
| VNone
| VBool (b : bool)
| VInt (z : Z)
| VFloat (f : float)
| VStr (s : string)
| VList (l : list pyval)
| VTuple (l : list pyval)
| VDict (d : list (string * pyval)).

Inductive number :=
| NInt (z : Z)
| NFloat (f : float).

Definition as_number (v : pyval) : option number :=
  match v with
  | VBool b => Some (NInt (Z.b2z b))
  | VInt z => Some (NInt z)
  | VFloat f => Some (NFloat f)
  | _ => None
  end.

(** Python compares an [int] with a [float] exactly, not after rounding. *)
Definition float_eq_Z (f : float) (z : Z) : bool :=
  match Prim2SF f with
  | S754_zero _ => z =? 0
  | S754_finite s m e =>
      let v := if s then Z.neg m else Z.pos m in
      if 0 <=? e then z =? v * 2 ^ e else z * 2 ^ (- e) =? v
  | _ => false
  end.

Definition num_eq (a b : number) : bool :=
  match a, b with
  | NInt x, NInt y => x =? y
  | NFloat f, NFloat g => PrimFloat.eqb f g
  | NInt z, NFloat f | NFloat f, NInt z => float_eq_Z f z
  end.

Fixpoint assoc {A : Type} (k : string) (d : list (string * A)) : option A :=
  match d with
  | [] => None
  | (k', v) :: d' => if String.eqb k' k then Some v else assoc k d'
  end.

(** Python's [==] on built-in values. *)
Fixpoint py_eq (a b : pyval) {struct a} : bool :=
  match a, b with
  | VNone, VNone => true
  | VStr s, VStr t => String.eqb s t
  | VList l, VList m | VTuple l, VTuple m =>
      (fix all2 (l m : list pyval) : bool :=
         match l, m with
         | [], [] => true
         | x :: l', y :: m' => py_eq x y && all2 l' m'
         | _, _ => false
         end) l m
  | VDict d, VDict e =>
      (length d =? length e)%nat &&
      (fix sub (d : list (string * pyval)) : bool :=
         match d with
         | [] => true
         | (k, v) :: d' =>
             match assoc k e with
             | Some v' => py_eq v v' && sub d'
             | None => false
             end
         end) d
  | _, _ =>
      match as_number a, as_number b with
      | Some x, Some y => num_eq x y
      | _, _ => false
      end
  end.

(** Truth value of a built-in value, as [if v:] and [bool(v)] take it. *)
Definition truthy (v : pyval) : bool :=
  match v with
  | VNone => false
  | VBool b => b
  | VInt z => negb (z =? 0)
  | VFloat f => negb (PrimFloat.eqb f 0%float)
  | VStr s => negb (String.eqb s "")
  | VList l | VTuple l => negb (length l =? 0)%nat
  | VDict d => negb (length d =? 0)%nat
  end.

(** Identifiers ([id], [layerId], [associatedMasterId]) and names that are
    either [None] or a string. *)
Definition pystr := option string.

Definition pystr_eq (a b : pystr) : bool := bool_decide (a = b).

Definition pystr_truthy (a : pystr) : bool :=
  match a with
  | Some s => negb (String.eqb s "")
  | None => false
  end.

(** [l[k]] on a Python list: negative positions count from the end, a position
    outside the list raises [IndexError]. *)
Definition py_index {A : Type} (l : list A) (k : Z) : result A :=
  let n := Z.of_nat (length l) in
  let i := if k <? 0 then n + k else k in
  if (0 <=? i) && (i <? n)
  then match l !! Z.to_nat i with
       | Some x => Ok x
       | None => Err IndexError
       end
  else Err IndexError.

(** *** [int(value)] and [str(int)] *)

Definition is_space (c : ascii) : bool :=
  let n := nat_of_ascii c in
  ((9 <=? n) && (n <=? 13))%nat || (n =? 32)%nat.

Fixpoint lstrip (s : string) : string :=
  match s with
  | String c s' => if is_space c then lstrip s' else s
  | EmptyString => EmptyString
  end.

Fixpoint rstrip (s : string) : string :=
  match s with
  | String c s' =>
      match rstrip s' with
      | EmptyString => if is_space c then EmptyString else String c EmptyString
      | r => String c r
      end
  | EmptyString => EmptyString
  end.

Definition strip (s : string) : string := rstrip (lstrip s).

Definition digits_to_Z (s : string) : result Z :=
  match s with
  | EmptyString => Err ValueError
  | _ =>
      match NilEmpty.uint_of_string s with
      | Some d => Ok (Z.of_uint d)
      | None => Err ValueError
      end
  end.

(** [int(s)] for a string: surrounding white space is dropped, one sign is
    allowed, and what remains must be decimal digits, at least one (the digit
    separators that only Python 3 reads are left out). *)
Definition int_of_str (s : string) : result Z :=
  match strip s with
  | String c ds =>
      if Ascii.eqb c "-" then
        match digits_to_Z ds with
        | Ok z => Ok (- z)
        | Err e => Err e
        end
      else if Ascii.eqb c "+" then digits_to_Z ds
      else digits_to_Z (String c ds)
  | EmptyString => Err ValueError
  end.

Definition float_to_Z (f : float) : result Z :=
  match Prim2SF f with
  | S754_zero _ => Ok 0
  | S754_finite s m e =>
      let v := if 0 <=? e then Z.pos m * 2 ^ e else Z.pos m / 2 ^ (- e) in
      Ok (if s then - v else v)
  | S754_infinity _ => Err OverflowError
  | S754_nan => Err ValueError
  end.

(** The built-in [int]. *)
Definition py_int (v : pyval) : result Z :=
  match v with
  | VBool b => Ok (Z.b2z b)
  | VInt z => Ok z
  | VFloat f => float_to_Z f
  | VStr s => int_of_str s
  | _ => Err TypeError
  end.

(** [str(z)] for an integer: its decimal text. *)
Definition str_of_int (z : Z) : string := NilEmpty.string_of_int (Z.to_int z).

Definition nl : string := String (ascii_of_nat 10) EmptyString.

Fixpoint join (sep : string) (l : list string) : string :=
  match l with
  | [] => ""
  | [s] => s
  | s :: l' => s +:+ sep +:+ join sep l'
  end.

(** ** The object store *)

(** What [getattr] can find in a field that the model does not give a record
    field of its own: a built-in value, a value of one of the wrapper types of
    [glyphsLib.types] (point, transform, color, date; [payload] is its
    [.value]), or some other object (a proxy, an entity). *)
Inductive attr :=
| AVal (v : pyval)
| AWrap (payload : option pyval)
| AObj.

Module GSCustomParameter.
Record t := mk { name : pyval; _value : pyval }.
End GSCustomParameter.

Module GSAnchor.
Record t := mk {
  name : pystr;
  position : pyval;
  _parent : option loc }.
End GSAnchor.

Module GSLayer.
(** [parent] is a plain attribute that only [GSGlyph._setupLayer] creates:
    [None] is a layer that has no such attribute yet. *)
Record t := mk {
  parent : option (option loc);
  layerId : pystr;
  associatedMasterId : pystr;
  _name : pyval;
  _anchors : list loc;
  __dict__ : gmap string attr }.
End GSLayer.

Module GSGlyph.
(** [_layers] is an [OrderedDict]: keys are unique and keep the order in
    which they were first inserted. *)
Record t := mk {
  parent : option loc;
  _layers : list (pystr * loc) }.
End GSGlyph.

Module GSFontMaster.
Record t := mk {
  id : pystr;
  _name : pyval;
  _customParameters : list loc;
  _weight : pystr;
  _width : pystr;
  _custom : pystr;
  _custom1 : pystr;
  _custom2 : pystr;
  italicAngle : float;
  __dict__ : gmap string attr }.
End GSFontMaster.

Module GSFont.
Record t := mk {
  _masters : list loc;
  _versionMinor : Z;
  _customParameters : list loc;
  __dict__ : gmap string attr }.
End GSFont.

(** [others] holds the objects of the classes that the model keeps as a bare
    attribute table (paths, components, background layers). *)
Record World := mkWorld {
  fonts : gmap loc GSFont.t;
  masters : gmap loc GSFontMaster.t;
  glyphs : gmap loc GSGlyph.t;
  layers : gmap loc GSLayer.t;
  anchors : gmap loc GSAnchor.t;
  parameters : gmap loc GSCustomParameter.t;
  others : gmap loc (gmap string attr) }.

Definition with_fonts (f : gmap loc GSFont.t) (w : World) : World :=
  mkWorld f (masters w) (glyphs w) (layers w) (anchors w) (parameters w)
          (others w).
Definition with_masters (m : gmap loc GSFontMaster.t) (w : World) : World :=
  mkWorld (fonts w) m (glyphs w) (layers w) (anchors w) (parameters w)
          (others w).
Definition with_glyphs (g : gmap loc GSGlyph.t) (w : World) : World :=
  mkWorld (fonts w) (masters w) g (layers w) (anchors w) (parameters w)
          (others w).
Definition with_layers (l : gmap loc GSLayer.t) (w : World) : World :=
  mkWorld (fonts w) (masters w) (glyphs w) l (anchors w) (parameters w)
          (others w).
Definition with_anchors (a : gmap loc GSAnchor.t) (w : World) : World :=
  mkWorld (fonts w) (masters w) (glyphs w) (layers w) a (parameters w)
          (others w).
Definition with_parameters (p : gmap loc GSCustomParameter.t) (w : World)
  : World :=
  mkWorld (fonts w) (masters w) (glyphs w) (layers w) (anchors w) p
          (others w).

(** ** Methods: state and exceptions *)

Inductive outcome (A : Type) :=
| Return (a : A) (w : World)
| Raised (e : exn) (w : World).
Arguments Return {A} a w.
Arguments Raised {A} e w.

Definition M (A : Type) : Type := World -> outcome A.

Definition ret {A : Type} (a : A) : M A := fun w => Return a w.
Definition raise {A : Type} (e : exn) : M A := fun w => Raised e w.
Definition bind {A B : Type} (c : M A) (k : A -> M B) : M B :=
  fun w =>
    match c w with
    | Return a w' => k a w'
    | Raised e w' => Raised e w'
    end.
Definition lift {A : Type} (r : result A) : M A :=
  match r with
  | Ok a => ret a
  | Err e => raise e
  end.

Notation "'do' x <- c ; k" := (bind c (fun x => k))
  (at level 10, x name, c at level 100, k at level 200).

Definition deref {A : Type} (heap : World -> gmap loc A) (r : loc) : M A :=
  fun w =>
    match heap w !! r with
    | Some x => Return x w
    | None => Raised DanglingReference w
    end.

Definition get_font := deref fonts.
Definition get_master := deref masters.
Definition get_glyph := deref glyphs.
Definition get_layer := deref layers.
Definition get_anchor := deref anchors.
Definition get_parameter := deref parameters.
Definition get_other := deref others.

Definition put_font (r : loc) (x : GSFont.t) : M unit :=
  fun w => Return tt (with_fonts (<[r := x]> (fonts w)) w).
Definition put_master (r : loc) (x : GSFontMaster.t) : M unit :=
  fun w => Return tt (with_masters (<[r := x]> (masters w)) w).
Definition put_glyph (r : loc) (x : GSGlyph.t) : M unit :=
  fun w => Return tt (with_glyphs (<[r := x]> (glyphs w)) w).
Definition put_layer (r : loc) (x : GSLayer.t) : M unit :=
  fun w => Return tt (with_layers (<[r := x]> (layers w)) w).
Definition put_anchor (r : loc) (x : GSAnchor.t) : M unit :=
  fun w => Return tt (with_anchors (<[r := x]> (anchors w)) w).
Definition put_parameter (r : loc) (x : GSCustomParameter.t) : M unit :=
  fun w => Return tt (with_parameters (<[r := x]> (parameters w)) w).

(** ** GSFont: the minor version *)

Module Font.

Definition getVersionMinor (self : loc) : M Z :=
  do f <- get_font self;
  ret (GSFont._versionMinor f).

(** [assert value >= 0 and value <= 999] and then the assignment;
    assertions are taken as enabled. *)
Definition setVersionMinor (self : loc) (value : Z) : M unit :=
  do f <- get_font self;
  if (value >=? 0) && (value <=? 999)
  then put_font self
         (GSFont.mk (GSFont._masters f) value (GSFont._customParameters f)
                    (GSFont.__dict__ f))
  else raise AssertionError.

(** [masterForId]: the first master whose [id] equals [key], or [None]. *)
Fixpoint find_master (ms : list loc) (key : pystr) : M (option loc) :=
  match ms with
  | [] => ret None
  | r :: ms' =>
      do m <- get_master r;
      if pystr_eq (GSFontMaster.id m) key then ret (Some r)
      else find_master ms' key
  end.

Definition masterForId (self : loc) (key : pystr) : M (option loc) :=
  do f <- get_font self;
  find_master (GSFont._masters f) key.

End Font.

(** ** What the module imports *)

(** [classes.py] takes these functions from [glyphsLib.types],
    [glyphsLib.parser] and [glyphsLib.writer], and the conversions [float] and
    [str] of values other than integers from Python; none of them is defined in
    this file, so the methods below are parameterised by them. *)
Class Imports := {
  needsQuotes : pyval -> bool;
  floatToString : pyval -> result string;
  readIntlist : pyval -> result pyval;
  writeIntlist : pyval -> result (list string);
  feature_syntax_encode : string -> string;
  parse : pyval -> result pyval;
  writeDict : list (string * pyval) -> result string;
  py_float : pyval -> result float;
  py_repr : pyval -> string;
  baseType_eq : pyval -> option pyval -> bool }.

(** [str(v)], which is also what [%s] formats. *)
Definition str `{Imports} (v : pyval) : string :=
  match v with
  | VNone => "None"
  | VBool true => "True"
  | VBool false => "False"
  | VInt z => str_of_int z
  | VStr s => s
  | _ => py_repr v
  end.

Definition quote : string := String (ascii_of_nat 34) EmptyString.

(** The text [s] between double quotes. *)
Definition quoted (s : string) : string := quote +:+ s +:+ quote.

Fixpoint insert_sorted (k : string) (l : list string) : list string :=
  match l with
  | [] => [k]
  | k' :: l' => if String.leb k k' then k :: l else k' :: insert_sorted k l'
  end.

(** [sorted(keys)] on strings. *)
Definition sorted (l : list string) : list string :=
  fold_right insert_sorted [] l.

(** ** GSCustomParameter *)

Module CustomParameter.

Definition _CUSTOM_INT_PARAMS : list string := [
  "ascender"; "blueShift"; "capHeight"; "descender"; "hheaAscender";
  "hheaDescender"; "hheaLineGap"; "macintoshFONDFamilyID";
  "openTypeHeadLowestRecPPEM"; "openTypeHheaAscender";
  "openTypeHheaCaretOffset";
  "openTypeHheaCaretSlopeRise"; "openTypeHheaCaretSlopeRun";
  "openTypeHheaDescender"; "openTypeHheaLineGap";
  "openTypeOS2StrikeoutPosition"; "openTypeOS2StrikeoutSize";
  "openTypeOS2SubscriptXOffset"; "openTypeOS2SubscriptXSize";
  "openTypeOS2SubscriptYOffset"; "openTypeOS2SubscriptYSize";
  "openTypeOS2SuperscriptXOffset"; "openTypeOS2SuperscriptXSize";
  "openTypeOS2SuperscriptYOffset"; "openTypeOS2SuperscriptYSize";
  "openTypeOS2TypoAscender"; "openTypeOS2TypoDescender";
  "openTypeOS2TypoLineGap"; "openTypeOS2WeightClass";
  "openTypeOS2WidthClass";
  "openTypeOS2WinAscent"; "openTypeOS2WinDescent";
  "openTypeVheaCaretOffset";
  "openTypeVheaCaretSlopeRise"; "openTypeVheaCaretSlopeRun";
  "openTypeVheaVertTypoAscender"; "openTypeVheaVertTypoDescender";
  "openTypeVheaVertTypoLineGap"; "postscriptBlueFuzz";
  "postscriptBlueShift";
  "postscriptDefaultWidthX"; "postscriptSlantAngle";
  "postscriptUnderlinePosition"; "postscriptUnderlineThickness";
  "postscriptUniqueID"; "postscriptWindowsCharacterSet";
  "shoulderHeight";
  "smallCapHeight"; "typoAscender"; "typoDescender"; "typoLineGap";
  "underlinePosition"; "underlineThickness"; "unitsPerEm";
  "vheaVertAscender";
  "vheaVertDescender"; "vheaVertLineGap"; "weightClass"; "widthClass";
  "winAscent"; "winDescent"; "xHeight"; "year"; "Grid Spacing" ]%string.

Definition _CUSTOM_FLOAT_PARAMS : list string := [ "postscriptBlueScale" ]%string.

Definition _CUSTOM_BOOL_PARAMS : list string := [
  "isFixedPitch"; "postscriptForceBold"; "postscriptIsFixedPitch";
  "Don’t use Production Names"; "DisableAllAutomaticBehaviour";
  "Use Typo Metrics"; "Has WWS Names"; "Use Extension Kerning" ]%string.

Definition _CUSTOM_INTLIST_PARAMS : list string := [
  "fsType"; "openTypeOS2CodePageRanges"; "openTypeOS2FamilyClass";
  "openTypeOS2Panose"; "openTypeOS2Type"; "openTypeOS2UnicodeRanges";
  "panose"; "unicodeRanges"; "codePageRanges"; "openTypeHeadFlags" ]%string.

(** [frozenset(('GASP Table'))]: the parentheses make no tuple, so this is the
    set of the characters of that string. *)
Definition _CUSTOM_DICT_PARAMS : list string :=
  [ "G"; "A"; "S"; "P"; " "; "T"; "a"; "b"; "l"; "e" ]%string.

(** [name in names] for a parameter name, which is any hashable value. *)
Definition mem (name : pyval) (names : list string) : bool :=
  existsb (fun s => py_eq name (VStr s)) names.

Section Methods.
Context `{Imports}.

Definition getValue (self : loc) : M pyval :=
  do p <- get_parameter self;
  ret (GSCustomParameter._value p).

(** The chain of casts of [setValue], before the assignment to [_value]. *)
Definition cast (name value : pyval) : result pyval :=
  if mem name _CUSTOM_INT_PARAMS then
    match py_int value with Ok z => Ok (VInt z) | Err e => Err e end
  else if mem name _CUSTOM_FLOAT_PARAMS then
    match py_float value with Ok f => Ok (VFloat f) | Err e => Err e end
  else if mem name _CUSTOM_BOOL_PARAMS then
    Ok (VBool (truthy value))
  else if mem name _CUSTOM_INTLIST_PARAMS then
    readIntlist value
  else if mem name _CUSTOM_DICT_PARAMS then
    parse value
  else if py_eq name (VStr "note") then
    Ok (VStr (str value))
  else Ok value.

Definition setValue (self : loc) (value : pyval) : M unit :=
  do p <- get_parameter self;
  do v <- lift (cast (GSCustomParameter.name p) value);
  put_parameter self (GSCustomParameter.mk (GSCustomParameter.name p) v).

(** [GSCustomParameter(name, value)]: [self.name = name], then
    [self.value = value] through [setValue].  The object enters the store once
    the cast has succeeded: one whose cast raises is referenced by nothing. *)
Definition __init__ (name value : pyval) : M loc :=
  do v <- lift (cast name value);
  fun w =>
    let r := fresh (dom (parameters w)) in
    Return r (with_parameters
                (<[r := GSCustomParameter.mk name v]> (parameters w)) w).

Fixpoint map_result {A B : Type} (f : A -> result B) (l : list A)
  : result (list B) :=
  match l with
  | [] => Ok []
  | x :: l' =>
      match f x with
      | Ok y =>
          match map_result f l' with
          | Ok ys => Ok (y :: ys)
          | Err e => Err e
          end
      | Err e => Err e
      end
  end.

(** One turn of the loop over a list value. *)
Definition plist_element (v : pyval) : result string :=
  match v with
  | VBool _ | VInt _ | VFloat _ => Ok (str v)
  | VDict d => writeDict d
  | _ =>
      let s := str v in
      Ok (if needsQuotes (VStr s) then quoted s else s)
  end.

(** One turn of the loop over the sorted keys of a dict value. *)
Definition plist_entry (value : list (string * pyval)) (key : string)
  : result string :=
  match assoc key value with
  | Some v =>
      let k := if needsQuotes (VStr key) then quoted key else key in
      let t := if needsQuotes v then quoted (str v) else str v in
      Ok (k +:+ " = " +:+ t +:+ ";")
  | None => Err KeyError
  end.

Definition plist_value (name value : pyval) : result string :=
  if mem name _CUSTOM_INT_PARAMS then Ok (str value)
  else if mem name _CUSTOM_FLOAT_PARAMS then floatToString value
  else if mem name _CUSTOM_BOOL_PARAMS then
    Ok (if truthy value then "1" else "0")
  else if mem name _CUSTOM_INTLIST_PARAMS then
    match writeIntlist value with
    | Ok values =>
        if (0 <? length values)%nat
        then Ok ("(" +:+ nl +:+ join ("," +:+ nl) values +:+ nl +:+ ")")
        else Ok ("(" +:+ nl +:+ ")")
    | Err e => Err e
    end
  else
    match value with
    | VStr s => Ok (feature_syntax_encode s)
    | VList l =>
        match map_result plist_element l with
        | Ok values =>
            Ok ("(" +:+ nl +:+ join ("," +:+ nl) values +:+ nl +:+ ")")
        | Err e => Err e
        end
    | VDict d =>
        match map_result (plist_entry d) (sorted (map fst d)) with
        | Ok values => Ok ("{" +:+ nl +:+ join nl values +:+ nl +:+ "}")
        | Err e => Err e
        end
    | _ => Err TypeError
    end.

(** The text [{\nname = %s;\nvalue = %s;\n}] with both places filled. *)
Definition plist_form (name value : string) : string :=
  "{" +:+ nl +:+ "name = " +:+ name +:+ ";" +:+ nl +:+
  "value = " +:+ value +:+ ";" +:+ nl +:+ "}".

(** [name], between quotes when [needsQuotes(name)]. *)
Definition plist_name (name : pyval) : string :=
  if needsQuotes name then quoted (str name) else str name.

Definition plistValue (self : loc) : M string :=
  do p <- get_parameter self;
  let name := GSCustomParameter.name p in
  do value <- lift (plist_value name (GSCustomParameter._value p));
  ret (plist_form (plist_name name) value).

End Methods.
End CustomParameter.

(** ** CustomParametersProxy *)

Module CustomParametersProxy.

(** The entity a proxy is bound to: one that has a [_customParameters] list. *)
Inductive owner :=
| OfFont (r : loc)
| OfMaster (r : loc).

(** [self._owner._customParameters] *)
Definition values (o : owner) : M (list loc) :=
  match o with
  | OfFont r => do f <- get_font r; ret (GSFont._customParameters f)
  | OfMaster r => do m <- get_master r; ret (GSFontMaster._customParameters m)
  end.

Definition set_values (o : owner) (ps : list loc) : M unit :=
  match o with
  | OfFont r =>
      do f <- get_font r;
      put_font r (GSFont.mk (GSFont._masters f) (GSFont._versionMinor f) ps
                            (GSFont.__dict__ f))
  | OfMaster r =>
      do m <- get_master r;
      put_master r
        (GSFontMaster.mk (GSFontMaster.id m) (GSFontMaster._name m) ps
           (GSFontMaster._weight m) (GSFontMaster._width m)
           (GSFontMaster._custom m) (GSFontMaster._custom1 m)
           (GSFontMaster._custom2 m) (GSFontMaster.italicAngle m)
           (GSFontMaster.__dict__ m))
  end.

(** What [__getitem__] hands back: a parameter object, or a built-in value
    (the value of a parameter, or [None]). *)
Inductive item :=
| ItemObject (r : loc)
| ItemValue (v : pyval).

(** [isinstance(key, int)], with the integer. *)
Definition as_int (key : pyval) : option Z :=
  match key with
  | VInt z => Some z
  | VBool b => Some (Z.b2z b)
  | _ => None
  end.

(** The loop of [__getitem__] over the parameters, and the [return None]
    after it. *)
Fixpoint scan (ps : list loc) (key : pyval) : M pyval :=
  match ps with
  | [] => ret VNone
  | r :: ps' =>
      do customParameter <- get_parameter r;
      if py_eq (GSCustomParameter.name customParameter) key
      then ret (GSCustomParameter._value customParameter)
      else scan ps' key
  end.

(** [customParameters[name]] for a key that is no integer: the value the scan
    returns (lemma [getitem_by_name] ties it to [__getitem__]). *)
Definition lookup (o : owner) (key : pyval) : M pyval :=
  do ps <- values o;
  scan ps key.

(** Keys are integers or other built-in values; slices are not modelled. *)
Definition __getitem__ (o : owner) (key : pyval) : M item :=
  do ps <- values o;
  match as_int key with
  | Some i => do r <- lift (py_index ps i); ret (ItemObject r)
  | None => do v <- scan ps key; ret (ItemValue v)
  end.

Section Methods.
Context `{Imports}.

(** [Value.value = value] runs [setValue] when [Value] is a parameter object;
    a built-in value takes no attribute. *)
Definition __setitem__ (o : owner) (key value : pyval) : M unit :=
  do Value <- __getitem__ o key;
  match Value with
  | ItemObject r => CustomParameter.setValue r value
  | ItemValue VNone =>
      do parameter <- CustomParameter.__init__ key value;
      do ps <- values o;
      set_values o (ps ++ [parameter])
  | ItemValue _ => raise AttributeError
  end.

End Methods.
End CustomParametersProxy.

(** ** GSFontMaster *)

Module FontMaster.

Definition set_name (m : GSFontMaster.t) (v : pyval) : GSFontMaster.t :=
  GSFontMaster.mk (GSFontMaster.id m) v (GSFontMaster._customParameters m)
    (GSFontMaster._weight m) (GSFontMaster._width m)
    (GSFontMaster._custom m) (GSFontMaster._custom1 m)
    (GSFontMaster._custom2 m) (GSFontMaster.italicAngle m)
    (GSFontMaster.__dict__ m).

(** [names.append(c)] under the guard
    [c and len(c) and c not in names]. *)
Definition add_custom (c : pystr) (names : list pystr) : list pystr :=
  if pystr_truthy c && negb (existsb (pystr_eq c) names)
  then names ++ [c] else names.

(** [names.remove(x)]: the first element equal to [x] goes, and
    [ValueError] is raised when there is none. *)
Fixpoint list_remove (x : pystr) (names : list pystr) : result (list pystr) :=
  match names with
  | [] => Err ValueError
  | y :: names' =>
      if pystr_eq y x then Ok names'
      else match list_remove x names' with
           | Ok r => Ok (y :: r)
           | Err e => Err e
           end
  end.

(** [" ".join(names)]: every element has to be a string. *)
Fixpoint all_str (names : list pystr) : result (list string) :=
  match names with
  | [] => Ok []
  | Some s :: names' =>
      match all_str names' with
      | Ok r => Ok (s :: r)
      | Err e => Err e
      end
  | None :: _ => Err TypeError
  end.

(** [abs(self.italicAngle) > 0.01] *)
Definition is_italic (italicAngle : float) : bool :=
  PrimFloat.ltb 0x1.47ae147ae147bp-7%float (PrimFloat.abs italicAngle).

(** The body of [if name is None:]; a list has no method [add]. *)
Definition computed_name (m : GSFontMaster.t) : result pyval :=
  let names := [GSFontMaster._weight m; GSFontMaster._width m] in
  let names := add_custom (GSFontMaster._custom m) names in
  let names := add_custom (GSFontMaster._custom1 m) names in
  let names := add_custom (GSFontMaster._custom2 m) names in
  match (if (1 <? length names)%nat
         then list_remove (Some "Regular"%string) names
         else Ok names) with
  | Ok names =>
      if is_italic (GSFontMaster.italicAngle m) then Err AttributeError
      else match all_str names with
           | Ok l => Ok (VStr (join " " l))
           | Err e => Err e
           end
  | Err e => Err e
  end.

(** The property [name]. *)
Definition name (self : loc) : M pyval :=
  do m <- get_master self;
  match GSFontMaster._name m with
  | VNone =>
      do name <- CustomParametersProxy.lookup
                   (CustomParametersProxy.OfMaster self) (VStr "Master Name");
      do name <- match name with
                 | VNone => lift (computed_name m)
                 | _ => ret name
                 end;
      do _ <- put_master self (set_name m name);
      ret name
  | cached => ret cached
  end.

Definition of_pystr (s : pystr) : pyval :=
  match s with
  | Some s => VStr s
  | None => VNone
  end.

(** The properties [weight] and [width]. *)
Definition weight (m : GSFontMaster.t) : pyval :=
  match GSFontMaster._weight m with
  | Some s => VStr s
  | None => VStr "Regular"
  end.

Definition width (m : GSFontMaster.t) : pyval :=
  match GSFontMaster._width m with
  | Some s => VStr s
  | None => VStr "Regular"
  end.

End FontMaster.

(** ** LayerAnchorsProxy *)

Module LayerAnchorsProxy.

Definition set_anchors (l : GSLayer.t) (a : list loc) : GSLayer.t :=
  GSLayer.mk (GSLayer.parent l) (GSLayer.layerId l)
    (GSLayer.associatedMasterId l) (GSLayer._name l) a (GSLayer.__dict__ l).

Definition set_parent (a : GSAnchor.t) (p : option loc) : GSAnchor.t :=
  GSAnchor.mk (GSAnchor.name a) (GSAnchor.position a) p.

(** The loop [for i, a in enumerate(self._owner._anchors)] up to its test
    [a.name == anchor.name]: the first position that passes it. *)
Fixpoint find_name (l : list loc) (i : nat) (name : pystr) : M (option nat) :=
  match l with
  | [] => ret None
  | r :: l' =>
      do a <- get_anchor r;
      if pystr_eq (GSAnchor.name a) name then ret (Some i)
      else find_name l' (S i) name
  end.

Definition append (owner anchor : loc) : M unit :=
  do l <- get_layer owner;
  do new <- get_anchor anchor;
  do hit <- find_name (GSLayer._anchors l) 0%nat (GSAnchor.name new);
  match hit with
  | Some i =>
      do _ <- put_anchor anchor (set_parent new (Some owner));
      put_layer owner (set_anchors l (<[i := anchor]> (GSLayer._anchors l)))
  | None =>
      if pystr_truthy (GSAnchor.name new)
      then put_layer owner (set_anchors l (GSLayer._anchors l ++ [anchor]))
      else raise ValueError
  end.

(** [len(layer.anchors)] and [layer.anchors[i]] *)
Definition __len__ (owner : loc) : M nat :=
  do l <- get_layer owner;
  ret (length (GSLayer._anchors l)).

End LayerAnchorsProxy.

(** ** GSLayer: the property [name] *)

Module Layer.

Definition name (self : loc) : M pyval :=
  do l <- get_layer self;
  if pystr_truthy (GSLayer.associatedMasterId l)
     && pystr_eq (GSLayer.associatedMasterId l) (GSLayer.layerId l)
  then
    match GSLayer.parent l with
    | None => raise AttributeError
    | Some None => ret (GSLayer._name l)
    | Some (Some g) =>
        do glyph <- get_glyph g;
        match GSGlyph.parent glyph with
        | None => raise AttributeError
        | Some font =>
            do master <- Font.masterForId font (GSLayer.associatedMasterId l);
            match master with
            | Some m => FontMaster.name m
            | None => ret (GSLayer._name l)
            end
        end
    end
  else ret (GSLayer._name l).

End Layer.

(** ** GSGlyph and GlyphLayerProxy *)

Module Glyph.

Definition set_parent_id (l : GSLayer.t) (g : loc) (key : pystr) : GSLayer.t :=
  GSLayer.mk (Some (Some g)) key (GSLayer.associatedMasterId l)
    (GSLayer._name l) (GSLayer._anchors l) (GSLayer.__dict__ l).

Definition set_associatedMasterId (l : GSLayer.t) (key : pystr) : GSLayer.t :=
  GSLayer.mk (GSLayer.parent l) (GSLayer.layerId l) key
    (GSLayer._name l) (GSLayer._anchors l) (GSLayer.__dict__ l).

Definition _setupLayer (self layer : loc) (key : pystr) : M unit :=
  do l <- get_layer layer;
  do _ <- put_layer layer (set_parent_id l self key);
  do g <- get_glyph self;
  match GSGlyph.parent g with
  | Some font =>
      do master <- Font.masterForId font key;
      match master with
      | Some _ =>
          do l <- get_layer layer;
          put_layer layer (set_associatedMasterId l key)
      | None => ret tt
      end
  | None => ret tt
  end.

End Glyph.

Module GlyphLayerProxy.

(** [d[k] = v] on an [OrderedDict]: a key already there keeps its place. *)
Fixpoint od_set (k : pystr) (v : loc) (d : list (pystr * loc))
  : list (pystr * loc) :=
  match d with
  | [] => [(k, v)]
  | (k', v') :: d' =>
      if pystr_eq k' k then (k', v) :: d' else (k', v') :: od_set k v d'
  end.

(** What the setter can be handed: a list, a tuple, another layer proxy
    (named by its glyph), a dict, or any other value. *)
Inductive values_arg :=
| OfList (ls : list loc)
| OfTuple (ls : list loc)
| OfProxy (glyph : loc)
| OfDict (d : list (pyval * loc))
| OfOther (v : pyval).

(** [for layer in values: newLayers[layer.layerId] = layer] *)
Fixpoint collect (ls : list loc) (newLayers : list (pystr * loc))
  : M (list (pystr * loc)) :=
  match ls with
  | [] => ret newLayers
  | layer :: ls' =>
      do l <- get_layer layer;
      collect ls' (od_set (GSLayer.layerId l) layer newLayers)
  end.

(** [for (key, layer) in newLayers.items(): self._owner._setupLayer(layer, key)] *)
Fixpoint setup_all (owner : loc) (items : list (pystr * loc)) : M unit :=
  match items with
  | [] => ret tt
  | (key, layer) :: items' =>
      do _ <- Glyph._setupLayer owner layer key;
      setup_all owner items'
  end.

Definition setter (owner : loc) (values : values_arg) : M unit :=
  do newLayers <-
    match values with
    | OfList ls | OfTuple ls => collect ls []
    | OfProxy glyph =>
        do g <- get_glyph glyph;
        collect (map snd (GSGlyph._layers g)) []
    | OfDict d => collect (map snd d) []
    | OfOther _ => raise TypeError
    end;
  do _ <- setup_all owner newLayers;
  do g <- get_glyph owner;
  put_glyph owner (GSGlyph.mk (GSGlyph.parent g) newLayers).

(** [__getitem__] for an integer key (the other kinds of key are not
    modelled): [if key < 0: key = self.__len__() + key] and then
    [list(self._owner._layers.values())[key]]. *)
Definition __getitem__ (owner : loc) (key : Z) : M loc :=
  do g <- get_glyph owner;
  let vs := map snd (GSGlyph._layers g) in
  let key := if key <? 0 then Z.of_nat (length vs) + key else key in
  lift (py_index vs key).

End GlyphLayerProxy.

(** ** The serialization policy: [shouldWriteValueForKey] *)

(** The class registered for a key in [_classesForName]. *)
Inductive klass :=
| Kint | Kfloat | Kbool | Kstr | Kunicode | Kdict | KOrderedDict
| Kpoint | Ktransform | Kcolor | Kdatetime
| KGS (cls : string).

Record tables := mkTables {
  _classesForName : list (string * klass);
  _defaultsForName : list (string * pyval);
  _wrapperKeysTranslate : list (string * string) }.

Definition dict_getattr (d : gmap string attr) (key : string) : M attr :=
  match d !! key with
  | Some a => ret a
  | None => raise AttributeError
  end.

(** [len(value)] *)
Definition attr_len (a : attr) : result nat :=
  match a with
  | AVal (VStr s) => Ok (String.length s)
  | AVal (VList l) | AVal (VTuple l) => Ok (length l)
  | AVal (VDict d) => Ok (length d)
  | _ => Err TypeError
  end.

(** [key in "width"] on strings: [key] occurs in it. *)
Fixpoint occurs_in (key s : string) : bool :=
  String.prefix key s ||
  match s with
  | String _ s' => occurs_in key s'
  | EmptyString => false
  end.

Definition is_none (v : pyval) : bool :=
  match v with
  | VNone => true
  | _ => false
  end.

Module Base.
Section Methods.
Context `{Imports}.

(** [a == b] for a built-in [a] and whatever a field holds. *)
Definition eq_attr (a : pyval) (b : attr) : bool :=
  match b with
  | AVal v => py_eq a v
  | AWrap payload => baseType_eq a payload
  | AObj => false
  end.

(** [klass in (int, float, bool)] *)
Definition is_bare_number (k : klass) : bool :=
  match k with
  | Kint | Kfloat | Kbool => true
  | _ => false
  end.

(** [isinstance(value, baseType) and value.value is None] *)
Definition is_empty_wrapper (a : attr) : bool :=
  match a with
  | AWrap None => true
  | _ => false
  end.

(** [GSBase.shouldWriteValueForKey], for a class with tables [T] and an
    object whose attributes [getattr] reads. *)
Definition shouldWriteValueForKey (T : tables) (getattr : string -> M attr)
  (key : string) : M bool :=
  let getKey := default key (assoc key (_wrapperKeysTranslate T)) in
  do value <- getattr getKey;
  match assoc key (_classesForName T) with
  | None => raise KeyError
  | Some klass =>
      let dflt := default VNone (assoc key (_defaultsForName T)) in
      if negb (is_none dflt) then ret (negb (eq_attr dflt value))
      else if is_bare_number klass && eq_attr (VInt 0) value then ret false
      else if is_empty_wrapper value then ret false
      else ret true
  end.

End Methods.
End Base.

Module FontMasterPolicy.

Definition T : tables := mkTables
  [ ("alignmentZones", KGS "GSAlignmentZone"); ("ascender", Kfloat);
    ("capHeight", Kfloat); ("custom", Kunicode);
    ("customParameters", KGS "GSCustomParameter"); ("customValue", Kfloat);
    ("descender", Kfloat); ("guideLines", KGS "GSGuideLine");
    ("horizontalStems", Kint); ("id", Kstr); ("italicAngle", Kfloat);
    ("userData", Kdict); ("verticalStems", Kint); ("visible", Kbool);
    ("weight", Kstr); ("weightValue", Kfloat); ("width", Kstr);
    ("widthValue", Kfloat); ("xHeight", Kfloat) ]%string
  [ ("weightValue", VFloat 100); ("widthValue", VFloat 100) ]%string
  [ ("guideLines", "guides") ]%string.

(** [getattr(self, key)]: the properties first, then the plain attributes. *)
Definition getattr (self : loc) (key : string) : M attr :=
  do m <- get_master self;
  if String.eqb key "name" then do v <- FontMaster.name self; ret (AVal v)
  else if String.eqb key "weight" then ret (AVal (FontMaster.weight m))
  else if String.eqb key "width" then ret (AVal (FontMaster.width m))
  else if String.eqb key "customName" then
    ret (AVal (FontMaster.of_pystr (GSFontMaster._custom m)))
  else if String.eqb key "id" then
    ret (AVal (FontMaster.of_pystr (GSFontMaster.id m)))
  else if String.eqb key "italicAngle" then
    ret (AVal (VFloat (GSFontMaster.italicAngle m)))
  else if String.eqb key "customParameters" || String.eqb key "userData" then
    ret AObj
  else dict_getattr (GSFontMaster.__dict__ m) key.

Section Methods.
Context `{Imports}.

Definition shouldWriteValueForKey (self : loc) (key : string) : M bool :=
  if String.eqb key "width" || String.eqb key "weight" then
    do value <- getattr self key;
    if Base.eq_attr (VStr "Regular") value then ret false else ret true
  else Base.shouldWriteValueForKey T (getattr self) key.

End Methods.
End FontMasterPolicy.

Module PathPolicy.

Definition T : tables := mkTables
  [ ("nodes", KGS "GSNode"); ("closed", Kbool) ]%string
  [ ("closed", VBool true) ]%string
  [].

Definition getattr (self : loc) (key : string) : M attr :=
  do o <- get_other self;
  dict_getattr o key.

Section Methods.
Context `{Imports}.

Definition shouldWriteValueForKey (self : loc) (key : string) : M bool :=
  if String.eqb key "closed" then ret true
  else Base.shouldWriteValueForKey T (getattr self) key.

End Methods.
End PathPolicy.

Module ComponentPolicy.

Definition T : tables := mkTables
  [ ("alignment", Kint); ("anchor", Kstr); ("locked", Kbool);
    ("name", Kunicode); ("piece", Kdict); ("transform", Ktransform) ]%string
  [ ("transform",
     VTuple [VInt 1; VInt 0; VInt 0; VInt 1; VInt 0; VInt 0]) ]%string
  [].

Definition getattr (self : loc) (key : string) : M attr :=
  do o <- get_other self;
  dict_getattr o key.

Section Methods.
Context `{Imports}.

Definition shouldWriteValueForKey (self : loc) (key : string) : M bool :=
  if String.eqb key "piece" then
    do value <- getattr self key;
    do n <- lift (attr_len value);
    ret (0 <? n)%nat
  else Base.shouldWriteValueForKey T (getattr self) key.

End Methods.
End ComponentPolicy.

Module BackgroundLayerPolicy.

Definition T : tables := mkTables
  [ ("anchors", KGS "GSAnchor"); ("annotations", KGS "GSAnnotation");
    ("backgroundImage", Kdict); ("components", KGS "GSComponent");
    ("guideLines", KGS "GSGuideLine"); ("hints", KGS "GSHint");
    ("paths", KGS "GSPath"); ("visible", Kbool) ]%string
  []
  [].

Definition getattr (self : loc) (key : string) : M attr :=
  do o <- get_other self;
  dict_getattr o key.

Section Methods.
Context `{Imports}.

Definition shouldWriteValueForKey (self : loc) (key : string) : M bool :=
  if String.eqb key "backgroundImage" then
    do value <- getattr self key;
    do n <- lift (attr_len value);
    ret (0 <? n)%nat
  else Base.shouldWriteValueForKey T (getattr self) key.

End Methods.
End BackgroundLayerPolicy.

Module LayerPolicy.

Definition T : tables := mkTables
  [ ("anchors", KGS "GSAnchor"); ("annotations", KGS "GSAnnotation");
    ("associatedMasterId", Kstr); ("background", KGS "GSBackgroundLayer");
    ("backgroundImage", Kdict); ("color", Kcolor);
    ("components", KGS "GSComponent"); ("guideLines", KGS "GSGuideLine");
    ("hints", KGS "GSHint"); ("layerId", Kstr);
    ("leftMetricsKey", Kunicode); ("name", Kunicode);
    ("paths", KGS "GSPath"); ("rightMetricsKey", Kunicode);
    ("userData", Kdict); ("vertWidth", Kfloat); ("visible", Kbool);
    ("width", Kfloat); ("widthMetricsKey", Kunicode) ]%string
  [ ("name", VStr "Regular"); ("weight", VInt 600) ]%string
  [ ("guideLines", "guides") ]%string.

Definition getattr (self : loc) (key : string) : M attr :=
  do l <- get_layer self;
  if String.eqb key "name" then do v <- Layer.name self; ret (AVal v)
  else if String.eqb key "layerId" then
    ret (AVal (FontMaster.of_pystr (GSLayer.layerId l)))
  else if String.eqb key "associatedMasterId" then
    ret (AVal (FontMaster.of_pystr (GSLayer.associatedMasterId l)))
  else if String.eqb key "parent" then
    match GSLayer.parent l with
    | None => raise AttributeError
    | Some None => ret (AVal VNone)
    | Some (Some _) => ret AObj
    end
  else if existsb (String.eqb key)
            [ "anchors"; "paths"; "components"; "guideLines"; "annotations";
              "userData" ]%string
  then ret AObj
  else dict_getattr (GSLayer.__dict__ l) key.

Section Methods.
Context `{Imports}.

(** [("width")] is a string, not a tuple: the second test asks whether [key]
    occurs in it. *)
Definition shouldWriteValueForKey (self : loc) (key : string) : M bool :=
  if String.eqb key "associatedMasterId" || String.eqb key "name" then
    do l <- get_layer self;
    ret (negb (pystr_eq (GSLayer.layerId l) (GSLayer.associatedMasterId l)))
  else if occurs_in key "width" then ret true
  else if String.eqb key "backgroundImage" then
    do value <- getattr self key;
    do n <- lift (attr_len value);
    ret (0 <? n)%nat
  else Base.shouldWriteValueForKey T (getattr self) key.

End Methods.
End LayerPolicy.

Module FontPolicy.

Definition T : tables := mkTables
  [ (".appVersion", Kint); ("DisplayStrings", Kunicode);
    ("classes", KGS "GSClass"); ("copyright", Kunicode);
    ("customParameters", KGS "GSCustomParameter"); ("date", Kdatetime);
    ("designer", Kunicode); ("designerURL", Kunicode);
    ("disablesAutomaticAlignment", Kbool); ("disablesNiceNames", Kbool);
    ("familyName", Kunicode); ("featurePrefixes", KGS "GSFeaturePrefix");
    ("features", KGS "GSFeature"); ("fontMaster", KGS "GSFontMaster");
    ("glyphs", KGS "GSGlyph"); ("grid", Kint); ("gridLength", Kint);
    ("gridSubDivision", Kint); ("instances", KGS "GSInstance");
    ("keepAlternatesTogether", Kbool); ("kerning", KOrderedDict);
    ("manufacturer", Kunicode); ("manufacturerURL", Kunicode);
    ("unitsPerEm", Kint); ("userData", Kdict); ("versionMajor", Kint);
    ("versionMinor", Kint) ]%string
  [ ("classes", VList []); ("customParameters", VList []);
    ("disablesAutomaticAlignment", VBool false);
    ("disablesNiceNames", VBool false); ("gridLength", VInt 1);
    ("gridSubDivision", VInt 1); ("unitsPerEm", VInt 1000);
    ("kerning", VDict []) ]%string
  [ (".appVersion", "appVersion"); ("fontMaster", "masters");
    ("unitsPerEm", "upm") ]%string.

Definition getattr (self : loc) (key : string) : M attr :=
  do f <- get_font self;
  if String.eqb key "versionMinor" then
    ret (AVal (VInt (GSFont._versionMinor f)))
  else if existsb (String.eqb key)
            [ "masters"; "glyphs"; "classes"; "customParameters"; "userData";
              "instances" ]%string
  then ret AObj
  else dict_getattr (GSFont.__dict__ f) key.

Section Methods.
Context `{Imports}.

Definition shouldWriteValueForKey (self : loc) (key : string) : M bool :=
  if String.eqb key "unitsPerEm" || String.eqb key "versionMinor" then ret true
  else Base.shouldWriteValueForKey T (getattr self) key.

End Methods.
End FontPolicy.

(** ** LayerAnchorsProxy: the other methods *)

Module AnchorsProxy.

Definition set_name (a : GSAnchor.t) (n : pystr) : GSAnchor.t :=
  GSAnchor.mk n (GSAnchor.position a) (GSAnchor._parent a).

(** [del l[k]] on a Python list. *)
Definition py_delete {A : Type} (l : list A) (k : Z) : result (list A) :=
  let n := Z.of_nat (length l) in
  let i := if k <? 0 then n + k else k in
  if (0 <=? i) && (i <? n) then Ok (delete (Z.to_nat i) l)
  else Err IndexError.

(** [l.insert(k, x)] on a Python list: a position beyond either end is
    brought back to that end. *)
Definition py_insert {A : Type} (l : list A) (k : Z) (x : A) : list A :=
  let n := Z.of_nat (length l) in
  let i := if k <? 0 then Z.max 0 (n + k) else Z.min k n in
  take (Z.to_nat i) l ++ x :: drop (Z.to_nat i) l.

(** [l.remove(x)] for objects, which are equal only to themselves. *)
Fixpoint py_remove (x : loc) (l : list loc) : result (list loc) :=
  match l with
  | [] => Err ValueError
  | y :: l' =>
      if Nat.eqb y x then Ok l'
      else match py_remove x l' with
           | Ok r => Ok (y :: r)
           | Err e => Err e
           end
  end.

(** The result is an anchor, or [None] when the loop over the names ends
    without a [return]. *)
Definition __getitem__ (owner : loc) (key : pyval) : M (option loc) :=
  do l <- get_layer owner;
  match CustomParametersProxy.as_int key with
  | Some i => do r <- lift (py_index (GSLayer._anchors l) i); ret (Some r)
  | None =>
      match key with
      | VStr s =>
          do hit <- LayerAnchorsProxy.find_name (GSLayer._anchors l) 0%nat
                      (Some s);
          match hit with
          | Some i => ret (GSLayer._anchors l !! i)
          | None => ret None
          end
      | _ => raise KeyError
      end
  end.

(** On the branch that replaces, the anchor is not given its parent. *)
Definition __setitem__ (owner : loc) (key : pyval) (anchor : loc) : M unit :=
  match key with
  | VStr s =>
      do a <- get_anchor anchor;
      do _ <- put_anchor anchor (set_name a (Some s));
      do l <- get_layer owner;
      do hit <- LayerAnchorsProxy.find_name (GSLayer._anchors l) 0%nat (Some s);
      match hit with
      | Some i =>
          put_layer owner
            (LayerAnchorsProxy.set_anchors l
               (<[i := anchor]> (GSLayer._anchors l)))
      | None =>
          do a <- get_anchor anchor;
          do _ <- put_anchor anchor
                    (LayerAnchorsProxy.set_parent a (Some owner));
          put_layer owner
            (LayerAnchorsProxy.set_anchors l (GSLayer._anchors l ++ [anchor]))
      end
  | _ => raise TypeError
  end.

(** A key that is neither an integer nor a string falls through both tests
    and nothing happens. *)
Definition __delitem__ (owner : loc) (key : pyval) : M unit :=
  do l <- get_layer owner;
  match CustomParametersProxy.as_int key with
  | Some i =>
      do rest <- lift (py_delete (GSLayer._anchors l) i);
      put_layer owner (LayerAnchorsProxy.set_anchors l rest)
  | None =>
      match key with
      | VStr s =>
          do hit <- LayerAnchorsProxy.find_name (GSLayer._anchors l) 0%nat
                      (Some s);
          match hit with
          | Some i =>
              match GSLayer._anchors l !! i with
              | Some r =>
                  do a <- get_anchor r;
                  do _ <- put_anchor r (LayerAnchorsProxy.set_parent a None);
                  put_layer owner
                    (LayerAnchorsProxy.set_anchors l
                       (delete i (GSLayer._anchors l)))
              | None => raise IndexError
              end
          | None => ret tt
          end
      | _ => ret tt
      end
  end.

(** [for anchor in anchors: anchor._parent = self._owner] *)
Fixpoint adopt (owner : loc) (anchors : list loc) : M unit :=
  match anchors with
  | [] => ret tt
  | r :: anchors' =>
      do a <- get_anchor r;
      do _ <- put_anchor r (LayerAnchorsProxy.set_parent a (Some owner));
      adopt owner anchors'
  end.

Definition extend (owner : loc) (anchors : list loc) : M unit :=
  do _ <- adopt owner anchors;
  do l <- get_layer owner;
  put_layer owner (LayerAnchorsProxy.set_anchors l (GSLayer._anchors l ++ anchors)).

(** [remove] takes an anchor or a name; with a name it indexes the list of
    anchors by that name, which a list refuses. *)
Definition remove (owner : loc) (anchor : string + loc) : M unit :=
  match anchor with
  | inl _ => raise TypeError
  | inr r =>
      do l <- get_layer owner;
      do rest <- lift (py_remove r (GSLayer._anchors l));
      put_layer owner (LayerAnchorsProxy.set_anchors l rest)
  end.

Definition insert (owner : loc) (index : Z) (anchor : loc) : M unit :=
  do a <- get_anchor anchor;
  do _ <- put_anchor anchor (LayerAnchorsProxy.set_parent a (Some owner));
  do l <- get_layer owner;
  put_layer owner
    (LayerAnchorsProxy.set_anchors l (py_insert (GSLayer._anchors l) index anchor)).

(** The setter, for a list of anchors (a proxy is turned into one first). *)
Definition setter (owner : loc) (anchors : list loc) : M unit :=
  do l <- get_layer owner;
  do _ <- put_layer owner (LayerAnchorsProxy.set_anchors l anchors);
  adopt owner anchors.

(** [Proxy.pop]: [type(i) == int] lets no [bool] through. *)
Definition pop (owner : loc) (i : pyval) : M (option loc) :=
  match i with
  | VInt _ =>
      do node <- __getitem__ owner i;
      do _ <- __delitem__ owner i;
      ret node
  | _ => raise KeyError
  end.

End AnchorsProxy.

(** ** CustomParametersProxy: deletion *)

Module ParametersProxy.
Import CustomParametersProxy.

(** The loop [for parameter in self._owner._customParameters] of
    [__delitem__], which removes from the list it walks: the iterator keeps a
    position [index] into the list as it is at each turn, and stops when the
    position is past the end.  [fuel] bounds the turns; as many turns as the
    list is long are enough (lemma [del_loop_fuel]). *)
Fixpoint del_loop (fuel : nat) (o : owner) (key : pyval) (index : nat)
  : M unit :=
  match fuel with
  | O => ret tt
  | S fuel' =>
      do ps <- values o;
      match ps !! index with
      | None => ret tt
      | Some r =>
          do parameter <- get_parameter r;
          if py_eq (GSCustomParameter.name parameter) key then
            do rest <- lift (AnchorsProxy.py_remove r ps);
            do _ <- set_values o rest;
            del_loop fuel' o key (S index)
          else del_loop fuel' o key (S index)
      end
  end.

Definition __delitem__ (o : owner) (key : pyval) : M unit :=
  match as_int key with
  | Some i =>
      do ps <- values o;
      do rest <- lift (AnchorsProxy.py_delete ps i);
      set_values o rest
  | None =>
      match key with
      | VStr _ =>
          do ps <- values o;
          del_loop (length ps) o key 0%nat
      | _ => raise KeyError
      end
  end.

(** [__len__] *)
Definition __len__ (o : owner) : M nat :=
  do ps <- values o;
  ret (length ps).

(** [remove] takes a parameter or a name.  With a name, [__getitem__] hands
    back the value of the parameter (or [None]), and that is what the list of
    parameter objects is asked to remove: a built-in value is equal to none of
    them. *)
Definition remove (o : owner) (parameter : string + loc) : M unit :=
  do target <-
    match parameter with
    | inl s => __getitem__ o (VStr s)
    | inr r => ret (ItemObject r)
    end;
  do ps <- values o;
  match target with
  | ItemObject r =>
      do rest <- lift (AnchorsProxy.py_remove r ps);
      set_values o rest
  | ItemValue _ => raise ValueError
  end.

(** [__contains__]: with a string it calls [self._owner.__getitem__], and no
    class of the entities has such a method; with a parameter it asks the
    list. *)
Definition __contains__ (o : owner) (item : string + loc) : M bool :=
  match item with
  | inl _ => raise AttributeError
  | inr r => do ps <- values o; ret (bool_decide (r ∈ ps))
  end.

End ParametersProxy.

(** ** GlyphLayerProxy: access by layer id, and removal *)

Module LayersProxy.

(** [d.get(k)] and [del d[k]] on an [OrderedDict]. *)
Fixpoint od_get (k : pystr) (d : list (pystr * loc)) : option loc :=
  match d with
  | [] => None
  | (k', v) :: d' => if pystr_eq k' k then Some v else od_get k d'
  end.

Fixpoint od_del (k : pystr) (d : list (pystr * loc))
  : result (list (pystr * loc)) :=
  match d with
  | [] => Err KeyError
  | (k', v) :: d' =>
      if pystr_eq k' k then Ok d'
      else match od_del k d' with
           | Ok r => Ok ((k', v) :: r)
           | Err e => Err e
           end
  end.

(** [GSLayer()]: the attributes that [GSBase.__init__] creates from the
    table of the class (those that no property of the class answers for),
    with [name] going through its setter, and the empty lists of
    [GSLayer.__init__].  There is no [parent] yet.  [color0] is what the
    imported [color()] gives, or [None] if that call raises, in which case
    [GSBase.__init__] passes over the attribute. *)
Definition new_layer_record (color0 : option attr) : GSLayer.t :=
  GSLayer.mk None (Some ""%string) (Some ""%string) (VStr "Regular") []
    (match color0 with
     | Some c => <["color"%string := c]>
     | None => fun d => d
     end
       (list_to_map
          [ ("background", AVal (VList [])); ("backgroundImage", AVal (VDict []));
            ("hints", AVal (VList [])); ("leftMetricsKey", AVal (VStr ""));
            ("rightMetricsKey", AVal (VStr "")); ("vertWidth", AVal (VFloat 0));
            ("visible", AVal (VBool false)); ("width", AVal (VFloat 0));
            ("widthMetricsKey", AVal (VStr ""));
            ("_annotations", AVal (VList [])); ("_components", AVal (VList []));
            ("_guideLines", AVal (VList [])); ("_paths", AVal (VList []));
            ("_selection", AVal (VList [])) ]%string)).

Definition new_layer (color0 : option attr) : M loc :=
  fun w =>
    let r := fresh (dom (layers w)) in
    Return r (with_layers (<[r := new_layer_record color0]> (layers w)) w).

(** [__setitem__] for a key that is a layer id (integer keys are not
    modelled). *)
Definition __setitem__ (owner : loc) (key : pystr) (layer : loc) : M unit :=
  do _ <- Glyph._setupLayer owner layer key;
  do g <- get_glyph owner;
  put_glyph owner
    (GSGlyph.mk (GSGlyph.parent g)
       (GlyphLayerProxy.od_set key layer (GSGlyph._layers g))).

(** [for master in self._owner.parent.masters: if master.id == key:
    keyIsMasterId = True] *)
Fixpoint mark_master_id (ms : list loc) (key : pystr) (keyIsMasterId : bool)
  : M bool :=
  match ms with
  | [] => ret keyIsMasterId
  | r :: ms' =>
      do master <- get_master r;
      mark_master_id ms' key
        (if pystr_eq (GSFontMaster.id master) key then true else keyIsMasterId)
  end.

(** [__getitem__] for a key that is a layer id: the layer filed under the
    key; when there is none and the key is the id of a master, a new layer
    is made and filed under it. *)
Definition __getitem__ (color0 : option attr) (owner : loc) (key : pystr)
  : M (option loc) :=
  do g <- get_glyph owner;
  match od_get key (GSGlyph._layers g) with
  | Some layer => ret (Some layer)
  | None =>
      match GSGlyph.parent g with
      | None => raise AttributeError
      | Some font =>
          do f <- get_font font;
          do keyIsMasterId <- mark_master_id (GSFont._masters f) key false;
          if keyIsMasterId then
            do layer <- new_layer color0;
            do _ <- __setitem__ owner key layer;
            ret (Some layer)
          else ret None
      end
  end.

(** [__delitem__] for a key that is a layer id (integer keys are not
    modelled here): [del self._owner._layers[key]]. *)
Definition __delitem__ (owner : loc) (key : pystr) : M unit :=
  do g <- get_glyph owner;
  do rest <- lift (od_del key (GSGlyph._layers g));
  put_glyph owner (GSGlyph.mk (GSGlyph.parent g) rest).

(** [GSGlyph.removeLayerForKey_]: the entry under [key] goes, if there is
    one. *)
Definition removeLayerForKey_ (self : loc) (key : pystr) : M unit :=
  do g <- get_glyph self;
  match od_del key (GSGlyph._layers g) with
  | Ok rest => put_glyph self (GSGlyph.mk (GSGlyph.parent g) rest)
  | Err _ => ret tt
  end.

Definition remove (owner layer : loc) : M unit :=
  do l <- get_layer layer;
  removeLayerForKey_ owner (GSLayer.layerId l).

Definition set_layerId (l : GSLayer.t) (key : pystr) : GSLayer.t :=
  GSLayer.mk (GSLayer.parent l) key (GSLayer.associatedMasterId l)
    (GSLayer._name l) (GSLayer._anchors l) (GSLayer.__dict__ l).

(** [append].  [uuid4] stands for what the library call [uuid.uuid4()]
    gives, which becomes the id of a layer that has none. *)
Definition append (uuid4 : pystr) (owner layer : loc) : M unit :=
  do l <- get_layer layer;
  do _ <- (if pystr_truthy (GSLayer.associatedMasterId l) then ret tt
           else
             do g <- get_glyph owner;
             match GSGlyph.parent g with
             | None => raise AttributeError
             | Some font =>
                 do f <- get_font font;
                 do first <- lift (py_index (GSFont._masters f) 0);
                 do master <- get_master first;
                 put_layer layer
                   (Glyph.set_associatedMasterId l (GSFontMaster.id master))
             end);
  do l <- get_layer layer;
  do _ <- (if pystr_truthy (GSLayer.layerId l) then ret tt
           else put_layer layer (set_layerId l uuid4));
  do l <- get_layer layer;
  do _ <- Glyph._setupLayer owner layer (GSLayer.layerId l);
  do l <- get_layer layer;
  do g <- get_glyph owner;
  put_glyph owner
    (GSGlyph.mk (GSGlyph.parent g)
       (GlyphLayerProxy.od_set (GSLayer.layerId l) layer (GSGlyph._layers g))).

Definition keys (owner : loc) : M (list pystr) :=
  do g <- get_glyph owner;
  ret (map fst (GSGlyph._layers g)).

Definition values (owner : loc) : M (list loc) :=
  do g <- get_glyph owner;
  ret (map snd (GSGlyph._layers g)).

Definition __len__ (owner : loc) : M nat :=
  do g <- get_glyph owner;
  ret (length (GSGlyph._layers g)).

End LayersProxy.

(** ** GlyphLayerProxy on a glyph that is in no font: integer keys *)

(** On a glyph whose [parent] is [None] the test
    [isinstance(key, int) and self._owner.parent] of [__setitem__] and
    [__delitem__] fails for every key, so an integer is taken as a key of the
    dict like any other, and [_setupLayer] makes it the [layerId] of the
    layer; [__getitem__] still takes an integer as a position.  Keys and ids
    are therefore integers as well as strings here, and the store is that of
    one such glyph: its dict of layers, and the two attributes of the layers
    that [_setupLayer] writes. *)
Module FontlessLayers.

Inductive key :=
| KInt (i : Z)
| KId (id : pystr).

#[export] Instance key_eq_dec : EqDecision key.
Proof. solve_decision. Defined.

Record layer := mkLayer { parent : option loc; layerId : key }.

Record Store := mkStore {
  _layers : list (key * loc);
  objects : gmap loc layer }.

(** [d[k] = v], [del d[k]] and [d.get(k)] on the [OrderedDict]. *)
Fixpoint dict_set (k : key) (v : loc) (d : list (key * loc))
  : list (key * loc) :=
  match d with
  | [] => [(k, v)]
  | (k', v') :: d' =>
      if decide (k' = k) then (k', v) :: d' else (k', v') :: dict_set k v d'
  end.

Fixpoint dict_del (k : key) (d : list (key * loc))
  : result (list (key * loc)) :=
  match d with
  | [] => Err KeyError
  | (k', v) :: d' =>
      if decide (k' = k) then Ok d'
      else match dict_del k d' with
           | Ok r => Ok ((k', v) :: r)
           | Err e => Err e
           end
  end.

Fixpoint dict_get (k : key) (d : list (key * loc)) : option loc :=
  match d with
  | [] => None
  | (k', v) :: d' => if decide (k' = k) then Some v else dict_get k d'
  end.

(** [GSGlyph._setupLayer] on a glyph [self] that is in no font: the test
    [self.parent and ...] stops at [self.parent]. *)
Definition _setupLayer (self layer : loc) (k : key) (st : Store)
  : result Store :=
  match objects st !! layer with
  | Some _ =>
      Ok (mkStore (_layers st)
            (<[layer := mkLayer (Some self) k]> (objects st)))
  | None => Err DanglingReference
  end.

Definition __setitem__ (owner : loc) (k : key) (layer : loc) (st : Store)
  : result Store :=
  match _setupLayer owner layer k st with
  | Ok st' => Ok (mkStore (dict_set k layer (_layers st')) (objects st'))
  | Err e => Err e
  end.

Definition __delitem__ (k : key) (st : Store) : result Store :=
  match dict_del k (_layers st) with
  | Ok rest => Ok (mkStore rest (objects st))
  | Err e => Err e
  end.

(** An integer is a position; for any other key that the dict does not hold,
    the loop over [self._owner.parent.masters] fails on [None]. *)
Definition __getitem__ (k : key) (st : Store) : result loc :=
  match k with
  | KInt i =>
      let vs := map snd (_layers st) in
      py_index vs (if i <? 0 then Z.of_nat (length vs) + i else i)
  | KId _ =>
      match dict_get k (_layers st) with
      | Some layer => Ok layer
      | None => Err AttributeError
      end
  end.

End FontlessLayers.

(** ** GSFont: the note, and taking a glyph in *)

Module FontMore.

Section Methods.
Context `{Imports}.

(** The [note] property: the value of the custom parameter "note" when it is
    truthy, the empty string otherwise. *)
Definition note (self : loc) : M pyval :=
  do value <- CustomParametersProxy.lookup (CustomParametersProxy.OfFont self)
                (VStr "note");
  if truthy value then ret value else ret (VStr "").

Definition set_note (self : loc) (value : pyval) : M unit :=
  CustomParametersProxy.__setitem__ (CustomParametersProxy.OfFont self)
    (VStr "note") value.

End Methods.

(** [layer.associatedMasterId is None or len(layer.associatedMasterId) == 0]
    (a layer always has the attribute). *)
Definition lacks_master_id (l : GSLayer.t) : bool :=
  match GSLayer.associatedMasterId l with
  | None => true
  | Some s => (String.length s =? 0)%nat
  end.

(** The loop of [_setupGlyph] over [glyph.layers.values()]. *)
Fixpoint setup_layers (glyph : loc) (ls : list loc) : M unit :=
  match ls with
  | [] => ret tt
  | layer :: ls' =>
      do l <- get_layer layer;
      do _ <- (if lacks_master_id l
               then Glyph._setupLayer glyph layer (GSLayer.layerId l)
               else ret tt);
      setup_layers glyph ls'
  end.

Definition _setupGlyph (self glyph : loc) : M unit :=
  do g <- get_glyph glyph;
  do _ <- put_glyph glyph (GSGlyph.mk (Some self) (GSGlyph._layers g));
  setup_layers glyph (map snd (GSGlyph._layers g)).

End FontMore.

(** ** GSComponent: construction *)

Module Component.

(** What [GSBase.__init__] leaves on a new component: for each key of the
    table of classes, the default registered for it, or else the value its
    class makes without arguments. *)
Definition base_attributes : gmap string attr :=
  list_to_map
    [ ("alignment", AVal (VInt 0)); ("anchor", AVal (VStr ""));
      ("locked", AVal (VBool false)); ("name", AVal (VStr ""));
      ("piece", AVal (VDict []));
      ("transform",
       AVal (VTuple [VInt 1; VInt 0; VInt 0; VInt 1; VInt 0; VInt 0])) ]%string.

Definition chars (s : string) : list pyval :=
  map (fun c => VStr (String c EmptyString)) (list_ascii_of_string s).

(** [a, b = v]: [v] must be iterable and give two items. *)
Definition unpack2 (v : pyval) : result (pyval * pyval) :=
  let two (l : list pyval) :=
    match l with
    | [a; b] => Ok (a, b)
    | _ => Err ValueError
    end in
  match v with
  | VTuple l | VList l => two l
  | VStr s => two (chars s)
  | VDict d => two (map (fun kv => VStr (fst kv)) d)
  | _ => Err TypeError
  end.

(** The attributes after the part of [__init__] that deals with the
    transform. *)
Definition with_transform (offset scale : pyval) (transform : attr)
  : result (gmap string attr) :=
  match transform with
  | AVal VNone =>
      if negb (py_eq scale (VTuple [VInt 1; VInt 1]))
         || negb (py_eq offset (VTuple [VInt 0; VInt 0]))
      then
        match unpack2 scale with
        | Ok (xx, yy) =>
            match unpack2 offset with
            | Ok (dx, dy) =>
                Ok (<["transform"%string :=
                        AVal (VTuple [xx; VInt 0; VInt 0; yy; dx; dy])]>
                      base_attributes)
            | Err e => Err e
            end
        | Err e => Err e
        end
      else Ok base_attributes
  | _ => Ok (<["transform"%string := transform]> base_attributes)
  end.

(** [GSComponent(glyph, offset, scale, transform)], with [glyph] a built-in
    value: a string becomes the name, anything else leaves the name as it is
    (a glyph object, whose name would be taken, is not modelled).  The new
    object enters the store when [__init__] has returned. *)
Definition __init__ (glyph offset scale : pyval) (transform : attr) : M loc :=
  do d <- lift (with_transform offset scale transform);
  let d := match glyph with
           | VStr s => <["name"%string := AVal (VStr s)]> d
           | _ => d
           end in
  fun w =>
    let r := fresh (dom (others w)) in
    Return r (mkWorld (fonts w) (masters w) (glyphs w) (layers w) (anchors w)
                (parameters w) (<[r := d]> (others w))).

End Component.

(** ** UserDataProxy *)

(** The classes that have user data ([GSFont], [GSFontMaster], [GSGlyph],
    [GSLayer], [GSNode]) each declare [_userData = {}] in the class body and
    no [__init__] assigns it: an instance finds the dict of its class until
    the setter gives it an attribute of its own.  The store below is that of
    one such class: the dict objects, the one the class holds, and the
    [_userData] of the instances that have their own (a dict, or [None]).
    Keys are strings. *)
Module UserData.

Record Store := mkStore {
  dicts : gmap loc (gmap string pyval);
  of_class : loc;
  of_instance : gmap loc (option loc) }.

(** [self._owner._userData]: the attribute of the instance if it has one,
    that of the class otherwise. *)
Definition _userData (st : Store) (owner : loc) : option loc :=
  match of_instance st !! owner with
  | Some own => own
  | None => Some (of_class st)
  end.

Definition get_dict (st : Store) (d : loc) : result (gmap string pyval) :=
  match dicts st !! d with
  | Some x => Ok x
  | None => Err DanglingReference
  end.

Definition __getitem__ (st : Store) (owner : loc) (key : string)
  : result pyval :=
  match _userData st owner with
  | Some d =>
      match get_dict st d with
      | Ok x => Ok (default VNone (x !! key))
      | Err e => Err e
      end
  | None => Err AttributeError
  end.

Definition __setitem__ (st : Store) (owner : loc) (key : string)
  (value : pyval) : result Store :=
  match _userData st owner with
  | Some d =>
      match get_dict st d with
      | Ok x =>
          Ok (mkStore (<[d := <[key := value]> x]> (dicts st)) (of_class st)
                (of_instance st))
      | Err e => Err e
      end
  | None =>
      let d := fresh (dom (dicts st)) in
      Ok (mkStore (<[d := {[ key := value ]}]> (dicts st)) (of_class st)
            (<[owner := Some d]> (of_instance st)))
  end.

(** [key in None] raises [TypeError]. *)
Definition __delitem__ (st : Store) (owner : loc) (key : string)
  : result Store :=
  match _userData st owner with
  | Some d =>
      match get_dict st d with
      | Ok x =>
          match x !! key with
          | Some _ =>
              Ok (mkStore (<[d := delete key x]> (dicts st)) (of_class st)
                    (of_instance st))
          | None => Ok st
          end
      | Err e => Err e
      end
  | None => Err TypeError
  end.

Definition get := __getitem__.

(** The setter, with a dict or [None]. *)
Definition setter (st : Store) (owner : loc) (values : option loc) : Store :=
  mkStore (dicts st) (of_class st) (<[owner := values]> (of_instance st)).

End UserData.

(** ** GSFeature: the code *)

Module Feature.

(** A feature, by the attributes that its methods read and write (the ones
    that [GSBase.__init__] adds besides are left out). *)
Record t := mk { name : pyval; _code : string }.

(** [s[n:]] *)
Fixpoint string_drop (n : nat) (s : string) : string :=
  match n, s with
  | O, _ => s
  | S n', String _ s' => string_drop n' s'
  | S _, EmptyString => EmptyString
  end.

(** [s.replace(old, new)] for a non-empty [old]: the occurrences of [old] are
    taken from left to right and do not overlap.  [skip] counts the
    characters of an occurrence that are still to be passed over. *)
Fixpoint replace_from (skip : nat) (old new s : string) : string :=
  match s with
  | EmptyString => EmptyString
  | String c s' =>
      match skip with
      | S n => replace_from n old new s'
      | O =>
          if String.prefix old s
          then new +:+ replace_from (String.length old - 1) old new s'
          else String c (replace_from 0 old new s')
      end
  end.

Definition replace (old new s : string) : string := replace_from 0 old new s.

Definition tab : string := String (ascii_of_nat 9) EmptyString.

(** The pairs of [setCode]: an escape as the file format writes it, and the
    character it stands for. *)
Definition replacements : list (string * string) :=
  [ ("\012", nl); ("\011", tab); ("\U2018", "'"); ("\U2019", "'");
    ("\U201C", quote); ("\U201D", quote) ]%string.

Definition getCode (self : t) : string := _code self.

(** [for escaped, unescaped in rs: code = code.replace(escaped, unescaped)] *)
Definition run (rs : list (string * string)) (code : string) : string :=
  fold_left (fun code r => replace (fst r) (snd r) code) rs code.

Definition setCode (self : t) (code : string) : t :=
  mk (name self) (run replacements code).

End Feature.

(** ** Sample stores *)

Definition empty_world : World := mkWorld ∅ ∅ ∅ ∅ ∅ ∅ ∅.

(** A font as [GSFont()] leaves it: no masters, minor version 0. *)
Definition new_font : GSFont.t := GSFont.mk [] 0 [] ∅.

Definition font_world : World := with_fonts {[ 0%nat := new_font ]} empty_world.

(** The imported functions, filled in with stand-ins, for running the methods
    on the sample stores: the results stated below do not depend on them. *)
Definition sample_imports : Imports := {|
  needsQuotes := fun _ => false;
  floatToString := fun _ => Err TypeError;
  readIntlist := fun v => Ok v;
  writeIntlist := fun _ => Ok [];
  feature_syntax_encode := fun s => s;
  parse := fun v => Ok v;
  writeDict := fun _ => Ok ""%string;
  py_float := fun _ => Err TypeError;
  py_repr := fun _ => ""%string;
  baseType_eq := fun _ _ => false |}.

(** A font with one custom parameter, [unitsPerEm = 1000]. *)
Definition upm_parameter : GSCustomParameter.t :=
  GSCustomParameter.mk (VStr "unitsPerEm") (VInt 1000).

Definition upm_world : World :=
  with_parameters {[ 0%nat := upm_parameter ]}
    (with_fonts {[ 0%nat := GSFont.mk [] 0 [0%nat] ∅ ]} empty_world).

(** A master as [GSFontMaster()] leaves it, then given an id, a weight, a
    width and an italic angle. *)
Definition a_master (id weight width : string) (italicAngle : float)
  : GSFontMaster.t :=
  GSFontMaster.mk (Some id) VNone [] (Some weight) (Some width)
    (Some ""%string) None None italicAngle ∅.

Definition master_world (m : GSFontMaster.t) : World :=
  with_masters {[ 0%nat := m ]} empty_world.

Definition bold_italic_master : GSFontMaster.t :=
  a_master "M1" "Bold" "Regular" 12%float.

Definition bold_condensed_master : GSFontMaster.t :=
  a_master "M1" "Bold" "Condensed" 0%float.

Definition bold_master : GSFontMaster.t :=
  a_master "M1" "Bold" "Regular" 0%float.

(** A detached layer as [GSLayer()] leaves it, with the given anchors. *)
Definition a_layer (anchors : list loc) : GSLayer.t :=
  GSLayer.mk None (Some ""%string) (Some ""%string) (VStr "Regular") anchors ∅.

Definition an_anchor (name : string) (x y : Z) : GSAnchor.t :=
  GSAnchor.mk (Some name) (VTuple [VInt x; VInt y]) None.

(** A layer that holds the anchor "top"; a second anchor "top" and an anchor
    "bottom" are not on the layer yet. *)
Definition top_world : World :=
  with_anchors {[ 0%nat := an_anchor "top" 0 700;
                  1%nat := an_anchor "top" 10 710;
                  2%nat := an_anchor "bottom" 0 0 ]}
    (with_layers {[ 0%nat := a_layer [0%nat] ]} empty_world).

(** A layer that holds an anchor without a name, as
    [layer.anchors.extend([GSAnchor()])] builds it; a second anchor without
    a name is not on the layer yet. *)
Definition unnamed_world : World :=
  with_anchors {[ 0%nat := an_anchor "" 0 0; 1%nat := an_anchor "" 5 5 ]}
    (with_layers {[ 0%nat := a_layer [0%nat] ]} empty_world).

(** A font with one master and one glyph that has one master layer: the
    layer's [layerId] and [associatedMasterId] are both the master's [id]. *)
Definition master_layer_world (id : string) (m : GSFontMaster.t) : World :=
  with_layers
    {[ 0%nat := GSLayer.mk (Some (Some 0%nat)) (Some id) (Some id)
                  (VStr "Regular") [] ∅ ]}
    (with_glyphs {[ 0%nat := GSGlyph.mk (Some 0%nat) [(Some id, 0%nat)] ]}
       (with_masters {[ 0%nat := m ]}
          (with_fonts {[ 0%nat := GSFont.mk [0%nat] 0 [] ∅ ]} empty_world))).

(** The same with the id that [GSFontMaster()] gives a master, the empty
    string, and a bold master. *)
Definition empty_id_world : World :=
  master_layer_world "" (a_master "" "Bold" "Regular" 0%float).

(** A glyph that is in no font yet, with a layer whose [layerId] and
    [associatedMasterId] are both "M1". *)
Definition orphan_glyph_world : World :=
  with_layers
    {[ 0%nat := GSLayer.mk (Some (Some 0%nat)) (Some "M1"%string)
                  (Some "M1"%string) (VStr "Regular") [] ∅ ]}
    (with_glyphs {[ 0%nat := GSGlyph.mk None [(Some "M1"%string, 0%nat)] ]}
       empty_world).

(** A font with the master "M1", a glyph of that font with no layers, and
    three layers that are on no glyph yet: one with the id of the master, one
    with an id of its own, and one more with the id of the master. *)
Definition a_loose_layer (id : string) : GSLayer.t :=
  GSLayer.mk None (Some id) (Some ""%string) (VStr "Regular") [] ∅.

Definition loose_layers_world : World :=
  with_layers {[ 0%nat := a_loose_layer "M1";
                 1%nat := a_loose_layer "brace";
                 2%nat := a_loose_layer "M1" ]}
    (with_glyphs {[ 0%nat := GSGlyph.mk (Some 0%nat) [] ]}
       (with_masters {[ 0%nat := bold_master ]}
          (with_fonts {[ 0%nat := GSFont.mk [0%nat] 0 [] ∅ ]} empty_world))).

(** A font with three custom parameters: two named "note", one after the
    other, and [unitsPerEm]. *)
Definition two_notes_world : World :=
  with_parameters
    {[ 0%nat := GSCustomParameter.mk (VStr "note") (VStr "first");
       1%nat := GSCustomParameter.mk (VStr "note") (VStr "second");
       2%nat := upm_parameter ]}
    (with_fonts {[ 0%nat := GSFont.mk [] 0 [0%nat; 1%nat; 2%nat] ∅ ]}
       empty_world).

(** A store with one custom parameter of the given name and no value yet. *)
Definition one_parameter_world (name : string) : World :=
  with_parameters {[ 0%nat := GSCustomParameter.mk (VStr name) VNone ]}
    empty_world.

(** A slanted master that carries a "Master Name" parameter. *)
Definition named_master_world : World :=
  with_parameters
    {[ 0%nat := GSCustomParameter.mk (VStr "Master Name") (VStr "Display") ]}
    (with_masters
       {[ 0%nat := GSFontMaster.mk (Some "M1"%string) VNone [0%nat]
                     (Some "Bold"%string) (Some "Regular"%string)
                     (Some ""%string) None None 12%float ∅ ]}
       empty_world).

(** A font with the masters "M1" and "M2" and a glyph of that font that holds
    the master layer of "M1" and a layer "brace"; two more layers, one with
    the id "brace" as well and one with the id "other", are on no glyph. *)
Definition two_layers_glyph : GSGlyph.t :=
  GSGlyph.mk (Some 0%nat) [(Some "M1"%string, 0%nat); (Some "brace"%string, 1%nat)].

Definition two_layers_world : World :=
  with_layers
    {[ 0%nat := GSLayer.mk (Some (Some 0%nat)) (Some "M1"%string)
                  (Some "M1"%string) (VStr "Regular") [] ∅;
       1%nat := GSLayer.mk (Some (Some 0%nat)) (Some "brace"%string)
                  (Some "M1"%string) (VStr "{120}") [] ∅;
       2%nat := a_loose_layer "brace";
       3%nat := a_loose_layer "other" ]}
    (with_glyphs {[ 0%nat := two_layers_glyph ]}
       (with_masters {[ 0%nat := bold_master;
                        1%nat := a_master "M2" "Light" "Regular" 0%float ]}
          (with_fonts {[ 0%nat := GSFont.mk [0%nat; 1%nat] 0 [] ∅ ]}
             empty_world))).

(** A font with the master "M1" and a glyph that is in no font yet, with
    three layers that have no parent: one with the id of the master and one
    with the id "brace", both without a master id, and one with the id "old"
    that has the master id "M1". *)
Definition loose_glyph : GSGlyph.t :=
  GSGlyph.mk None [(Some "M1"%string, 0%nat); (Some "brace"%string, 1%nat);
                   (Some "old"%string, 2%nat)].

Definition old_layer : GSLayer.t :=
  GSLayer.mk None (Some "old"%string) (Some "M1"%string) (VStr "Regular") [] ∅.

Definition loose_glyph_world : World :=
  with_layers {[ 0%nat := a_loose_layer "M1";
                 1%nat := a_loose_layer "brace";
                 2%nat := old_layer ]}
    (with_glyphs {[ 0%nat := loose_glyph ]}
       (with_masters {[ 0%nat := bold_master ]}
          (with_fonts {[ 0%nat := GSFont.mk [0%nat] 0 [] ∅ ]} empty_world))).

(** A font without masters, a glyph of that font, and a layer "brace" that is
    on no glyph. *)
Definition no_master_world : World :=
  with_layers {[ 0%nat := a_loose_layer "brace" ]}
    (with_glyphs {[ 0%nat := GSGlyph.mk (Some 0%nat) [] ]}
       (with_fonts {[ 0%nat := new_font ]} empty_world)).

(** The user data of a class right after the class is made: the empty dict
    of the class, and no instance with a [_userData] of its own. *)
Definition new_class_data : UserData.Store :=
  UserData.mkStore {[ 0%nat := ∅ ]} 0%nat ∅.

(** A layer that was never put on a glyph, with the [layerId] and the
    [associatedMasterId] "M1". *)
Definition detached_master_layer : GSLayer.t :=
  GSLayer.mk None (Some "M1"%string) (Some "M1"%string) (VStr "Regular") [] ∅.

Definition detached_layer_world : World :=
  with_layers {[ 0%nat := detached_master_layer ]} empty_world.

(** A store that holds one component as [GSComponent()] leaves it. *)
Definition component_world : World :=
  mkWorld ∅ ∅ ∅ ∅ ∅ ∅ {[ 0%nat := Component.base_attributes ]}.


(** ** Words for the statements *)

(** The [layerId]s of the layers at [ls], in order. *)
Definition layer_ids (w : World) (ls : list loc) : list pystr :=
  map (fun r => match layers w !! r with
                | Some l => GSLayer.layerId l
                | None => None
                end) ls.

(** [key] is the id of a master of the font of glyph [g]. *)
Definition names_master (w : World) (g : GSGlyph.t) (key : pystr) : bool :=
  match GSGlyph.parent g with
  | Some font =>
      match Font.masterForId font key w with
      | Return (Some _) _ => true
      | _ => false
      end
  | None => false
  end.

(** A layer once glyph [owner] has set it up under [key]. *)
Definition set_up (owner : loc) (key : pystr) (is_master : bool)
  (l : GSLayer.t) : GSLayer.t :=
  GSLayer.mk (Some (Some owner)) key
    (if is_master then key else GSLayer.associatedMasterId l)
    (GSLayer._name l) (GSLayer._anchors l) (GSLayer.__dict__ l).

(** The masters of the font of [g], if it has one, are all in the store. *)
Definition font_in_store (w : World) (g : GSGlyph.t) : Prop :=
  forall font, GSGlyph.parent g = Some font ->
    exists f, fonts w !! font = Some f
              /\ forall m, m ∈ GSFont._masters f -> is_Some (masters w !! m).

(** The names of the anchors at [l], in order. *)
Definition anchor_names (w : World) (l : list loc) : list pystr :=
  map (fun r => match anchors w !! r with
                | Some a => GSAnchor.name a
                | None => None
                end) l.

(** The anchors at [l] are all in the store. *)
Definition anchors_in_store (w : World) (l : list loc) : Prop :=
  forall r, r ∈ l -> is_Some (anchors w !! r).

(** [c] is one of the characters of [p]. *)
Fixpoint has_char (c : ascii) (p : string) : bool :=
  match p with
  | EmptyString => false
  | String a p' => Ascii.eqb a c || has_char c p'
  end.

(** Every pair of [rs] puts one character in, and none of them is in [p]. *)
Definition keep_out (p : string) (rs : list (string * string)) : bool :=
  forallb (fun r => match snd r with
                    | String c EmptyString => negb (has_char c p)
                    | _ => false
                    end) rs.




(** * Properties *)

(** ** Running the monad *)

Lemma bind_Return {A B : Type} (c : M A) (k : A -> M B) w a w' :
  c w = Return a w' -> bind c k w = k a w'.
Proof. unfold bind. intros ->. reflexivity. Qed.

Lemma bind_Raised_in {A B : Type} (c : M A) (k : A -> M B) w e w' :
  c w = Raised e w' -> bind c k w = Raised e w'.
Proof. unfold bind. intros ->. reflexivity. Qed.

Lemma deref_Some {A : Type} (heap : World -> gmap loc A) r x w :
  heap w !! r = Some x -> deref heap r w = Return x w.
Proof. unfold deref. intros ->. reflexivity. Qed.

(** ** The minor version of a font *)

Section VersionMinor.
Import Font.

Lemma getVersionMinor_spec w self f :
  fonts w !! self = Some f ->
  getVersionMinor self w = Return (GSFont._versionMinor f) w.
Proof.
  intros Hf. unfold getVersionMinor, get_font.
  rewrite (bind_Return _ _ _ _ _ (deref_Some fonts _ _ _ Hf)). reflexivity.
Qed.

(** C8. Assigning the minor version of a font: a value from 0 to 999 is
    stored and read back; any other value raises (an [AssertionError]) and
    leaves the store, and so the value read, as it was.  In particular 1000 is
    rejected, and 0 followed by 999 succeed, each being read back. *)
Theorem setVersionMinor_range (w : World) (self : loc) (f : GSFont.t)
  (value : Z) :
  fonts w !! self = Some f ->
  (0 <= value <= 999 ->
     exists w', setVersionMinor self value w = Return tt w'
                /\ getVersionMinor self w' = Return value w')
  /\ (value < 0 \/ 999 < value ->
        setVersionMinor self value w = Raised AssertionError w
        /\ getVersionMinor self w = Return (GSFont._versionMinor f) w)
  /\ (exists w0 w999,
        setVersionMinor self 1000 w = Raised AssertionError w
        /\ setVersionMinor self 0 w = Return tt w0
        /\ getVersionMinor self w0 = Return 0 w0
        /\ setVersionMinor self 999 w0 = Return tt w999
        /\ getVersionMinor self w999 = Return 999 w999).
Proof.
  intros Hf.
  assert (Hset : forall w1 f1 v, fonts w1 !! self = Some f1 ->
            0 <= v <= 999 ->
            exists w', setVersionMinor self v w1 = Return tt w'
                       /\ getVersionMinor self w' = Return v w'
                       /\ exists f', fonts w' !! self = Some f').
  { intros w1 f1 v H1 Hv. unfold setVersionMinor, get_font.
    rewrite (bind_Return _ _ _ _ _ (deref_Some fonts _ _ _ H1)).
    replace ((v >=? 0) && (v <=? 999)) with true
      by (symmetry; apply andb_true_iff; split; lia).
    eexists. split; [reflexivity|].
    split.
    - erewrite getVersionMinor_spec by (simpl; apply lookup_insert_eq).
      reflexivity.
    - eexists. simpl. apply lookup_insert_eq. }
  assert (Hrej : forall v, v < 0 \/ 999 < v ->
            setVersionMinor self v w = Raised AssertionError w).
  { intros v Hv. unfold setVersionMinor, get_font.
    rewrite (bind_Return _ _ _ _ _ (deref_Some fonts _ _ _ Hf)).
    replace ((v >=? 0) && (v <=? 999)) with false; [reflexivity|].
    symmetry. apply andb_false_iff. destruct Hv; [left|right]; lia. }
  split; [|split].
  - intros Hv. destruct (Hset w f value Hf Hv) as (w' & H1 & H2 & _). eauto.
  - intros Hv. split; [auto|]. apply getVersionMinor_spec, Hf.
  - destruct (Hset w f 0 Hf ltac:(lia)) as (w0 & H1 & H2 & f0 & H3).
    destruct (Hset w0 f0 999 H3 ltac:(lia)) as (w999 & H4 & H5 & _).
    exists w0, w999. repeat split; auto. apply Hrej. lia.
Qed.

Lemma setVersionMinor_range_witness :
  fonts font_world !! 0%nat = Some new_font
  /\ setVersionMinor 0%nat 1000 font_world = Raised AssertionError font_world
  /\ exists w', setVersionMinor 0%nat 999 font_world = Return tt w'
                /\ getVersionMinor 0%nat w' = Return 999 w'.
Proof.
  assert (H : fonts font_world !! 0%nat = Some new_font) by reflexivity.
  split; [exact H|].
  destruct (setVersionMinor_range font_world 0%nat new_font 1000 H)
    as (_ & Hrej & _).
  destruct (setVersionMinor_range font_world 0%nat new_font 999 H)
    as (Hacc & _ & _).
  split.
  - apply Hrej. right. lia.
  - apply Hacc. lia.
Defined.

End VersionMinor.

(** ** Custom parameters *)

Lemma py_eq_str (v : pyval) (s : string) : py_eq v (VStr s) = true <-> v = VStr s.
Proof.
  destruct v; simpl; rewrite ?String.eqb_eq; split;
    try discriminate; congruence.
Qed.

Lemma py_eq_str_false (v : pyval) (s : string) :
  py_eq v (VStr s) = false <-> v <> VStr s.
Proof.
  rewrite <- py_eq_str. destruct (py_eq v (VStr s)); split; congruence.
Qed.

Lemma py_index_nat {A : Type} (l : list A) (i : nat) (x : A) :
  l !! i = Some x -> py_index l (Z.of_nat i) = Ok x.
Proof.
  intros Hi. pose proof (lookup_lt_Some _ _ _ Hi) as Hlt. unfold py_index.
  replace (Z.of_nat i <? 0) with false by (symmetry; apply Z.ltb_ge; lia).
  replace ((0 <=? Z.of_nat i) && (Z.of_nat i <? Z.of_nat (length l)))
    with true by (symmetry; apply andb_true_iff; split; lia).
  rewrite Nat2Z.id, Hi. reflexivity.
Qed.

Section CustomParameters.
Import CustomParametersProxy.

Lemma scan_found (w : World) (ps : list loc) (key : pyval) :
  forall (i : nat) (r : loc) (p : GSCustomParameter.t),
  ps !! i = Some r ->
  parameters w !! r = Some p ->
  py_eq (GSCustomParameter.name p) key = true ->
  (forall j r', (j < i)%nat -> ps !! j = Some r' ->
     exists p', parameters w !! r' = Some p'
                /\ py_eq (GSCustomParameter.name p') key = false) ->
  scan ps key w = Return (GSCustomParameter._value p) w.
Proof.
  induction ps as [|r0 ps IH]; intros i r p Hi Hp Hn Hbefore; [discriminate|].
  simpl. unfold get_parameter. destruct i as [|i]; simpl in Hi.
  - injection Hi as ->.
    rewrite (bind_Return _ _ _ _ _ (deref_Some parameters _ _ _ Hp)).
    rewrite Hn. reflexivity.
  - destruct (Hbefore 0%nat r0 ltac:(lia) eq_refl) as (p0 & Hp0 & Hn0).
    rewrite (bind_Return _ _ _ _ _ (deref_Some parameters _ _ _ Hp0)).
    rewrite Hn0. apply (IH i r p Hi Hp Hn).
    intros j r' Hj Hr'. apply (Hbefore (S j) r'); [lia|exact Hr'].
Qed.

Lemma scan_absent (w : World) (ps : list loc) (key : pyval) :
  (forall r, r ∈ ps ->
     exists p', parameters w !! r = Some p'
                /\ py_eq (GSCustomParameter.name p') key = false) ->
  scan ps key w = Return VNone w.
Proof.
  induction ps as [|r0 ps IH]; intros Hall; [reflexivity|].
  simpl. unfold get_parameter.
  destruct (Hall r0 ltac:(left)) as (p0 & Hp0 & Hn0).
  rewrite (bind_Return _ _ _ _ _ (deref_Some parameters _ _ _ Hp0)).
  rewrite Hn0. apply IH. intros r Hr. apply Hall. right. exact Hr.
Qed.

Lemma scan_keeps_world (ps : list loc) (key : pyval) (w w1 : World)
  (a : pyval) :
  scan ps key w = Return a w1 -> w1 = w.
Proof.
  induction ps as [|r ps IH]; simpl.
  - unfold ret. congruence.
  - unfold get_parameter, deref, bind.
    destruct (parameters w !! r); [|discriminate].
    destruct (py_eq _ _); [unfold ret; congruence|exact IH].
Qed.

Lemma values_keeps_world (o : owner) (w w1 : World) (ps : list loc) :
  values o w = Return ps w1 -> w1 = w.
Proof.
  destruct o as [r|r]; simpl; unfold get_font, get_master, deref, bind, ret.
  - destruct (fonts w !! r); [congruence|discriminate].
  - destruct (masters w !! r); [congruence|discriminate].
Qed.

(** Looking a name up reads the store and leaves it as it is. *)
Lemma lookup_keeps_world (o : owner) (key : pyval) (w w1 : World) (a : pyval) :
  lookup o key w = Return a w1 -> w1 = w.
Proof.
  unfold lookup, bind.
  destruct (values o w) as [ps w0|e w0] eqn:Hvalues; [|discriminate].
  apply values_keeps_world in Hvalues as ->. apply scan_keeps_world.
Qed.

(** On a key that is no integer, [__getitem__] is the scan by name. *)
Lemma getitem_by_name (o : owner) (s : string) (w : World) :
  __getitem__ o (VStr s) w
  = bind (lookup o (VStr s)) (fun v => ret (ItemValue v)) w.
Proof.
  unfold __getitem__, lookup, bind. simpl.
  destruct (values o w); reflexivity.
Qed.

Lemma getitem_name_found (w : World) (o : owner) (ps : list loc)
  (nm : string) (i : nat) (r : loc) (p : GSCustomParameter.t) :
  values o w = Return ps w ->
  (forall r, r ∈ ps -> is_Some (parameters w !! r)) ->
  ps !! i = Some r ->
  parameters w !! r = Some p ->
  GSCustomParameter.name p = VStr nm ->
  (forall j r' p', (j < i)%nat -> ps !! j = Some r' ->
     parameters w !! r' = Some p' -> GSCustomParameter.name p' <> VStr nm) ->
  __getitem__ o (VStr nm) w = Return (ItemValue (GSCustomParameter._value p)) w.
Proof.
  intros Hvalues Hvalid Hi Hp Hn Hfirst. unfold __getitem__.
  rewrite (bind_Return _ _ _ _ _ Hvalues). simpl.
  erewrite bind_Return; [reflexivity|].
  apply (scan_found w ps (VStr nm) i r p Hi Hp).
  - apply py_eq_str, Hn.
  - intros j r' Hj Hr'.
    destruct (Hvalid r') as [p' Hp']; [eapply list_elem_of_lookup_2, Hr'|].
    exists p'. split; [exact Hp'|]. apply py_eq_str_false. eauto.
Qed.

Lemma getitem_name_absent (w : World) (o : owner) (ps : list loc)
  (nm : string) :
  values o w = Return ps w ->
  (forall r, r ∈ ps -> is_Some (parameters w !! r)) ->
  (forall r p, r ∈ ps -> parameters w !! r = Some p ->
     GSCustomParameter.name p <> VStr nm) ->
  __getitem__ o (VStr nm) w = Return (ItemValue VNone) w.
Proof.
  intros Hvalues Hvalid Hnone. unfold __getitem__.
  rewrite (bind_Return _ _ _ _ _ Hvalues). simpl.
  erewrite bind_Return; [reflexivity|].
  apply scan_absent. intros r Hr. destruct (Hvalid r Hr) as [p' Hp'].
  exists p'. split; [exact Hp'|]. apply py_eq_str_false. eauto.
Qed.

(** C9. Indexing a custom-parameter store by a name gives the value of the
    first parameter of that name, and [None] when no parameter has the name;
    indexing it by an integer position gives the parameter object at that
    position. *)
Theorem getitem_name_gives_value_position_gives_object
  (w : World) (o : owner) (ps : list loc) (nm : string) :
  values o w = Return ps w ->
  (forall r, r ∈ ps -> is_Some (parameters w !! r)) ->
  (forall i r p,
      ps !! i = Some r ->
      parameters w !! r = Some p ->
      GSCustomParameter.name p = VStr nm ->
      (forall j r' p', (j < i)%nat -> ps !! j = Some r' ->
         parameters w !! r' = Some p' -> GSCustomParameter.name p' <> VStr nm) ->
      __getitem__ o (VStr nm) w
      = Return (ItemValue (GSCustomParameter._value p)) w)
  /\ ((forall r p, r ∈ ps -> parameters w !! r = Some p ->
         GSCustomParameter.name p <> VStr nm) ->
      __getitem__ o (VStr nm) w = Return (ItemValue VNone) w)
  /\ (forall i r,
        ps !! i = Some r ->
        __getitem__ o (VInt (Z.of_nat i)) w = Return (ItemObject r) w).
Proof.
  intros Hvalues Hvalid. split; [|split].
  - intros i r p Hi Hp Hn Hfirst. unfold __getitem__.
    rewrite (bind_Return _ _ _ _ _ Hvalues). simpl.
    erewrite bind_Return; [reflexivity|].
    apply (scan_found w ps (VStr nm) i r p Hi Hp).
    + apply py_eq_str, Hn.
    + intros j r' Hj Hr'.
      destruct (Hvalid r') as [p' Hp']; [eapply list_elem_of_lookup_2, Hr'|].
      exists p'. split; [exact Hp'|]. apply py_eq_str_false. eauto.
  - intros Hnone. unfold __getitem__.
    rewrite (bind_Return _ _ _ _ _ Hvalues). simpl.
    erewrite bind_Return; [reflexivity|].
    apply scan_absent. intros r Hr. destruct (Hvalid r Hr) as [p' Hp'].
    exists p'. split; [exact Hp'|]. apply py_eq_str_false. eauto.
  - intros i r Hi. unfold __getitem__.
    rewrite (bind_Return _ _ _ _ _ Hvalues). simpl.
    rewrite (py_index_nat _ _ _ Hi). reflexivity.
Qed.

Lemma getitem_name_gives_value_position_gives_object_witness :
  values (OfFont 0%nat) upm_world = Return [0%nat] upm_world
  /\ __getitem__ (OfFont 0%nat) (VStr "unitsPerEm") upm_world
     = Return (ItemValue (VInt 1000)) upm_world
  /\ __getitem__ (OfFont 0%nat) (VStr "xHeight") upm_world
     = Return (ItemValue VNone) upm_world
  /\ __getitem__ (OfFont 0%nat) (VInt 0) upm_world
     = Return (ItemObject 0%nat) upm_world.
Proof.
  assert (Hv : values (OfFont 0%nat) upm_world = Return [0%nat] upm_world)
    by reflexivity.
  assert (Hvalid : forall r, r ∈ [0%nat] -> is_Some (parameters upm_world !! r)).
  { intros r Hr. apply list_elem_of_singleton in Hr as ->. eexists. reflexivity. }
  split; [exact Hv|].
  destruct (getitem_name_gives_value_position_gives_object
              upm_world (OfFont 0%nat) [0%nat] "unitsPerEm" Hv Hvalid)
    as (Hname & _ & Hpos).
  destruct (getitem_name_gives_value_position_gives_object
              upm_world (OfFont 0%nat) [0%nat] "xHeight" Hv Hvalid)
    as (_ & Habsent & _).
  split; [|split].
  - apply (Hname 0%nat 0%nat upm_parameter); try reflexivity.
    intros j r' p' Hj. lia.
  - apply Habsent. intros r p Hr. apply list_elem_of_singleton in Hr as ->.
    intros Hp. vm_compute in Hp. injection Hp as <-. discriminate.
  - apply (Hpos 0%nat 0%nat). reflexivity.
Defined.

End CustomParameters.

Section SetByName.
Import CustomParametersProxy.
Context `{Imports}.

(** C3. Set-by-name on a store that already holds a parameter of that name
    (with a value other than [None]): [__getitem__] hands the value back, not
    the parameter, so the assignment [Value.value = value] raises
    [AttributeError] and the store stays as it was; the value is not
    updated. *)
Theorem setitem_existing_name_raises
  (w : World) (o : owner) (ps : list loc) (nm : string) (value : pyval)
  (i : nat) (r : loc) (p : GSCustomParameter.t) :
  values o w = Return ps w ->
  (forall r, r ∈ ps -> is_Some (parameters w !! r)) ->
  ps !! i = Some r ->
  parameters w !! r = Some p ->
  GSCustomParameter.name p = VStr nm ->
  GSCustomParameter._value p <> VNone ->
  (forall j r' p', (j < i)%nat -> ps !! j = Some r' ->
     parameters w !! r' = Some p' -> GSCustomParameter.name p' <> VStr nm) ->
  __setitem__ o (VStr nm) value w = Raised AttributeError w
  /\ __getitem__ o (VStr nm) w
     = Return (ItemValue (GSCustomParameter._value p)) w.
Proof.
  intros Hvalues Hvalid Hi Hp Hn Hv Hfirst.
  pose proof (getitem_name_found w o ps nm i r p Hvalues Hvalid Hi Hp Hn
                Hfirst) as Hget.
  split; [|exact Hget].
  unfold __setitem__. rewrite (bind_Return _ _ _ _ _ Hget).
  destruct (GSCustomParameter._value p); try reflexivity. congruence.
Qed.

(** Set-by-position reaches the parameter object, and runs [setValue] on it. *)
Lemma setitem_by_position (w : World) (o : owner) (ps : list loc)
  (value : pyval) (i : nat) (r : loc) :
  values o w = Return ps w ->
  ps !! i = Some r ->
  __setitem__ o (VInt (Z.of_nat i)) value w = CustomParameter.setValue r value w.
Proof.
  intros Hvalues Hi. unfold __setitem__.
  assert (Hget : __getitem__ o (VInt (Z.of_nat i)) w = Return (ItemObject r) w).
  { unfold __getitem__. rewrite (bind_Return _ _ _ _ _ Hvalues). simpl.
    rewrite (py_index_nat _ _ _ Hi). reflexivity. }
  rewrite (bind_Return _ _ _ _ _ Hget). reflexivity.
Qed.

End SetByName.

Lemma setitem_existing_name_raises_witness :
  CustomParametersProxy.values (CustomParametersProxy.OfFont 0%nat) upm_world
  = Return [0%nat] upm_world
  /\ @CustomParametersProxy.__setitem__ sample_imports
       (CustomParametersProxy.OfFont 0%nat) (VStr "unitsPerEm") (VInt 2000)
       upm_world
     = Raised AttributeError upm_world
  /\ CustomParametersProxy.__getitem__
       (CustomParametersProxy.OfFont 0%nat) (VStr "unitsPerEm") upm_world
     = Return (CustomParametersProxy.ItemValue (VInt 1000)) upm_world.
Proof.
  assert (Hv : CustomParametersProxy.values
                 (CustomParametersProxy.OfFont 0%nat) upm_world
               = Return [0%nat] upm_world) by reflexivity.
  split; [exact Hv|].
  apply (@setitem_existing_name_raises sample_imports upm_world
           (CustomParametersProxy.OfFont 0%nat) [0%nat] "unitsPerEm"
           (VInt 2000) 0%nat 0%nat upm_parameter Hv).
  - intros r Hr. apply list_elem_of_singleton in Hr as ->.
    eexists. reflexivity.
  - reflexivity.
  - reflexivity.
  - reflexivity.
  - discriminate.
  - intros j r' p' Hj. lia.
Defined.

Section SetNewName.
Import CustomParametersProxy.
Context `{Imports}.

Lemma values_set_values (o : owner) (ps qs : list loc) (w : World) :
  values o w = Return ps w ->
  exists w', set_values o qs w = Return tt w'
             /\ values o w' = Return qs w'
             /\ parameters w' = parameters w.
Proof.
  destruct o as [r|r]; simpl; unfold get_font, get_master, deref, bind, ret.
  - destruct (fonts w !! r) as [f|] eqn:Hf; [|discriminate]. intros _.
    eexists. split; [reflexivity|]. simpl.
    rewrite lookup_insert_eq. split; reflexivity.
  - destruct (masters w !! r) as [m|] eqn:Hm; [|discriminate]. intros _.
    eexists. split; [reflexivity|]. simpl.
    rewrite lookup_insert_eq. split; reflexivity.
Qed.

Lemma values_with_parameters (o : owner) (ps : list loc) (w : World) heap :
  values o w = Return ps w ->
  values o (with_parameters heap w) = Return ps (with_parameters heap w).
Proof.
  destruct o as [r|r]; simpl; unfold get_font, get_master, deref, bind, ret;
    simpl.
  - destruct (fonts w !! r); [|discriminate]. congruence.
  - destruct (masters w !! r); [|discriminate]. congruence.
Qed.

(** Set-by-name on a store with no parameter of that name appends one new
    parameter that holds the cast value, which lookup-by-name then returns. *)
Lemma setitem_new_name_appends
  (w : World) (o : owner) (ps : list loc) (nm : string) (value v : pyval) :
  values o w = Return ps w ->
  (forall r, r ∈ ps -> is_Some (parameters w !! r)) ->
  (forall r p, r ∈ ps -> parameters w !! r = Some p ->
     GSCustomParameter.name p <> VStr nm) ->
  CustomParameter.cast (VStr nm) value = Ok v ->
  exists w' r',
    __setitem__ o (VStr nm) value w = Return tt w'
    /\ values o w' = Return (ps ++ [r']) w'
    /\ parameters w' !! r' = Some (GSCustomParameter.mk (VStr nm) v)
    /\ lookup o (VStr nm) w' = Return v w'.
Proof.
  intros Hvalues Hvalid Hnone Hcast.
  pose proof (getitem_name_absent w o ps nm Hvalues Hvalid Hnone) as Hget.
  set (r' := fresh (dom (parameters w))).
  set (heap := <[r' := GSCustomParameter.mk (VStr nm) v]> (parameters w)).
  assert (Hfresh : parameters w !! r' = None).
  { apply not_elem_of_dom. apply is_fresh. }
  pose proof (values_with_parameters o ps w heap Hvalues) as Hvalues1.
  destruct (values_set_values o ps (ps ++ [r']) _ Hvalues1)
    as (w' & Hset & Hvalues' & Hheap).
  exists w', r'. split; [|split; [exact Hvalues'|split]].
  - unfold __setitem__. rewrite (bind_Return _ _ _ _ _ Hget).
    unfold CustomParameter.__init__. rewrite Hcast. simpl.
    unfold bind at 1. unfold bind at 1. unfold ret at 1.
    fold r'. fold heap. rewrite (bind_Return _ _ _ _ _ Hvalues1).
    exact Hset.
  - rewrite Hheap. simpl. apply lookup_insert_eq.
  - unfold lookup. rewrite (bind_Return _ _ _ _ _ Hvalues').
    apply (scan_found w' (ps ++ [r']) (VStr nm) (length ps) r'
             (GSCustomParameter.mk (VStr nm) v)).
    + rewrite lookup_app_r by lia. rewrite Nat.sub_diag. reflexivity.
    + rewrite Hheap. simpl. apply lookup_insert_eq.
    + simpl. apply String.eqb_refl.
    + intros j r0 Hj Hr0. rewrite lookup_app_l in Hr0 by exact Hj.
      apply list_elem_of_lookup_2 in Hr0.
      destruct (Hvalid r0 Hr0) as [p0 Hp0]. exists p0. split.
      * rewrite Hheap. simpl. unfold heap. rewrite lookup_insert_ne; [exact Hp0|].
        intros <-. congruence.
      * apply py_eq_str_false. eauto.
Qed.

End SetNewName.

(** ** Integer-coded custom parameters *)

Lemma rstrip_string_of_uint (d : Decimal.uint) :
  rstrip (NilEmpty.string_of_uint d) = NilEmpty.string_of_uint d.
Proof.
  induction d; simpl; [reflexivity|..]; rewrite IHd;
    destruct (NilEmpty.string_of_uint d); reflexivity.
Qed.

Lemma lstrip_string_of_uint (d : Decimal.uint) :
  lstrip (NilEmpty.string_of_uint d) = NilEmpty.string_of_uint d.
Proof. destruct d; reflexivity. Qed.

Lemma digits_to_Z_string_of_uint (d : Decimal.uint) :
  d <> Decimal.Nil ->
  digits_to_Z (NilEmpty.string_of_uint d) = Ok (Z.of_uint d).
Proof.
  intros Hd. unfold digits_to_Z. rewrite (NilEmpty.usu d).
  destruct d; [congruence|..]; reflexivity.
Qed.

Lemma int_of_str_string_of_uint (d : Decimal.uint) :
  d <> Decimal.Nil ->
  int_of_str (NilEmpty.string_of_uint d) = Ok (Z.of_uint d).
Proof.
  intros Hd. unfold int_of_str, strip.
  rewrite lstrip_string_of_uint, rstrip_string_of_uint.
  pose proof (digits_to_Z_string_of_uint d Hd) as Hdig.
  destruct d; [congruence|..]; simpl NilEmpty.string_of_uint in *;
    cbn [Ascii.eqb Bool.eqb]; exact Hdig.
Qed.

Lemma pos_to_uint_nonnil (p : positive) : Pos.to_uint p <> Decimal.Nil.
Proof.
  intros Hnil. pose proof (DecimalPos.Unsigned.of_to p) as Hp.
  rewrite Hnil in Hp. discriminate.
Qed.

Lemma Z_of_pos_to_uint (p : positive) : Z.of_uint (Pos.to_uint p) = Z.pos p.
Proof.
  unfold Z.of_uint. rewrite DecimalPos.Unsigned.of_to. reflexivity.
Qed.

(** The decimal text of an integer reads back as that integer. *)
Lemma int_of_str_of_int (z : Z) : int_of_str (str_of_int z) = Ok z.
Proof.
  unfold str_of_int. destruct z as [|p|p]; simpl.
  - reflexivity.
  - rewrite (int_of_str_string_of_uint _ (pos_to_uint_nonnil p)).
    rewrite Z_of_pos_to_uint. reflexivity.
  - unfold int_of_str, strip.
    change (lstrip (String "-" ?s)) with (String "-" s).
    assert (Hr : rstrip (String "-" (NilEmpty.string_of_uint (Pos.to_uint p)))
                 = String "-" (NilEmpty.string_of_uint (Pos.to_uint p))).
    { simpl. rewrite rstrip_string_of_uint.
      destruct (NilEmpty.string_of_uint (Pos.to_uint p)); reflexivity. }
    rewrite Hr. cbn [Ascii.eqb Bool.eqb].
    rewrite (digits_to_Z_string_of_uint _ (pos_to_uint_nonnil p)).
    rewrite Z_of_pos_to_uint. reflexivity.
Qed.

Section IntegerParameters.
Import CustomParameter.
Context `{Imports}.

Lemma mem_In (name : string) (names : list string) :
  In name names -> mem (VStr name) names = true.
Proof.
  intros Hin. unfold mem. apply existsb_exists. exists name.
  split; [exact Hin|]. simpl. apply String.eqb_refl.
Qed.

(** Assigning a string that [int] reads as [z] to a parameter with an
    integer-coded name stores [z]; the parameter then renders [z] in decimal. *)
Lemma setValue_integer_name (w : World) (r : loc) (p : GSCustomParameter.t)
  (name s : string) (z : Z) :
  In name _CUSTOM_INT_PARAMS ->
  parameters w !! r = Some p ->
  GSCustomParameter.name p = VStr name ->
  int_of_str s = Ok z ->
  let w' := with_parameters
              (<[r := GSCustomParameter.mk (VStr name) (VInt z)]> (parameters w))
              w in
  setValue r (VStr s) w = Return tt w'
  /\ getValue r w' = Return (VInt z) w'
  /\ plistValue r w'
     = Return (plist_form (plist_name (VStr name)) (str_of_int z)) w'.
Proof.
  intros Hin Hp Hname Hs w'.
  assert (Hp' : parameters w' !! r
                = Some (GSCustomParameter.mk (VStr name) (VInt z)))
    by (simpl; apply lookup_insert_eq).
  split; [|split].
  - unfold setValue, get_parameter.
    rewrite (bind_Return _ _ _ _ _ (deref_Some parameters _ _ _ Hp)).
    rewrite Hname. unfold cast. rewrite (mem_In _ _ Hin). simpl. rewrite Hs.
    reflexivity.
  - unfold getValue, get_parameter.
    rewrite (bind_Return _ _ _ _ _ (deref_Some parameters _ _ _ Hp')).
    reflexivity.
  - unfold plistValue, get_parameter.
    rewrite (bind_Return _ _ _ _ _ (deref_Some parameters _ _ _ Hp')).
    cbn [GSCustomParameter.name GSCustomParameter._value].
    unfold plist_value. rewrite (mem_In _ _ Hin). reflexivity.
Qed.

(** C2 (amended). For a parameter whose name is in the integer-coded set,
    assigning a string that holds a decimal integer stores the parsed integer,
    which reads return, and rendering gives the form with the name and, not
    quoted, the decimal text of that integer; this is the assigned text
    whenever that text is the plain decimal writing of the integer, since the
    decimal writing of every integer parses back to it. *)
Theorem integer_parameter_stores_and_renders
  (w : World) (r : loc) (p : GSCustomParameter.t) (name s : string) (z : Z) :
  In name _CUSTOM_INT_PARAMS ->
  parameters w !! r = Some p ->
  GSCustomParameter.name p = VStr name ->
  int_of_str s = Ok z ->
  (exists w',
      setValue r (VStr s) w = Return tt w'
      /\ getValue r w' = Return (VInt z) w'
      /\ plistValue r w'
         = Return (plist_form (plist_name (VStr name)) (str_of_int z)) w')
  /\ (forall n : Z, int_of_str (str_of_int n) = Ok n).
Proof.
  intros Hin Hp Hname Hs. split.
  - eexists. apply (setValue_integer_name w r p name s z Hin Hp Hname Hs).
  - apply int_of_str_of_int.
Qed.

End IntegerParameters.

Lemma unitsPerEm_integer_coded :
  In "unitsPerEm"%string CustomParameter._CUSTOM_INT_PARAMS.
Proof.
  unfold CustomParameter._CUSTOM_INT_PARAMS.
  repeat (first [left; reflexivity | right]).
Qed.

Lemma integer_parameter_stores_and_renders_witness :
  In "unitsPerEm"%string CustomParameter._CUSTOM_INT_PARAMS
  /\ int_of_str "1000" = Ok 1000
  /\ exists w',
       @CustomParameter.setValue sample_imports 0%nat (VStr "1000") upm_world
       = Return tt w'
       /\ CustomParameter.getValue 0%nat w' = Return (VInt 1000) w'
       /\ @CustomParameter.plistValue sample_imports 0%nat w'
          = Return (CustomParameter.plist_form "unitsPerEm" "1000") w'.
Proof.
  split; [exact unitsPerEm_integer_coded|].
  split; [reflexivity|].
  apply (@integer_parameter_stores_and_renders sample_imports upm_world 0%nat
           upm_parameter "unitsPerEm" "1000" 1000
           unitsPerEm_integer_coded eq_refl eq_refl eq_refl).
Defined.

(** C2 as stated fails where the assigned text is not the plain decimal
    writing of its integer: ["007"] holds the integer 7, which is stored, and
    the parameter renders [7], whatever the imported functions do. *)
Lemma integer_parameter_leading_zeros :
  In "unitsPerEm"%string CustomParameter._CUSTOM_INT_PARAMS
  /\ int_of_str "007" = Ok 7
  /\ ~ (exists (I : Imports) (w' : World),
          CustomParameter.setValue 0%nat (VStr "007") upm_world = Return tt w'
          /\ CustomParameter.plistValue 0%nat w'
             = Return (CustomParameter.plist_form
                         (CustomParameter.plist_name (VStr "unitsPerEm"))
                         "007") w').
Proof.
  split; [exact unitsPerEm_integer_coded|].
  split; [reflexivity|].
  intros (I & w' & Hset & Hrender).
  destruct (@setValue_integer_name I upm_world 0%nat upm_parameter
              "unitsPerEm" "007" 7 unitsPerEm_integer_coded
              eq_refl eq_refl eq_refl) as (Hset' & _ & Hrender').
  rewrite Hset' in Hset. injection Hset as <-.
  pose proof (eq_trans (eq_sym Hrender') Hrender) as Heq.
  injection Heq as Heq. unfold CustomParameter.plist_name in Heq.
  destruct (needsQuotes (VStr "unitsPerEm")); vm_compute in Heq; discriminate.
Qed.

(** ** The name of a master *)

Section MasterName.
Import FontMaster.

Lemma computed_name_italic (m : GSFontMaster.t) :
  is_italic (GSFontMaster.italicAngle m) = true ->
  computed_name m = Err AttributeError \/ computed_name m = Err ValueError.
Proof.
  intros Hit. unfold computed_name. rewrite Hit.
  destruct (1 <? _)%nat.
  - destruct (list_remove _ _) as [names|e] eqn:Hrm; [left; reflexivity|].
    right. revert e Hrm. generalize (add_custom (GSFontMaster._custom2 m)
      (add_custom (GSFontMaster._custom1 m)
         (add_custom (GSFontMaster._custom m)
            [GSFontMaster._weight m; GSFontMaster._width m]))).
    intros l. induction l as [|y l IH]; simpl; intros e He.
    + congruence.
    + destruct (pystr_eq y (Some "Regular"%string)); [discriminate|].
      destruct (list_remove _ l); [discriminate|].
      injection He as <-. f_equal. specialize (IH e0 eq_refl). congruence.
  - left. reflexivity.
Qed.

(** C1. The first read of the name of a master that has no explicit name and
    no "Master Name" parameter, when the absolute italic angle exceeds 0.01:
    the code reaches [names.add("Italic")] on a list, or fails before it in
    [names.remove("Regular")], so the read raises and no name is cached; no
    "Italic" component is ever appended. *)
Theorem name_of_italic_master_raises
  (w : World) (self : loc) (m : GSFontMaster.t) :
  masters w !! self = Some m ->
  GSFontMaster._name m = VNone ->
  CustomParametersProxy.lookup (CustomParametersProxy.OfMaster self)
    (VStr "Master Name") w = Return VNone w ->
  is_italic (GSFontMaster.italicAngle m) = true ->
  name self w = Raised AttributeError w \/ name self w = Raised ValueError w.
Proof.
  intros Hm Hname Hpar Hit. unfold name, get_master.
  rewrite (bind_Return _ _ _ _ _ (deref_Some masters _ _ _ Hm)).
  rewrite Hname. rewrite (bind_Return _ _ _ _ _ Hpar).
  destruct (computed_name_italic m Hit) as [-> | ->]; [left|right]; reflexivity.
Qed.

Lemma name_of_italic_master_raises_witness :
  masters (master_world bold_italic_master) !! 0%nat = Some bold_italic_master
  /\ is_italic (GSFontMaster.italicAngle bold_italic_master) = true
  /\ name 0%nat (master_world bold_italic_master)
     = Raised AttributeError (master_world bold_italic_master).
Proof.
  split; [reflexivity|]. split; [reflexivity|].
  destruct (name_of_italic_master_raises (master_world bold_italic_master)
              0%nat bold_italic_master eq_refl eq_refl eq_refl eq_refl)
    as [Hr|Hr]; [exact Hr|].
  vm_compute in Hr. discriminate Hr.
Defined.

(** Neither weight nor width is "Regular": [names.remove] finds nothing. *)
Example name_of_bold_condensed_master :
  name 0%nat (master_world bold_condensed_master)
  = Raised ValueError (master_world bold_condensed_master).
Proof. reflexivity. Qed.

(** An upright master with one "Regular" among weight and width. *)
Example name_of_bold_master :
  name 0%nat (master_world bold_master)
  = Return (VStr "Bold") (master_world (set_name bold_master (VStr "Bold"))).
Proof. reflexivity. Qed.

(** A name that is set, by assignment or by a first read, is what every later
    read returns, whatever the weight and the width are by then. *)
Lemma name_cached (w : World) (self : loc) (m : GSFontMaster.t) :
  masters w !! self = Some m ->
  GSFontMaster._name m <> VNone ->
  name self w = Return (GSFontMaster._name m) w.
Proof.
  intros Hm Hname. unfold name, get_master.
  rewrite (bind_Return _ _ _ _ _ (deref_Some masters _ _ _ Hm)).
  destruct (GSFontMaster._name m); try reflexivity. congruence.
Qed.

Lemma name_first_read_caches (w w' : World) (self : loc) (m : GSFontMaster.t)
  (v : pyval) :
  masters w !! self = Some m ->
  GSFontMaster._name m = VNone ->
  name self w = Return v w' ->
  masters w' !! self = Some (set_name m v).
Proof.
  intros Hm Hname. unfold name, get_master.
  rewrite (bind_Return _ _ _ _ _ (deref_Some masters _ _ _ Hm)).
  rewrite Hname. unfold bind at 1.
  destruct (CustomParametersProxy.lookup _ _ w) as [a w1|e w1] eqn:Hl;
    [|discriminate].
  apply lookup_keeps_world in Hl as ->. unfold bind at 1.
  destruct a; try (unfold ret, put_master, bind; simpl;
    intros [= <- <-]; simpl; apply lookup_insert_eq).
  destruct (computed_name m); simpl; [|discriminate].
  unfold ret, put_master, bind; simpl.
  intros [= <- <-]; simpl; apply lookup_insert_eq.
Qed.

End MasterName.

(** ** Anchors of a layer *)

Section Anchors.
Import LayerAnchorsProxy.

Lemma pystr_eq_true (a b : pystr) : pystr_eq a b = true <-> a = b.
Proof. unfold pystr_eq. apply bool_decide_eq_true. Qed.

Lemma pystr_eq_false (a b : pystr) : pystr_eq a b = false <-> a <> b.
Proof. unfold pystr_eq. apply bool_decide_eq_false. Qed.

Lemma find_name_found (w : World) (name : pystr) (l : list loc) :
  forall (k i : nat) (r : loc) (a : GSAnchor.t),
  l !! i = Some r ->
  anchors w !! r = Some a ->
  GSAnchor.name a = name ->
  (forall j r', (j < i)%nat -> l !! j = Some r' ->
     exists a', anchors w !! r' = Some a' /\ GSAnchor.name a' <> name) ->
  find_name l k name w = Return (Some (k + i)%nat) w.
Proof.
  induction l as [|r0 l IH]; intros k i r a Hi Ha Hn Hbefore; [discriminate|].
  simpl. unfold get_anchor. destruct i as [|i]; simpl in Hi.
  - injection Hi as ->.
    rewrite (bind_Return _ _ _ _ _ (deref_Some anchors _ _ _ Ha)).
    rewrite (proj2 (pystr_eq_true _ _) Hn). rewrite Nat.add_0_r. reflexivity.
  - destruct (Hbefore 0%nat r0 ltac:(lia) eq_refl) as (a0 & Ha0 & Hn0).
    rewrite (bind_Return _ _ _ _ _ (deref_Some anchors _ _ _ Ha0)).
    rewrite (proj2 (pystr_eq_false _ _) Hn0).
    rewrite (IH (S k) i r a Hi Ha Hn); [f_equal; f_equal; lia|].
    intros j r' Hj Hr'. apply (Hbefore (S j) r'); [lia|exact Hr'].
Qed.

Lemma find_name_absent (w : World) (name : pystr) (l : list loc) :
  forall k : nat,
  (forall r, r ∈ l ->
     exists a', anchors w !! r = Some a' /\ GSAnchor.name a' <> name) ->
  find_name l k name w = Return None w.
Proof.
  induction l as [|r0 l IH]; intros k Hall; [reflexivity|].
  simpl. unfold get_anchor.
  destruct (Hall r0 ltac:(left)) as (a0 & Ha0 & Hn0).
  rewrite (bind_Return _ _ _ _ _ (deref_Some anchors _ _ _ Ha0)).
  rewrite (proj2 (pystr_eq_false _ _) Hn0).
  apply IH. intros r Hr. apply Hall. right. exact Hr.
Qed.

Lemma append_replaces (w : World) (owner anchor : loc) (l : GSLayer.t)
  (new : GSAnchor.t) (i : nat) (r : loc) (old : GSAnchor.t) :
  layers w !! owner = Some l ->
  anchors w !! anchor = Some new ->
  (forall r, r ∈ GSLayer._anchors l -> is_Some (anchors w !! r)) ->
  GSLayer._anchors l !! i = Some r ->
  anchors w !! r = Some old ->
  GSAnchor.name old = GSAnchor.name new ->
  (forall j r' a', (j < i)%nat -> GSLayer._anchors l !! j = Some r' ->
     anchors w !! r' = Some a' -> GSAnchor.name a' <> GSAnchor.name new) ->
  append owner anchor w
  = Return tt
      (with_layers
         (<[owner := set_anchors l (<[i := anchor]> (GSLayer._anchors l))]>
            (layers w))
         (with_anchors (<[anchor := set_parent new (Some owner)]> (anchors w))
            w)).
Proof.
  intros Hl Hnew Hvalid Hi Hold Hn Hfirst. unfold append, get_layer, get_anchor.
  rewrite (bind_Return _ _ _ _ _ (deref_Some layers _ _ _ Hl)).
  rewrite (bind_Return _ _ _ _ _ (deref_Some anchors _ _ _ Hnew)).
  assert (Hfind : find_name (GSLayer._anchors l) 0%nat (GSAnchor.name new) w
                  = Return (Some i) w).
  { apply (find_name_found w _ _ 0%nat i r old Hi Hold Hn).
    intros j r' Hj Hr'.
    destruct (Hvalid r') as [a' Ha']; [eapply list_elem_of_lookup_2, Hr'|].
    exists a'. split; [exact Ha'|]. eauto. }
  rewrite (bind_Return _ _ _ _ _ Hfind). reflexivity.
Qed.

Lemma append_no_match (w : World) (owner anchor : loc) (l : GSLayer.t)
  (new : GSAnchor.t) :
  layers w !! owner = Some l ->
  anchors w !! anchor = Some new ->
  (forall r, r ∈ GSLayer._anchors l -> is_Some (anchors w !! r)) ->
  (forall r a', r ∈ GSLayer._anchors l -> anchors w !! r = Some a' ->
     GSAnchor.name a' <> GSAnchor.name new) ->
  append owner anchor w
  = if pystr_truthy (GSAnchor.name new)
    then Return tt
           (with_layers
              (<[owner := set_anchors l (GSLayer._anchors l ++ [anchor])]>
                 (layers w)) w)
    else Raised ValueError w.
Proof.
  intros Hl Hnew Hvalid Hnone. unfold append, get_layer, get_anchor.
  rewrite (bind_Return _ _ _ _ _ (deref_Some layers _ _ _ Hl)).
  rewrite (bind_Return _ _ _ _ _ (deref_Some anchors _ _ _ Hnew)).
  assert (Hfind : find_name (GSLayer._anchors l) 0%nat (GSAnchor.name new) w
                  = Return None w).
  { apply find_name_absent. intros r Hr.
    destruct (Hvalid r Hr) as [a' Ha']. exists a'. eauto. }
  rewrite (bind_Return _ _ _ _ _ Hfind).
  destruct (pystr_truthy _); reflexivity.
Qed.

(** What [append] does in each case.  When an anchor of the same name is on
    the layer, the first such anchor is replaced in place (the number of
    anchors is unchanged, and the position holds the appended anchor with its
    own name and position), whatever that name is; when no anchor has that
    name and the name is not empty, the anchor is added at the end; when no
    anchor has that name and the name is empty or [None], a [ValueError] is
    raised and the store is unchanged. *)
Lemma append_anchor_by_name
  (w : World) (owner anchor : loc) (l : GSLayer.t) (new : GSAnchor.t) :
  layers w !! owner = Some l ->
  anchors w !! anchor = Some new ->
  (forall r, r ∈ GSLayer._anchors l -> is_Some (anchors w !! r)) ->
  (forall i r old,
      GSLayer._anchors l !! i = Some r ->
      anchors w !! r = Some old ->
      GSAnchor.name old = GSAnchor.name new ->
      (forall j r' a', (j < i)%nat -> GSLayer._anchors l !! j = Some r' ->
         anchors w !! r' = Some a' -> GSAnchor.name a' <> GSAnchor.name new) ->
      exists w' l' a',
        append owner anchor w = Return tt w'
        /\ layers w' !! owner = Some l'
        /\ GSLayer._anchors l' = <[i := anchor]> (GSLayer._anchors l)
        /\ length (GSLayer._anchors l') = length (GSLayer._anchors l)
        /\ GSLayer._anchors l' !! i = Some anchor
        /\ anchors w' !! anchor = Some a'
        /\ GSAnchor.name a' = GSAnchor.name new
        /\ GSAnchor.position a' = GSAnchor.position new)
  /\ ((forall r a', r ∈ GSLayer._anchors l -> anchors w !! r = Some a' ->
         GSAnchor.name a' <> GSAnchor.name new) ->
      (pystr_truthy (GSAnchor.name new) = true ->
         exists w' l',
           append owner anchor w = Return tt w'
           /\ layers w' !! owner = Some l'
           /\ GSLayer._anchors l' = GSLayer._anchors l ++ [anchor])
      /\ (pystr_truthy (GSAnchor.name new) = false ->
           append owner anchor w = Raised ValueError w)).
Proof.
  intros Hl Hnew Hvalid. split.
  - intros i r old Hi Hold Hn Hfirst.
    rewrite (append_replaces w owner anchor l new i r old
               Hl Hnew Hvalid Hi Hold Hn Hfirst).
    eexists _, _, _. split; [reflexivity|]. simpl.
    split; [apply lookup_insert_eq|]. simpl.
    split; [reflexivity|]. split; [apply length_insert|].
    split; [apply list_lookup_insert_eq; eapply lookup_lt_Some, Hi|].
    split; [apply lookup_insert_eq|]. split; reflexivity.
  - intros Hnone.
    rewrite (append_no_match w owner anchor l new Hl Hnew Hvalid Hnone).
    split; intros ->; [|reflexivity].
    eexists _, _. split; [reflexivity|]. simpl.
    split; [apply lookup_insert_eq|reflexivity].
Qed.

Lemma append_anchor_by_name_witness :
  layers top_world !! 0%nat = Some (a_layer [0%nat])
  /\ anchors top_world !! 1%nat = Some (an_anchor "top" 10 710)
  /\ exists w' l' a',
       append 0%nat 1%nat top_world = Return tt w'
       /\ layers w' !! 0%nat = Some l'
       /\ GSLayer._anchors l' = [1%nat]
       /\ anchors w' !! 1%nat = Some a'
       /\ GSAnchor.position a' = VTuple [VInt 10; VInt 710].
Proof.
  split; [reflexivity|]. split; [reflexivity|].
  assert (Hvalid : forall r, r ∈ GSLayer._anchors (a_layer [0%nat]) ->
                     is_Some (anchors top_world !! r)).
  { intros r Hr. apply list_elem_of_singleton in Hr as ->.
    eexists. reflexivity. }
  destruct (append_anchor_by_name top_world 0%nat 1%nat (a_layer [0%nat])
              (an_anchor "top" 10 710) eq_refl eq_refl Hvalid)
    as (Hreplace & _).
  destruct (Hreplace 0%nat 0%nat (an_anchor "top" 0 700)
              eq_refl eq_refl eq_refl)
    as (w' & l' & a' & H1 & H2 & H3 & _ & _ & H6 & _ & H8).
  { intros j r' a' Hj. lia. }
  exists w', l', a'. repeat split; assumption.
Defined.

(** A run of it: on a layer that holds an anchor without a name, as
    [extend], [insert] and the setter let one in, appending another anchor
    without a name raises nothing and puts the new anchor in the place of the
    old one. *)
Lemma append_unnamed_anchor_replaces :
  pystr_truthy (GSAnchor.name (an_anchor "" 5 5)) = false
  /\ anchors unnamed_world !! 1%nat = Some (an_anchor "" 5 5)
  /\ ~ (exists e w', append 0%nat 1%nat unnamed_world = Raised e w')
  /\ exists w',
       append 0%nat 1%nat unnamed_world = Return tt w'
       /\ layers w' !! 0%nat = Some (a_layer [1%nat])
       /\ layers unnamed_world !! 0%nat = Some (a_layer [0%nat]).
Proof.
  split; [reflexivity|]. split; [reflexivity|]. split.
  - intros (e & w' & Hraise). vm_compute in Hraise. discriminate Hraise.
  - eexists. split; [reflexivity|]. split; reflexivity.
Qed.

(** C4.  The code against the claim: an anchor without a name is not always
    rejected.  [append] looks for an anchor of the same name before it tests
    the name, so on a layer that holds an anchor whose name is the same empty
    name (or [None]) the append of an anchor without a name raises no
    [ValueError]: it returns, and the new anchor stands where the first such
    anchor stood. *)
Theorem append_unnamed_anchor_is_not_rejected
  (w : World) (owner anchor : loc) (l : GSLayer.t) (new : GSAnchor.t)
  (i : nat) (r : loc) (old : GSAnchor.t) :
  layers w !! owner = Some l ->
  anchors w !! anchor = Some new ->
  (forall r, r ∈ GSLayer._anchors l -> is_Some (anchors w !! r)) ->
  pystr_truthy (GSAnchor.name new) = false ->
  GSLayer._anchors l !! i = Some r ->
  anchors w !! r = Some old ->
  GSAnchor.name old = GSAnchor.name new ->
  (forall j r' a', (j < i)%nat -> GSLayer._anchors l !! j = Some r' ->
     anchors w !! r' = Some a' -> GSAnchor.name a' <> GSAnchor.name new) ->
  (forall e w', append owner anchor w <> Raised e w')
  /\ exists w' l',
       append owner anchor w = Return tt w'
       /\ layers w' !! owner = Some l'
       /\ GSLayer._anchors l' = <[i := anchor]> (GSLayer._anchors l)
       /\ GSLayer._anchors l' !! i = Some anchor.
Proof.
  intros Hl Hnew Hvalid Hunnamed Hi Hold Hn Hfirst.
  pose proof (append_replaces w owner anchor l new i r old
                Hl Hnew Hvalid Hi Hold Hn Hfirst) as Hrun.
  split.
  - intros e w' Hraise. rewrite Hrun in Hraise. discriminate Hraise.
  - eexists _, _. split; [exact Hrun|]. simpl.
    split; [apply lookup_insert_eq|]. simpl. split; [reflexivity|].
    apply list_lookup_insert_eq. eapply lookup_lt_Some, Hi.
Qed.

Lemma append_unnamed_anchor_is_not_rejected_witness :
  layers unnamed_world !! 0%nat = Some (a_layer [0%nat])
  /\ anchors unnamed_world !! 1%nat = Some (an_anchor "" 5 5)
  /\ pystr_truthy (GSAnchor.name (an_anchor "" 5 5)) = false
  /\ exists w' l',
       append 0%nat 1%nat unnamed_world = Return tt w'
       /\ layers w' !! 0%nat = Some l'
       /\ GSLayer._anchors l' = [1%nat].
Proof.
  split; [reflexivity|]. split; [reflexivity|]. split; [reflexivity|].
  destruct (append_unnamed_anchor_is_not_rejected unnamed_world 0%nat 1%nat
              (a_layer [0%nat]) (an_anchor "" 5 5) 0%nat 0%nat
              (an_anchor "" 0 0) eq_refl eq_refl)
    as (_ & w' & l' & Hrun & Hl' & Hlist & _);
    try reflexivity.
  - intros r Hr. apply list_elem_of_singleton in Hr as ->.
    eexists. reflexivity.
  - intros j r' a' Hj. lia.
  - exists w', l'. repeat split; assumption.
Defined.

End Anchors.

(** ** The name of a layer *)

Section LayerName.

Lemma find_master_found (w : World) (key : pystr) (ms : list loc) :
  forall (i : nat) (r : loc) (m : GSFontMaster.t),
  ms !! i = Some r ->
  masters w !! r = Some m ->
  GSFontMaster.id m = key ->
  (forall j r', (j < i)%nat -> ms !! j = Some r' ->
     exists m', masters w !! r' = Some m' /\ GSFontMaster.id m' <> key) ->
  Font.find_master ms key w = Return (Some r) w.
Proof.
  induction ms as [|r0 ms IH]; intros i r m Hi Hm Hid Hbefore; [discriminate|].
  simpl. unfold get_master. destruct i as [|i]; simpl in Hi.
  - injection Hi as ->.
    rewrite (bind_Return _ _ _ _ _ (deref_Some masters _ _ _ Hm)).
    rewrite (proj2 (pystr_eq_true _ _) Hid). reflexivity.
  - destruct (Hbefore 0%nat r0 ltac:(lia) eq_refl) as (m0 & Hm0 & Hid0).
    rewrite (bind_Return _ _ _ _ _ (deref_Some masters _ _ _ Hm0)).
    rewrite (proj2 (pystr_eq_false _ _) Hid0).
    apply (IH i r m Hi Hm Hid).
    intros j r' Hj Hr'. apply (Hbefore (S j) r'); [lia|exact Hr'].
Qed.

Lemma find_master_absent (w : World) (key : pystr) (ms : list loc) :
  (forall r, r ∈ ms ->
     exists m', masters w !! r = Some m' /\ GSFontMaster.id m' <> key) ->
  Font.find_master ms key w = Return None w.
Proof.
  induction ms as [|r0 ms IH]; intros Hall; [reflexivity|].
  simpl. unfold get_master.
  destruct (Hall r0 ltac:(left)) as (m0 & Hm0 & Hid0).
  rewrite (bind_Return _ _ _ _ _ (deref_Some masters _ _ _ Hm0)).
  rewrite (proj2 (pystr_eq_false _ _) Hid0).
  apply IH. intros r Hr. apply Hall. right. exact Hr.
Qed.

Lemma masterForId_found (w : World) (font : loc) (f : GSFont.t) (key : pystr)
  (i : nat) (r : loc) (m : GSFontMaster.t) :
  fonts w !! font = Some f ->
  GSFont._masters f !! i = Some r ->
  masters w !! r = Some m ->
  GSFontMaster.id m = key ->
  (forall j r', (j < i)%nat -> GSFont._masters f !! j = Some r' ->
     exists m', masters w !! r' = Some m' /\ GSFontMaster.id m' <> key) ->
  Font.masterForId font key w = Return (Some r) w.
Proof.
  intros Hf Hi Hm Hid Hbefore. unfold Font.masterForId, get_font.
  rewrite (bind_Return _ _ _ _ _ (deref_Some fonts _ _ _ Hf)).
  apply (find_master_found w key _ i r m Hi Hm Hid Hbefore).
Qed.

Lemma masterForId_absent (w : World) (font : loc) (f : GSFont.t) (key : pystr) :
  fonts w !! font = Some f ->
  (forall r, r ∈ GSFont._masters f ->
     exists m', masters w !! r = Some m' /\ GSFontMaster.id m' <> key) ->
  Font.masterForId font key w = Return None w.
Proof.
  intros Hf Hall. unfold Font.masterForId, get_font.
  rewrite (bind_Return _ _ _ _ _ (deref_Some fonts _ _ _ Hf)).
  apply find_master_absent, Hall.
Qed.

(** Reading the name of a master writes to the heap of masters only. *)
Lemma master_name_keeps_layers (w w' : World) (m : loc) (v : pyval) :
  FontMaster.name m w = Return v w' -> layers w' = layers w.
Proof.
  unfold FontMaster.name, get_master, deref, bind.
  destruct (masters w !! m) as [mm|]; [|discriminate].
  destruct (GSFontMaster._name mm); try (unfold ret; intros [= _ <-]; reflexivity).
  destruct (CustomParametersProxy.lookup _ _ w) as [a w1|e w1] eqn:Hl;
    [|discriminate].
  apply lookup_keeps_world in Hl as ->.
  destruct a; try (unfold ret, put_master; intros [= _ <-]; reflexivity).
  destruct (FontMaster.computed_name mm); simpl; [|discriminate].
  unfold ret, put_master. intros [= _ <-]. reflexivity.
Qed.

(** C5 (amended). A layer whose [associatedMasterId] is not empty and equals
    its [layerId], and whose glyph belongs to a font that holds a master with
    that id, reports the name that the first such master reports, and reading
    it leaves every layer as it was.  A layer whose [associatedMasterId] is
    empty or differs from its [layerId] reports the name stored on the layer,
    on a glyph or not.  Of the layers whose ids are equal and not empty: one
    whose [parent] is [None], and one whose font holds no master with that
    id, report the name stored on the layer; one that was never put on a
    glyph (it has no [parent] attribute), and one whose glyph is in no font,
    have no name to report: the read raises [AttributeError] and changes
    nothing. *)
Theorem layer_name_of_master_layer (w : World) (self : loc) (l : GSLayer.t) :
  layers w !! self = Some l ->
  (forall g glyph font f i m mm,
      pystr_truthy (GSLayer.associatedMasterId l) = true ->
      GSLayer.layerId l = GSLayer.associatedMasterId l ->
      GSLayer.parent l = Some (Some g) ->
      glyphs w !! g = Some glyph ->
      GSGlyph.parent glyph = Some font ->
      fonts w !! font = Some f ->
      GSFont._masters f !! i = Some m ->
      masters w !! m = Some mm ->
      GSFontMaster.id mm = GSLayer.associatedMasterId l ->
      (forall j r', (j < i)%nat -> GSFont._masters f !! j = Some r' ->
         exists m', masters w !! r' = Some m'
                    /\ GSFontMaster.id m' <> GSLayer.associatedMasterId l) ->
      Layer.name self w = FontMaster.name m w
      /\ (forall v w', Layer.name self w = Return v w' -> layers w' = layers w))
  /\ (pystr_truthy (GSLayer.associatedMasterId l) = false
      \/ GSLayer.layerId l <> GSLayer.associatedMasterId l ->
      Layer.name self w = Return (GSLayer._name l) w)
  /\ (pystr_truthy (GSLayer.associatedMasterId l) = true ->
      GSLayer.layerId l = GSLayer.associatedMasterId l ->
      (GSLayer.parent l = Some None ->
       Layer.name self w = Return (GSLayer._name l) w)
      /\ (GSLayer.parent l = None ->
          Layer.name self w = Raised AttributeError w)
      /\ (forall g glyph,
            GSLayer.parent l = Some (Some g) ->
            glyphs w !! g = Some glyph ->
            GSGlyph.parent glyph = None ->
            Layer.name self w = Raised AttributeError w)
      /\ (forall g glyph font f,
            GSLayer.parent l = Some (Some g) ->
            glyphs w !! g = Some glyph ->
            GSGlyph.parent glyph = Some font ->
            fonts w !! font = Some f ->
            (forall r, r ∈ GSFont._masters f ->
               exists m', masters w !! r = Some m'
                          /\ GSFontMaster.id m' <> GSLayer.associatedMasterId l) ->
            Layer.name self w = Return (GSLayer._name l) w)).
Proof.
  intros Hl. split; [|split].
  - intros g glyph font f i m mm Htruthy Hids Hparent Hg Hfont Hf Hi Hm Hid
      Hfirst.
    assert (Hname : Layer.name self w = FontMaster.name m w).
    { unfold Layer.name, get_layer, get_glyph.
      rewrite (bind_Return _ _ _ _ _ (deref_Some layers _ _ _ Hl)).
      rewrite Htruthy, Hparent.
      rewrite (proj2 (pystr_eq_true _ _) (eq_sym Hids)). simpl.
      rewrite (bind_Return _ _ _ _ _ (deref_Some glyphs _ _ _ Hg)).
      rewrite Hfont.
      rewrite (bind_Return _ _ _ _ _
                 (masterForId_found w font f _ i m mm Hf Hi Hm Hid Hfirst)).
      reflexivity. }
    split; [exact Hname|]. intros v w'. rewrite Hname.
    apply master_name_keeps_layers.
  - intros Hcase. unfold Layer.name, get_layer.
    rewrite (bind_Return _ _ _ _ _ (deref_Some layers _ _ _ Hl)).
    destruct (pystr_truthy _) eqn:Htruthy; simpl; [|reflexivity].
    destruct (pystr_eq _ _) eqn:Heq; [|reflexivity].
    apply pystr_eq_true in Heq.
    destruct Hcase as [Hc|Hc]; [discriminate|congruence].
  - intros Htruthy Hids.
    assert (Hrun : Layer.name self w
                   = match GSLayer.parent l with
                     | None => raise AttributeError
                     | Some None => ret (GSLayer._name l)
                     | Some (Some g) =>
                         bind (get_glyph g)
                           (fun glyph =>
                              match GSGlyph.parent glyph with
                              | None => raise AttributeError
                              | Some font =>
                                  bind (Font.masterForId font
                                          (GSLayer.associatedMasterId l))
                                    (fun master =>
                                       match master with
                                       | Some m => FontMaster.name m
                                       | None => ret (GSLayer._name l)
                                       end)
                              end)
                     end w).
    { unfold Layer.name, get_layer.
      rewrite (bind_Return _ _ _ _ _ (deref_Some layers _ _ _ Hl)).
      rewrite Htruthy, (proj2 (pystr_eq_true _ _) (eq_sym Hids)).
      reflexivity. }
    rewrite Hrun. split; [|split; [|split]].
    + intros ->. reflexivity.
    + intros ->. reflexivity.
    + intros g glyph -> Hg Hfont. unfold get_glyph.
      rewrite (bind_Return _ _ _ _ _ (deref_Some glyphs _ _ _ Hg)).
      rewrite Hfont. reflexivity.
    + intros g glyph font f -> Hg Hfont Hf Hnone. unfold get_glyph.
      rewrite (bind_Return _ _ _ _ _ (deref_Some glyphs _ _ _ Hg)).
      rewrite Hfont.
      rewrite (bind_Return _ _ _ _ _ (masterForId_absent w font f _ Hf Hnone)).
      reflexivity.
Qed.

Lemma layer_name_of_master_layer_witness :
  layers (master_layer_world "M1" bold_master) !! 0%nat
  = Some (GSLayer.mk (Some (Some 0%nat)) (Some "M1"%string)
            (Some "M1"%string) (VStr "Regular") [] ∅)
  /\ Layer.name 0%nat (master_layer_world "M1" bold_master)
     = FontMaster.name 0%nat (master_layer_world "M1" bold_master)
  /\ (exists w',
        FontMaster.name 0%nat (master_layer_world "M1" bold_master)
        = Return (VStr "Bold") w')
  /\ layers detached_layer_world !! 0%nat = Some detached_master_layer
  /\ Layer.name 0%nat detached_layer_world
     = Raised AttributeError detached_layer_world
  /\ layers orphan_glyph_world !! 0%nat
     = Some (GSLayer.mk (Some (Some 0%nat)) (Some "M1"%string)
               (Some "M1"%string) (VStr "Regular") [] ∅)
  /\ Layer.name 0%nat orphan_glyph_world
     = Raised AttributeError orphan_glyph_world
  /\ layers loose_layers_world !! 1%nat = Some (a_loose_layer "brace")
  /\ Layer.name 1%nat loose_layers_world
     = Return (VStr "Regular") loose_layers_world.
Proof.
  split; [reflexivity|]. split; [|split; [eexists; reflexivity|]].
  - destruct (layer_name_of_master_layer (master_layer_world "M1" bold_master)
                0%nat _ eq_refl) as (Hmaster & _ & _).
    apply (Hmaster 0%nat (GSGlyph.mk (Some 0%nat) [(Some "M1"%string, 0%nat)])
             0%nat (GSFont.mk [0%nat] 0 [] ∅) 0%nat 0%nat bold_master);
      try reflexivity.
    intros j r' Hj. lia.
  - split; [reflexivity|]. split.
    + destruct (layer_name_of_master_layer detached_layer_world 0%nat _
                  eq_refl) as (_ & _ & Hequal).
      destruct (Hequal eq_refl eq_refl) as (_ & Hdetached & _).
      apply Hdetached. reflexivity.
    + split; [reflexivity|]. split.
      * destruct (layer_name_of_master_layer orphan_glyph_world 0%nat _
                    eq_refl) as (_ & _ & Hequal).
        destruct (Hequal eq_refl eq_refl) as (_ & _ & Hnofont & _).
        apply (Hnofont 0%nat (GSGlyph.mk None [(Some "M1"%string, 0%nat)]));
          reflexivity.
      * split; [reflexivity|].
        destruct (layer_name_of_master_layer loose_layers_world 1%nat _
                    eq_refl) as (_ & Hown & _).
        apply Hown. left. reflexivity.
Defined.

(** C5 as stated fails when the shared id is the empty string, the id of a
    master as [GSFontMaster()] leaves it: the layer reports its stored name,
    not the name of the master with that id. *)
Lemma layer_name_with_empty_id :
  (exists l, layers empty_id_world !! 0%nat = Some l
             /\ GSLayer.layerId l = GSLayer.associatedMasterId l
             /\ Font.masterForId 0%nat (GSLayer.associatedMasterId l)
                  empty_id_world
                = Return (Some 0%nat) empty_id_world)
  /\ Layer.name 0%nat empty_id_world = Return (VStr "Regular") empty_id_world
  /\ (exists w',
        FontMaster.name 0%nat empty_id_world = Return (VStr "Bold") w')
  /\ Layer.name 0%nat empty_id_world <> FontMaster.name 0%nat empty_id_world.
Proof.
  split; [eexists; split; [reflexivity|split; reflexivity]|].
  split; [reflexivity|]. split; [eexists; reflexivity|].
  intros Heq. vm_compute in Heq. discriminate Heq.
Qed.

(** Where the glyph of such a layer is in no font, the read stops at
    [self.parent.parent.masterForId]: [None] has no such attribute. *)
Example layer_name_glyph_without_font :
  Layer.name 0%nat orphan_glyph_world = Raised AttributeError orphan_glyph_world.
Proof. reflexivity. Qed.

End LayerName.

(** ** Replacing the layers of a glyph *)

Section LayerSetter.
Import GlyphLayerProxy.

Lemma with_layers_same (w : World) : with_layers (layers w) w = w.
Proof. destruct w. reflexivity. Qed.

Lemma od_set_new (k : pystr) (v : loc) (d : list (pystr * loc)) :
  k ∉ map fst d -> od_set k v d = d ++ [(k, v)].
Proof.
  induction d as [|[k' v'] d IH]; simpl; intros Hk; [reflexivity|].
  apply not_elem_of_cons in Hk as [Hne Hk].
  rewrite (proj2 (pystr_eq_false k' k)) by congruence.
  rewrite (IH Hk). reflexivity.
Qed.

Lemma collect_distinct (w : World) (ls : list loc) :
  forall acc : list (pystr * loc),
  (forall r, r ∈ ls -> is_Some (layers w !! r)) ->
  NoDup (map fst acc ++ layer_ids w ls) ->
  collect ls acc w = Return (acc ++ zip (layer_ids w ls) ls) w.
Proof.
  induction ls as [|r ls IH]; intros acc Hvalid Hnodup; simpl.
  - rewrite app_nil_r. reflexivity.
  - destruct (Hvalid r ltac:(left)) as [l Hl]. unfold get_layer.
    rewrite (bind_Return _ _ _ _ _ (deref_Some layers _ _ _ Hl)).
    simpl in Hnodup. rewrite Hl in *.
    apply NoDup_app in Hnodup as (Hacc & Hdisj & Hids).
    apply NoDup_cons in Hids as [Hfresh Hids].
    rewrite od_set_new by (intros Hin; apply (Hdisj _ Hin); left).
    rewrite IH.
    + rewrite <- app_assoc. reflexivity.
    + intros r' Hr'. apply Hvalid. right. exact Hr'.
    + rewrite map_app. simpl. rewrite <- app_assoc. simpl.
      apply NoDup_app. split; [exact Hacc|]. split.
      * intros x Hx Hx'. apply (Hdisj x Hx). exact Hx'.
      * apply NoDup_cons. split; assumption.
Qed.

Lemma find_master_with_layers (h : gmap loc GSLayer.t) (w : World)
  (key : pystr) (ms : list loc) :
  Font.find_master ms key (with_layers h w)
  = match Font.find_master ms key w with
    | Return a _ => Return a (with_layers h w)
    | Raised e _ => Raised e (with_layers h w)
    end.
Proof.
  induction ms as [|r ms IH]; simpl; [reflexivity|].
  unfold get_master, deref, bind. simpl.
  destruct (masters w !! r) as [m|]; [|reflexivity].
  destruct (pystr_eq _ _); [reflexivity|exact IH].
Qed.

Lemma find_master_total (w : World) (key : pystr) (ms : list loc) :
  (forall m, m ∈ ms -> is_Some (masters w !! m)) ->
  exists res, Font.find_master ms key w = Return res w.
Proof.
  induction ms as [|r ms IH]; intros Hvalid; simpl; [eexists; reflexivity|].
  destruct (Hvalid r ltac:(left)) as [m Hm]. unfold get_master.
  rewrite (bind_Return _ _ _ _ _ (deref_Some masters _ _ _ Hm)).
  destruct (pystr_eq _ _); [eexists; reflexivity|].
  apply IH. intros m' Hm'. apply Hvalid. right. exact Hm'.
Qed.

Lemma masterForId_in_store (w : World) (g : GSGlyph.t) (font : loc)
  (key : pystr) (h : gmap loc GSLayer.t) :
  font_in_store w g ->
  GSGlyph.parent g = Some font ->
  exists res,
    Font.masterForId font key (with_layers h w) = Return res (with_layers h w)
    /\ names_master w g key = match res with Some _ => true | None => false end.
Proof.
  intros Hstore Hfont. destruct (Hstore font Hfont) as (f & Hf & Hvalid).
  destruct (find_master_total w key _ Hvalid) as [res Hres].
  exists res. unfold names_master, Font.masterForId, get_font. rewrite Hfont.
  rewrite (bind_Return _ _ _ _ _ (deref_Some fonts _ _ _ Hf)), Hres.
  split; [|destruct res; reflexivity].
  unfold deref, bind. simpl. rewrite Hf.
  rewrite find_master_with_layers, Hres. reflexivity.
Qed.

Lemma get_layer_with_layers (h : gmap loc GSLayer.t) (w : World) (r : loc)
  (l : GSLayer.t) :
  h !! r = Some l -> get_layer r (with_layers h w) = Return l (with_layers h w).
Proof. intros Hl. apply (deref_Some layers). exact Hl. Qed.

Lemma put_layer_with_layers (h : gmap loc GSLayer.t) (w : World) (r : loc)
  (l : GSLayer.t) :
  put_layer r l (with_layers h w) = Return tt (with_layers (<[r := l]> h) w).
Proof. reflexivity. Qed.

Lemma get_glyph_with_layers (h : gmap loc GSLayer.t) (w : World) (r : loc)
  (g : GSGlyph.t) :
  glyphs w !! r = Some g -> get_glyph r (with_layers h w) = Return g (with_layers h w).
Proof. intros Hg. apply (deref_Some glyphs). exact Hg. Qed.

Lemma setupLayer_run (w : World) (h : gmap loc GSLayer.t) (owner : loc)
  (g : GSGlyph.t) (r : loc) (l : GSLayer.t) (key : pystr) :
  glyphs w !! owner = Some g ->
  font_in_store w g ->
  h !! r = Some l ->
  Glyph._setupLayer owner r key (with_layers h w)
  = Return tt
      (with_layers (<[r := set_up owner key (names_master w g key) l]> h) w).
Proof.
  intros Hg Hstore Hl. unfold Glyph._setupLayer.
  rewrite (bind_Return _ _ _ _ _ (get_layer_with_layers h w r l Hl)).
  rewrite (bind_Return _ _ _ _ _ (put_layer_with_layers h w r _)).
  rewrite (bind_Return _ _ _ _ _ (get_glyph_with_layers _ w owner g Hg)).
  destruct (GSGlyph.parent g) as [font|] eqn:Hfont.
  - destruct (masterForId_in_store w g font key
                (<[r := Glyph.set_parent_id l owner key]> h) Hstore Hfont)
      as (res & Hres & Hb).
    rewrite (bind_Return _ _ _ _ _ Hres). rewrite Hb. destruct res as [m|].
    + rewrite (bind_Return _ _ _ _ _
                 (get_layer_with_layers _ w r _ (lookup_insert_eq _ _ _))).
      rewrite put_layer_with_layers, insert_insert_eq. reflexivity.
    + reflexivity.
  - unfold names_master. rewrite Hfont. reflexivity.
Qed.

Lemma setup_all_run (w : World) (owner : loc) (g : GSGlyph.t)
  (items : list (pystr * loc)) :
  glyphs w !! owner = Some g ->
  font_in_store w g ->
  NoDup (map snd items) ->
  forall h : gmap loc GSLayer.t,
  (forall r, r ∈ map snd items -> is_Some (h !! r)) ->
  exists h',
    setup_all owner items (with_layers h w) = Return tt (with_layers h' w)
    /\ (forall k r l, (k, r) ∈ items -> h !! r = Some l ->
          h' !! r = Some (set_up owner k (names_master w g k) l))
    /\ (forall r, r ∉ map snd items -> h' !! r = h !! r).
Proof.
  intros Hg Hstore. induction items as [|[k r] items IH]; intros Hnodup h Hvalid.
  - exists h. split; [reflexivity|]. split; [|reflexivity].
    intros k r l Hin. inversion Hin.
  - simpl in Hnodup. apply NoDup_cons in Hnodup as [Hfresh Hnodup].
    destruct (Hvalid r ltac:(left)) as [l Hl].
    set (h1 := <[r := set_up owner k (names_master w g k) l]> h).
    destruct (IH Hnodup h1) as (h' & Hrun & Hset & Hrest).
    { intros r' Hr'. unfold h1.
      destruct (decide (r' = r)) as [->|Hne]; [contradiction|].
      rewrite lookup_insert_ne by congruence. apply Hvalid. right. exact Hr'. }
    exists h'. split; [|split].
    + simpl.
      rewrite (bind_Return _ _ _ _ _
                 (setupLayer_run w h owner g r l k Hg Hstore Hl)).
      exact Hrun.
    + intros k' r' l' Hin Hl'. apply elem_of_cons in Hin as [Heq|Hin].
      * injection Heq as -> ->. rewrite (Hrest r Hfresh). unfold h1.
        rewrite lookup_insert_eq. congruence.
      * assert (Hne : r' <> r).
        { intros ->. apply Hfresh. apply list_elem_of_fmap.
          exists (k', r). split; [reflexivity|exact Hin]. }
        apply (Hset k' r' l' Hin). unfold h1.
        rewrite lookup_insert_ne by congruence. exact Hl'.
    + intros r' Hr'. simpl in Hr'. apply not_elem_of_cons in Hr' as [Hne Hr'].
      rewrite (Hrest r' Hr'). unfold h1. apply lookup_insert_ne. congruence.
Qed.

Lemma layer_ids_length (w : World) (ls : list loc) :
  length (layer_ids w ls) = length ls.
Proof. unfold layer_ids. apply length_map. Qed.

Lemma layer_ids_lookup (w : World) (ls : list loc) (i : nat) (r : loc)
  (l : GSLayer.t) :
  ls !! i = Some r -> layers w !! r = Some l ->
  layer_ids w ls !! i = Some (GSLayer.layerId l).
Proof.
  intros Hi Hl. unfold layer_ids.
  change (map ?f ls) with (f <$> ls).
  rewrite list_lookup_fmap, Hi. simpl. rewrite Hl. reflexivity.
Qed.

(** What the setter does with a sequence of layers whose ids differ. *)
Lemma setter_distinct_ids (w : World) (owner : loc) (g : GSGlyph.t)
  (ls : list loc) (values : values_arg) :
  values = OfList ls \/ values = OfTuple ls ->
  glyphs w !! owner = Some g ->
  font_in_store w g ->
  (forall r, r ∈ ls -> is_Some (layers w !! r)) ->
  NoDup (layer_ids w ls) ->
  exists w',
    setter owner values w = Return tt w'
    /\ glyphs w' !! owner
       = Some (GSGlyph.mk (GSGlyph.parent g) (zip (layer_ids w ls) ls))
    /\ (forall i r l, ls !! i = Some r -> layers w !! r = Some l ->
          layers w' !! r
          = Some (set_up owner (GSLayer.layerId l)
                    (names_master w g (GSLayer.layerId l)) l)).
Proof.
  intros Hvalues Hg Hstore Hvalid Hnodup.
  assert (Hcollect : collect ls [] w = Return (zip (layer_ids w ls) ls) w).
  { apply (collect_distinct w ls [] Hvalid). exact Hnodup. }
  assert (Hsnd : map snd (zip (layer_ids w ls) ls) = ls).
  { apply snd_zip. rewrite layer_ids_length. lia. }
  assert (Hlocs : NoDup ls).
  { apply (NoDup_fmap_1 (fun r => match layers w !! r with
                                   | Some l => GSLayer.layerId l
                                   | None => None
                                   end)). exact Hnodup. }
  destruct (setup_all_run w owner g (zip (layer_ids w ls) ls) Hg Hstore
              ltac:(rewrite Hsnd; exact Hlocs) (layers w)
              ltac:(rewrite Hsnd; exact Hvalid))
    as (h' & Hrun & Hset & _).
  rewrite with_layers_same in Hrun.
  eexists. split; [|split].
  - unfold setter.
    assert (Hfirst : match values with
                     | OfList ls0 | OfTuple ls0 => collect ls0 []
                     | OfProxy glyph =>
                         do g0 <- get_glyph glyph;
                         collect (map snd (GSGlyph._layers g0)) []
                     | OfDict d => collect (map snd d) []
                     | OfOther _ => raise TypeError
                     end w = Return (zip (layer_ids w ls) ls) w).
    { destruct Hvalues as [-> | ->]; exact Hcollect. }
    rewrite (bind_Return _ _ _ _ _ Hfirst).
    rewrite (bind_Return _ _ _ _ _ Hrun).
    rewrite (bind_Return _ _ _ _ _ (get_glyph_with_layers h' w owner g Hg)).
    reflexivity.
  - simpl. apply lookup_insert_eq.
  - intros i r l Hi Hl. simpl. apply (Hset _ r l); [|exact Hl].
    apply list_elem_of_lookup. exists i. apply lookup_zip_Some.
    split; [apply (layer_ids_lookup w ls i r l Hi Hl)|exact Hi].
Qed.

(** A run of the setter on two layers that share a [layerId], as two layers
    with the id of one master do: only the last of them is kept; the other
    one is not given the glyph as parent, and the second position holds
    nothing. *)
Lemma setter_drops_layer_with_repeated_id :
  exists w',
    setter 0%nat (OfList [0%nat; 2%nat]) loose_layers_world = Return tt w'
    /\ layers w' !! 0%nat = Some (a_loose_layer "M1")
    /\ GSLayer.parent (a_loose_layer "M1") = None
    /\ __getitem__ 0%nat 0 w' = Return 2%nat w'
    /\ __getitem__ 0%nat 1 w' = Raised IndexError w'.
Proof.
  eexists. split; [reflexivity|]. repeat split; reflexivity.
Qed.

End LayerSetter.

(** ** Which fields are written *)

Section Policy.
Context `{Imports}.

(** C10. For a layer, [name] and [associatedMasterId] are written exactly
    when the layer is no master layer, that is when its [layerId] differs
    from its [associatedMasterId]; nothing else about the layer is looked
    at. *)
Theorem layer_name_and_master_id_written_iff_not_master_layer
  (w : World) (self : loc) (l : GSLayer.t) (key : string) :
  layers w !! self = Some l ->
  key = "name"%string \/ key = "associatedMasterId"%string ->
  (GSLayer.layerId l = GSLayer.associatedMasterId l ->
     LayerPolicy.shouldWriteValueForKey self key w = Return false w)
  /\ (GSLayer.layerId l <> GSLayer.associatedMasterId l ->
        LayerPolicy.shouldWriteValueForKey self key w = Return true w).
Proof.
  intros Hl Hkey.
  assert (Hrun : LayerPolicy.shouldWriteValueForKey self key w
                 = Return (negb (pystr_eq (GSLayer.layerId l)
                                   (GSLayer.associatedMasterId l))) w).
  { unfold LayerPolicy.shouldWriteValueForKey, get_layer.
    destruct Hkey as [-> | ->]; simpl;
      rewrite (bind_Return _ _ _ _ _ (deref_Some layers _ _ _ Hl));
      reflexivity. }
  rewrite Hrun. split; intros Hids.
  - rewrite (proj2 (pystr_eq_true _ _) Hids). reflexivity.
  - rewrite (proj2 (pystr_eq_false _ _) Hids). reflexivity.
Qed.

(** The rule of [GSBase], once the value and the class of the key are read. *)
Lemma base_rule (T : tables) (getattr : string -> M attr) (key : string)
  (w : World) (value : attr) (k : klass) :
  getattr (default key (assoc key (_wrapperKeysTranslate T))) w
  = Return value w ->
  assoc key (_classesForName T) = Some k ->
  Base.shouldWriteValueForKey T getattr key w
  = Return
      (match assoc key (_defaultsForName T) with
       | Some VNone | None =>
           if Base.is_bare_number k && Base.eq_attr (VInt 0) value then false
           else if Base.is_empty_wrapper value then false
           else true
       | Some d => negb (Base.eq_attr d value)
       end) w.
Proof.
  intros Hvalue Hk. unfold Base.shouldWriteValueForKey.
  rewrite (bind_Return _ _ _ _ _ Hvalue), Hk.
  destruct (assoc key (_defaultsForName T)) as [d|]; simpl.
  - destruct d; simpl; try reflexivity.
    destruct (_ && _); [reflexivity|].
    destruct (Base.is_empty_wrapper value); reflexivity.
  - destruct (_ && _); [reflexivity|].
    destruct (Base.is_empty_wrapper value); reflexivity.
Qed.

Lemma master_width_weight_rule (w : World) (self : loc) (m : GSFontMaster.t) :
  masters w !! self = Some m ->
  FontMasterPolicy.shouldWriteValueForKey self "width" w
  = Return (negb (py_eq (VStr "Regular") (FontMaster.width m))) w
  /\ FontMasterPolicy.shouldWriteValueForKey self "weight" w
     = Return (negb (py_eq (VStr "Regular") (FontMaster.weight m))) w.
Proof.
  intros Hm.
  assert (Hwidth : FontMasterPolicy.getattr self "width" w
                   = Return (AVal (FontMaster.width m)) w).
  { unfold FontMasterPolicy.getattr, get_master.
    rewrite (bind_Return _ _ _ _ _ (deref_Some masters _ _ _ Hm)).
    reflexivity. }
  assert (Hweight : FontMasterPolicy.getattr self "weight" w
                    = Return (AVal (FontMaster.weight m)) w).
  { unfold FontMasterPolicy.getattr, get_master.
    rewrite (bind_Return _ _ _ _ _ (deref_Some masters _ _ _ Hm)).
    reflexivity. }
  split.
  - change (FontMasterPolicy.shouldWriteValueForKey self "width" w)
      with (bind (FontMasterPolicy.getattr self "width")
              (fun value => if Base.eq_attr (VStr "Regular") value
                            then ret false else ret true) w).
    unfold bind. rewrite Hwidth.
    change (Base.eq_attr (VStr "Regular") (AVal (FontMaster.width m)))
      with (py_eq (VStr "Regular") (FontMaster.width m)).
    destruct (py_eq (VStr "Regular") (FontMaster.width m)); reflexivity.
  - change (FontMasterPolicy.shouldWriteValueForKey self "weight" w)
      with (bind (FontMasterPolicy.getattr self "weight")
              (fun value => if Base.eq_attr (VStr "Regular") value
                            then ret false else ret true) w).
    unfold bind. rewrite Hweight.
    change (Base.eq_attr (VStr "Regular") (AVal (FontMaster.weight m)))
      with (py_eq (VStr "Regular") (FontMaster.weight m)).
    destruct (py_eq (VStr "Regular") (FontMaster.weight m)); reflexivity.
Qed.

Ltac not_the_key :=
  repeat match goal with
         | Hne : ?key <> ?s |- context [String.eqb ?key ?s] =>
             rewrite (proj2 (String.eqb_neq key s) Hne)
         end.

(** C6 (amended). The order of the rules of [shouldWriteValueForKey]:
    the units per em and the minor version of a font, the width of a layer and
    the closed flag of a path are written whatever their value; the width and
    the weight of a master are written exactly when they differ from
    "Regular"; the piece of a component and the background image of a layer
    and of a background layer are written exactly when they are not empty
    (their length is above 0); the name and the associated master id of a
    layer are written exactly when its [layerId] differs from its
    [associatedMasterId]; every other field of a font, a master, a path, a
    component, a background layer and a layer follows the rule of [GSBase]:
    with a declared default other than [None] the field is written exactly
    when its value differs from the default; otherwise a field of class int,
    float or bool that equals 0 is left out, a wrapper value that holds
    [None] is left out, and any other field is written.  (For a layer the
    test for the width is [key in ("width")], so any key that is a part of
    that word is written as the width is.) *)
Theorem shouldWriteValueForKey_rule_order (w : World) :
  (forall self,
      FontPolicy.shouldWriteValueForKey self "unitsPerEm" w = Return true w
      /\ FontPolicy.shouldWriteValueForKey self "versionMinor" w
         = Return true w
      /\ LayerPolicy.shouldWriteValueForKey self "width" w = Return true w
      /\ PathPolicy.shouldWriteValueForKey self "closed" w = Return true w)
  /\ (forall self m,
        masters w !! self = Some m ->
        FontMasterPolicy.shouldWriteValueForKey self "width" w
        = Return (negb (py_eq (VStr "Regular") (FontMaster.width m))) w
        /\ FontMasterPolicy.shouldWriteValueForKey self "weight" w
           = Return (negb (py_eq (VStr "Regular") (FontMaster.weight m))) w)
  /\ (forall self key,
        (key <> "unitsPerEm"%string -> key <> "versionMinor"%string ->
         FontPolicy.shouldWriteValueForKey self key w
         = Base.shouldWriteValueForKey FontPolicy.T
             (FontPolicy.getattr self) key w)
        /\ (key <> "width"%string -> key <> "weight"%string ->
            FontMasterPolicy.shouldWriteValueForKey self key w
            = Base.shouldWriteValueForKey FontMasterPolicy.T
                (FontMasterPolicy.getattr self) key w)
        /\ (key <> "closed"%string ->
            PathPolicy.shouldWriteValueForKey self key w
            = Base.shouldWriteValueForKey PathPolicy.T
                (PathPolicy.getattr self) key w)
        /\ (key <> "piece"%string ->
            ComponentPolicy.shouldWriteValueForKey self key w
            = Base.shouldWriteValueForKey ComponentPolicy.T
                (ComponentPolicy.getattr self) key w)
        /\ (key <> "backgroundImage"%string ->
            BackgroundLayerPolicy.shouldWriteValueForKey self key w
            = Base.shouldWriteValueForKey BackgroundLayerPolicy.T
                (BackgroundLayerPolicy.getattr self) key w)
        /\ (key <> "associatedMasterId"%string -> key <> "name"%string ->
            occurs_in key "width" = false ->
            key <> "backgroundImage"%string ->
            LayerPolicy.shouldWriteValueForKey self key w
            = Base.shouldWriteValueForKey LayerPolicy.T
                (LayerPolicy.getattr self) key w))
  /\ (forall T getattr key value k,
        getattr (default key (assoc key (_wrapperKeysTranslate T))) w
        = Return value w ->
        assoc key (_classesForName T) = Some k ->
        (forall d, assoc key (_defaultsForName T) = Some d -> d <> VNone ->
           Base.shouldWriteValueForKey T getattr key w
           = Return (negb (Base.eq_attr d value)) w)
        /\ (assoc key (_defaultsForName T) = None
            \/ assoc key (_defaultsForName T) = Some VNone ->
            (Base.is_bare_number k = true ->
             Base.eq_attr (VInt 0) value = true ->
             Base.shouldWriteValueForKey T getattr key w = Return false w)
            /\ (Base.is_empty_wrapper value = true ->
                Base.shouldWriteValueForKey T getattr key w = Return false w)
            /\ (Base.is_bare_number k && Base.eq_attr (VInt 0) value = false ->
                Base.is_empty_wrapper value = false ->
                Base.shouldWriteValueForKey T getattr key w = Return true w)))
  /\ (forall self value n,
        attr_len value = Ok n ->
        (ComponentPolicy.getattr self "piece" w = Return value w ->
         ComponentPolicy.shouldWriteValueForKey self "piece" w
         = Return (0 <? n)%nat w)
        /\ (BackgroundLayerPolicy.getattr self "backgroundImage" w
            = Return value w ->
            BackgroundLayerPolicy.shouldWriteValueForKey self
              "backgroundImage" w = Return (0 <? n)%nat w)
        /\ (LayerPolicy.getattr self "backgroundImage" w = Return value w ->
            LayerPolicy.shouldWriteValueForKey self "backgroundImage" w
            = Return (0 <? n)%nat w))
  /\ (forall self l key,
        layers w !! self = Some l ->
        key = "name"%string \/ key = "associatedMasterId"%string ->
        LayerPolicy.shouldWriteValueForKey self key w
        = Return (negb (pystr_eq (GSLayer.layerId l)
                          (GSLayer.associatedMasterId l))) w)
  /\ (forall self key,
        key <> "associatedMasterId"%string -> key <> "name"%string ->
        occurs_in key "width" = true ->
        LayerPolicy.shouldWriteValueForKey self key w = Return true w).
Proof.
  split; [|split; [|split; [|split; [|split; [|split]]]]];
    [| | | |
     intros self value n Hlen; repeat split; intros Hvalue
     | intros self l key Hl Hkey
     | intros self key H1 H2 H3].
  5: { unfold ComponentPolicy.shouldWriteValueForKey.
       change (String.eqb "piece" "piece") with true. cbv iota.
       rewrite (bind_Return _ _ _ _ _ Hvalue), Hlen. reflexivity. }
  5: { unfold BackgroundLayerPolicy.shouldWriteValueForKey.
       change (String.eqb "backgroundImage" "backgroundImage") with true.
       cbv iota.
       rewrite (bind_Return _ _ _ _ _ Hvalue), Hlen. reflexivity. }
  5: { unfold LayerPolicy.shouldWriteValueForKey.
       change (String.eqb "backgroundImage" "associatedMasterId"
               || String.eqb "backgroundImage" "name") with false.
       change (occurs_in "backgroundImage" "width") with false.
       change (String.eqb "backgroundImage" "backgroundImage") with true.
       cbv iota.
       rewrite (bind_Return _ _ _ _ _ Hvalue), Hlen. reflexivity. }
  5: { unfold LayerPolicy.shouldWriteValueForKey, get_layer.
       destruct Hkey as [-> | ->]; simpl;
         rewrite (bind_Return _ _ _ _ _ (deref_Some layers _ _ _ Hl));
         reflexivity. }
  5: { unfold LayerPolicy.shouldWriteValueForKey.
       not_the_key. rewrite H3. reflexivity. }
  - intros self. repeat split; reflexivity.
  - intros self m Hm. apply master_width_weight_rule, Hm.
  - intros self key. repeat split.
    + intros H1 H2. unfold FontPolicy.shouldWriteValueForKey.
      not_the_key. reflexivity.
    + intros H1 H2. unfold FontMasterPolicy.shouldWriteValueForKey.
      not_the_key. reflexivity.
    + intros H1. unfold PathPolicy.shouldWriteValueForKey.
      not_the_key. reflexivity.
    + intros H1. unfold ComponentPolicy.shouldWriteValueForKey.
      not_the_key. reflexivity.
    + intros H1. unfold BackgroundLayerPolicy.shouldWriteValueForKey.
      not_the_key. reflexivity.
    + intros H1 H2 H3 H4. unfold LayerPolicy.shouldWriteValueForKey.
      not_the_key. rewrite H3. reflexivity.
  - intros T getattr key value k Hvalue Hk.
    rewrite (base_rule T getattr key w value k Hvalue Hk). split.
    + intros d -> Hd. destruct d; try reflexivity. congruence.
    + intros Hnone.
      assert (Hrule : match assoc key (_defaultsForName T) with
                      | Some VNone | None =>
                          if Base.is_bare_number k
                             && Base.eq_attr (VInt 0) value then false
                          else if Base.is_empty_wrapper value then false
                          else true
                      | Some d => negb (Base.eq_attr d value)
                      end
                      = if Base.is_bare_number k
                           && Base.eq_attr (VInt 0) value then false
                        else if Base.is_empty_wrapper value then false
                        else true)
        by (destruct Hnone as [-> | ->]; reflexivity).
      rewrite Hrule. repeat split.
      * intros -> ->. reflexivity.
      * intros ->. destruct (_ && _); reflexivity.
      * intros -> ->. reflexivity.
Qed.

End Policy.

Lemma shouldWriteValueForKey_rule_order_witness :
  masters (master_world bold_master) !! 0%nat = Some bold_master
  /\ @FontMasterPolicy.shouldWriteValueForKey sample_imports 0%nat "width"
       (master_world bold_master)
     = Return false (master_world bold_master)
  /\ @FontMasterPolicy.shouldWriteValueForKey sample_imports 0%nat "weight"
       (master_world bold_master)
     = Return true (master_world bold_master)
  /\ ComponentPolicy.getattr 0%nat "piece" component_world
     = Return (AVal (VDict [])) component_world
  /\ @ComponentPolicy.shouldWriteValueForKey sample_imports 0%nat "piece"
       component_world
     = Return false component_world.
Proof.
  split; [reflexivity|].
  destruct (@shouldWriteValueForKey_rule_order sample_imports
              (master_world bold_master)) as (_ & Hmaster & _).
  destruct (@shouldWriteValueForKey_rule_order sample_imports
              component_world) as (_ & _ & _ & _ & Hlength & _).
  destruct (Hmaster 0%nat bold_master eq_refl) as [Hwidth Hweight].
  split; [exact Hwidth|]. split; [exact Hweight|]. split; [reflexivity|].
  destruct (Hlength 0%nat (AVal (VDict [])) 0%nat eq_refl) as (Hpiece & _).
  apply Hpiece. reflexivity.
Defined.

(** C6 as stated fails for the width of a master: it is left out when it is
    "Regular", whatever the imported functions do. *)
Lemma master_width_regular_is_left_out :
  FontMaster.width bold_master = VStr "Regular"
  /\ ~ (exists I : Imports,
          @FontMasterPolicy.shouldWriteValueForKey I 0%nat "width"
            (master_world bold_master)
          = Return true (master_world bold_master))
  /\ @FontMasterPolicy.shouldWriteValueForKey sample_imports 0%nat "width"
       (master_world bold_master)
     = Return false (master_world bold_master).
Proof.
  split; [reflexivity|]. split; [|reflexivity].
  intros (I & Hwritten). vm_compute in Hwritten. discriminate Hwritten.
Qed.

Lemma layer_name_and_master_id_written_iff_not_master_layer_witness :
  layers (master_layer_world "M1" bold_master) !! 0%nat
  = Some (GSLayer.mk (Some (Some 0%nat)) (Some "M1"%string)
            (Some "M1"%string) (VStr "Regular") [] ∅)
  /\ @LayerPolicy.shouldWriteValueForKey sample_imports 0%nat "name"
       (master_layer_world "M1" bold_master)
     = Return false (master_layer_world "M1" bold_master)
  /\ layers loose_layers_world !! 1%nat = Some (a_loose_layer "brace")
  /\ @LayerPolicy.shouldWriteValueForKey sample_imports 1%nat
       "associatedMasterId" loose_layers_world
     = Return true loose_layers_world.
Proof.
  split; [reflexivity|]. split.
  - apply (@layer_name_and_master_id_written_iff_not_master_layer
             sample_imports (master_layer_world "M1" bold_master) 0%nat _
             "name" eq_refl (or_introl eq_refl)).
    reflexivity.
  - split; [reflexivity|].
    apply (@layer_name_and_master_id_written_iff_not_master_layer
             sample_imports loose_layers_world 1%nat (a_loose_layer "brace")
             "associatedMasterId" eq_refl (or_intror eq_refl)).
    discriminate.
Defined.

(** ** Anchors of a layer: the other methods *)

Section AnchorsMore.
Import LayerAnchorsProxy.

(** What the scan for a name finds. *)
Lemma find_name_spec (w : World) (name : pystr) (l : list loc) :
  forall k : nat,
  anchors_in_store w l ->
  exists hit,
    find_name l k name w = Return hit w
    /\ match hit with
       | Some j =>
           exists i r a,
             j = (k + i)%nat /\ l !! i = Some r /\ anchors w !! r = Some a
             /\ GSAnchor.name a = name
             /\ forall j' r', (j' < i)%nat -> l !! j' = Some r' ->
                  exists a', anchors w !! r' = Some a'
                             /\ GSAnchor.name a' <> name
       | None =>
           forall r, r ∈ l ->
             exists a', anchors w !! r = Some a' /\ GSAnchor.name a' <> name
       end.
Proof.
  induction l as [|r0 l IH]; intros k Hvalid.
  - exists None. split; [reflexivity|]. intros r Hr. inversion Hr.
  - destruct (Hvalid r0 ltac:(left)) as [a0 Ha0].
    destruct (decide (GSAnchor.name a0 = name)) as [Heq|Hne].
    + exists (Some k). split.
      * simpl. unfold get_anchor.
        rewrite (bind_Return _ _ _ _ _ (deref_Some anchors _ _ _ Ha0)).
        rewrite (proj2 (pystr_eq_true _ _) Heq). reflexivity.
      * exists 0%nat, r0, a0. repeat split; auto.
        intros j' r' Hj'. lia.
    + destruct (IH (S k)) as (hit & Hrun & Hhit).
      { intros r Hr. apply Hvalid. right. exact Hr. }
      exists hit. split.
      * simpl. unfold get_anchor.
        rewrite (bind_Return _ _ _ _ _ (deref_Some anchors _ _ _ Ha0)).
        rewrite (proj2 (pystr_eq_false _ _) Hne). exact Hrun.
      * destruct hit as [j|].
        -- destruct Hhit as (i & r & a & Hj & Hi & Ha & Hn & Hbefore).
           exists (S i), r, a. repeat split; auto; [lia|].
           intros j' r' Hj' Hr'. destruct j' as [|j'].
           ++ injection Hr' as <-. exists a0. split; assumption.
           ++ apply (Hbefore j' r'); [lia|exact Hr'].
        -- intros r Hr. apply elem_of_cons in Hr as [->|Hr].
           ++ exists a0. split; assumption.
           ++ apply Hhit, Hr.
Qed.

Lemma find_name_some (w : World) (name : pystr) (l : list loc) (i : nat)
  (r : loc) (a : GSAnchor.t) :
  l !! i = Some r ->
  anchors w !! r = Some a ->
  GSAnchor.name a = name ->
  (forall j' r', (j' < i)%nat -> l !! j' = Some r' ->
     exists a', anchors w !! r' = Some a' /\ GSAnchor.name a' <> name) ->
  find_name l 0%nat name w = Return (Some i) w.
Proof. intros. eapply (find_name_found w name l 0%nat); eauto. Qed.

(** X1. Assigning an anchor under a name and reading that name gives the anchor
    back, renamed to it: [anchors[s] = anchor] then [anchors[s]]. *)
Theorem anchor_setitem_then_getitem
  (w : World) (owner anchor : loc) (l : GSLayer.t) (a : GSAnchor.t)
  (s : string) :
  layers w !! owner = Some l ->
  anchors w !! anchor = Some a ->
  anchors_in_store w (GSLayer._anchors l) ->
  exists w' a',
    AnchorsProxy.__setitem__ owner (VStr s) anchor w = Return tt w'
    /\ AnchorsProxy.__getitem__ owner (VStr s) w' = Return (Some anchor) w'
    /\ anchors w' !! anchor = Some a'
    /\ GSAnchor.name a' = Some s
    /\ GSAnchor.position a' = GSAnchor.position a.
Proof.
  intros Hl Ha Hvalid.
  set (a1 := AnchorsProxy.set_name a (Some s)).
  set (w1 := with_anchors (<[anchor := a1]> (anchors w)) w).
  assert (Ha1 : anchors w1 !! anchor = Some a1) by apply lookup_insert_eq.
  assert (Hl1 : layers w1 !! owner = Some l) by exact Hl.
  assert (Hvalid1 : anchors_in_store w1 (GSLayer._anchors l)).
  { intros r Hr. simpl. destruct (decide (r = anchor)) as [->|Hne].
    - rewrite lookup_insert_eq. eauto.
    - rewrite lookup_insert_ne by congruence. apply Hvalid, Hr. }
  destruct (find_name_spec w1 (Some s) (GSLayer._anchors l) 0%nat Hvalid1)
    as (hit & Hfind & Hhit).
  assert (Hstart : AnchorsProxy.__setitem__ owner (VStr s) anchor w
                   = match hit with
                     | Some i =>
                         put_layer owner
                           (set_anchors l (<[i := anchor]> (GSLayer._anchors l)))
                           w1
                     | None =>
                         bind (get_anchor anchor)
                           (fun a => bind
                              (put_anchor anchor (set_parent a (Some owner)))
                              (fun _ => put_layer owner
                                 (set_anchors l (GSLayer._anchors l ++ [anchor]))))
                           w1
                     end).
  { unfold AnchorsProxy.__setitem__, get_anchor.
    rewrite (bind_Return _ _ _ _ _ (deref_Some anchors _ _ _ Ha)).
    fold a1. unfold put_anchor at 1. unfold bind at 1. fold w1.
    unfold get_layer.
    rewrite (bind_Return _ _ _ _ _ (deref_Some layers _ _ _ Hl1)).
    rewrite (bind_Return _ _ _ _ _ Hfind). destruct hit; reflexivity. }
  destruct hit as [j|].
  - destruct Hhit as (i & r & a0 & -> & Hi & Hr & Hn & Hbefore). simpl in Hstart.
    set (l' := set_anchors l (<[i := anchor]> (GSLayer._anchors l))).
    set (w' := with_layers (<[owner := l']> (layers w1)) w1).
    assert (Hl' : layers w' !! owner = Some l') by apply lookup_insert_eq.
    exists w', a1. split; [exact Hstart|].
    split; [|split; [exact Ha1|split; reflexivity]].
    unfold AnchorsProxy.__getitem__, get_layer.
    rewrite (bind_Return _ _ _ _ _ (deref_Some layers _ _ _ Hl')).
    simpl.
    erewrite bind_Return.
    2:{ apply (find_name_some _ (Some s) _ i anchor a1).
        - apply list_lookup_insert_eq. eapply lookup_lt_Some, Hi.
        - exact Ha1.
        - reflexivity.
        - intros j' r' Hj' Hr'.
          rewrite list_lookup_insert_ne in Hr' by lia.
          apply (Hbefore j' r' Hj' Hr'). }
    unfold ret. f_equal.
    apply list_lookup_insert_eq. eapply lookup_lt_Some, Hi.
  - assert (Hnotin : forall r, r ∈ GSLayer._anchors l -> r <> anchor).
    { intros r Hr ->. destruct (Hhit anchor Hr) as (a' & Ha' & Hn').
      rewrite Ha1 in Ha'. injection Ha' as <-. apply Hn'. reflexivity. }
    set (a2 := set_parent a1 (Some owner)).
    set (w2 := with_anchors (<[anchor := a2]> (anchors w1)) w1).
    assert (Hrun : AnchorsProxy.__setitem__ owner (VStr s) anchor w
                   = Return tt
                       (with_layers
                          (<[owner := set_anchors l
                                        (GSLayer._anchors l ++ [anchor])]>
                             (layers w2)) w2)).
    { rewrite Hstart. unfold get_anchor.
      rewrite (bind_Return _ _ _ _ _ (deref_Some anchors _ _ _ Ha1)).
      reflexivity. }
    set (l' := set_anchors l (GSLayer._anchors l ++ [anchor])) in *.
    set (w' := with_layers (<[owner := l']> (layers w2)) w2) in *.
    assert (Hl' : layers w' !! owner = Some l') by apply lookup_insert_eq.
    exists w', a2. split; [exact Hrun|].
    split; [|split; [apply lookup_insert_eq|split; reflexivity]].
    unfold AnchorsProxy.__getitem__, get_layer.
    rewrite (bind_Return _ _ _ _ _ (deref_Some layers _ _ _ Hl')).
    simpl.
    erewrite bind_Return.
    2:{ apply (find_name_some _ (Some s) _ (length (GSLayer._anchors l))
                 anchor a2).
        - rewrite lookup_app_r by lia. rewrite Nat.sub_diag. reflexivity.
        - apply lookup_insert_eq.
        - reflexivity.
        - intros j' r' Hj' Hr'. rewrite lookup_app_l in Hr' by exact Hj'.
          apply list_elem_of_lookup_2 in Hr'.
          destruct (Hhit r' Hr') as (a' & Ha' & Hn').
          exists a'. split; [|exact Hn']. simpl.
          rewrite lookup_insert_ne by (apply not_eq_sym, Hnotin, Hr').
          exact Ha'. }
    unfold ret. f_equal.
    rewrite lookup_app_r by lia. rewrite Nat.sub_diag. reflexivity.
Qed.

Lemma anchor_names_set_parent (w : World) (anchor : loc) (new : GSAnchor.t)
  (p : option loc) (l : list loc) :
  anchors w !! anchor = Some new ->
  anchor_names
    (with_anchors (<[anchor := set_parent new p]> (anchors w)) w) l
  = anchor_names w l.
Proof.
  intros Hnew. unfold anchor_names. apply map_ext. intros r. simpl.
  destruct (decide (r = anchor)) as [->|Hne].
  - rewrite lookup_insert_eq, Hnew. reflexivity.
  - rewrite lookup_insert_ne by congruence. reflexivity.
Qed.

(** X2. An append that succeeds keeps the names of the anchors of a layer
    pairwise different, if they were, and leaves the anchor on the layer. *)
Theorem append_keeps_anchor_names_distinct
  (w w' : World) (owner anchor : loc) (l : GSLayer.t) (new : GSAnchor.t) :
  layers w !! owner = Some l ->
  anchors w !! anchor = Some new ->
  anchors_in_store w (GSLayer._anchors l) ->
  NoDup (anchor_names w (GSLayer._anchors l)) ->
  append owner anchor w = Return tt w' ->
  exists l',
    layers w' !! owner = Some l'
    /\ NoDup (anchor_names w' (GSLayer._anchors l'))
    /\ anchor ∈ GSLayer._anchors l'.
Proof.
  intros Hl Hnew Hvalid Hnodup Hrun.
  destruct (find_name_spec w (GSAnchor.name new) (GSLayer._anchors l) 0%nat
              Hvalid) as (hit & _ & Hhit).
  destruct hit as [j|].
  - destruct Hhit as (i & r & old & _ & Hi & Hold & Hn & Hbefore).
    rewrite (append_replaces w owner anchor l new i r old Hl Hnew Hvalid Hi
               Hold Hn) in Hrun.
    2:{ intros j' r' a' Hj' Hr' Ha'.
        destruct (Hbefore j' r' Hj' Hr') as (a'' & Ha'' & Hne). congruence. }
    injection Hrun as <-. eexists. split; [apply lookup_insert_eq|].
    cbn [GSLayer._anchors set_anchors]. split.
    + assert (Hsame : anchor_names
                (with_layers
                   (<[owner := set_anchors l
                                 (<[i := anchor]> (GSLayer._anchors l))]>
                      (layers w))
                   (with_anchors
                      (<[anchor := set_parent new (Some owner)]> (anchors w))
                      w))
                (<[i := anchor]> (GSLayer._anchors l))
              = anchor_names w (GSLayer._anchors l)).
      { change (anchor_names (with_layers ?h ?w0) ?l0)
          with (anchor_names w0 l0).
        rewrite (anchor_names_set_parent w anchor new _ _ Hnew).
        unfold anchor_names.
        change (map ?f ?l0) with (f <$> l0).
        rewrite list_fmap_insert. apply list_insert_id.
        rewrite list_lookup_fmap, Hi. simpl. rewrite Hnew, Hold.
        f_equal. exact Hn. }
      rewrite Hsame. exact Hnodup.
    + apply list_elem_of_lookup. exists i. apply list_lookup_insert_eq.
      eapply lookup_lt_Some, Hi.
  - rewrite (append_no_match w owner anchor l new Hl Hnew Hvalid) in Hrun.
    2:{ intros r a' Hr Ha'. destruct (Hhit r Hr) as (a'' & Ha'' & Hne).
        congruence. }
    destruct (pystr_truthy _); [|discriminate].
    injection Hrun as <-. eexists. split; [apply lookup_insert_eq|].
    cbn [GSLayer._anchors set_anchors]. split.
    + change (anchor_names (with_layers ?h ?w0) ?l0) with (anchor_names w0 l0).
      unfold anchor_names in *. rewrite map_app. simpl. rewrite Hnew.
      apply NoDup_app. split; [exact Hnodup|]. split.
      * intros x Hx Hx'. apply list_elem_of_singleton in Hx' as ->.
        change (map ?f ?l0) with (f <$> l0) in Hx.
        apply list_elem_of_fmap in Hx as (r & Hx & Hr).
        destruct (Hhit r Hr) as (a' & Ha' & Hne). rewrite Ha' in Hx.
        congruence.
      * apply NoDup_singleton.
    + apply elem_of_app. right. apply list_elem_of_singleton. reflexivity.
Qed.

(** X3. Deleting by name takes the first anchor of that name off the layer and
    clears its parent; a name that no anchor has is no error and changes
    nothing. *)
Theorem anchor_delitem_by_name
  (w : World) (owner : loc) (l : GSLayer.t) (s : string) :
  layers w !! owner = Some l ->
  anchors_in_store w (GSLayer._anchors l) ->
  (forall i r a,
      GSLayer._anchors l !! i = Some r ->
      anchors w !! r = Some a ->
      GSAnchor.name a = Some s ->
      (forall j r' a', (j < i)%nat -> GSLayer._anchors l !! j = Some r' ->
         anchors w !! r' = Some a' -> GSAnchor.name a' <> Some s) ->
      exists w' l' a',
        AnchorsProxy.__delitem__ owner (VStr s) w = Return tt w'
        /\ layers w' !! owner = Some l'
        /\ GSLayer._anchors l' = delete i (GSLayer._anchors l)
        /\ S (length (GSLayer._anchors l')) = length (GSLayer._anchors l)
        /\ anchors w' !! r = Some a'
        /\ GSAnchor._parent a' = None)
  /\ ((forall r a, r ∈ GSLayer._anchors l -> anchors w !! r = Some a ->
         GSAnchor.name a <> Some s) ->
      AnchorsProxy.__delitem__ owner (VStr s) w = Return tt w).
Proof.
  intros Hl Hvalid. split.
  - intros i r a Hi Ha Hn Hfirst.
    assert (Hfind : find_name (GSLayer._anchors l) 0%nat (Some s) w
                    = Return (Some i) w).
    { apply (find_name_some w (Some s) _ i r a Hi Ha Hn).
      intros j' r' Hj' Hr'.
      destruct (Hvalid r') as [a' Ha']; [eapply list_elem_of_lookup_2, Hr'|].
      exists a'. split; [exact Ha'|]. eauto. }
    eexists _, _, _. split.
    + unfold AnchorsProxy.__delitem__, get_layer, get_anchor.
      rewrite (bind_Return _ _ _ _ _ (deref_Some layers _ _ _ Hl)). simpl.
      rewrite (bind_Return _ _ _ _ _ Hfind). rewrite Hi.
      rewrite (bind_Return _ _ _ _ _ (deref_Some anchors _ _ _ Ha)).
      reflexivity.
    + simpl. split; [apply lookup_insert_eq|]. simpl.
      split; [reflexivity|]. split.
      * rewrite length_delete by eauto.
        pose proof (lookup_lt_Some _ _ _ Hi). lia.
      * split; [apply lookup_insert_eq|reflexivity].
  - intros Hnone.
    assert (Hfind : find_name (GSLayer._anchors l) 0%nat (Some s) w
                    = Return None w).
    { apply find_name_absent. intros r Hr.
      destruct (Hvalid r Hr) as [a' Ha']. exists a'. eauto. }
    unfold AnchorsProxy.__delitem__, get_layer.
    rewrite (bind_Return _ _ _ _ _ (deref_Some layers _ _ _ Hl)). simpl.
    rewrite (bind_Return _ _ _ _ _ Hfind). reflexivity.
Qed.

(** X4. [pop] at a position of the list, counted from either end, hands out the
    anchor there and shortens the list by that position, and the anchor keeps
    the parent it had; at any other position it raises [IndexError] and
    changes nothing. *)
Theorem anchor_pop (w : World) (owner : loc) (l : GSLayer.t) (i : Z) :
  layers w !! owner = Some l ->
  (forall r,
      - Z.of_nat (length (GSLayer._anchors l)) <= i
        < Z.of_nat (length (GSLayer._anchors l)) ->
      GSLayer._anchors l
        !! Z.to_nat (if i <? 0 then Z.of_nat (length (GSLayer._anchors l)) + i
                     else i) = Some r ->
      exists w' l',
        AnchorsProxy.pop owner (VInt i) w = Return (Some r) w'
        /\ layers w' !! owner = Some l'
        /\ GSLayer._anchors l'
           = delete (Z.to_nat (if i <? 0
                               then Z.of_nat (length (GSLayer._anchors l)) + i
                               else i)) (GSLayer._anchors l)
        /\ anchors w' = anchors w)
  /\ (i < - Z.of_nat (length (GSLayer._anchors l))
      \/ Z.of_nat (length (GSLayer._anchors l)) <= i ->
      AnchorsProxy.pop owner (VInt i) w = Raised IndexError w).
Proof.
  intros Hl. split.
  - intros r Hrange Hr.
    assert (Hin : (0 <=? (if i <? 0
                          then Z.of_nat (length (GSLayer._anchors l)) + i
                          else i))
                  && ((if i <? 0
                       then Z.of_nat (length (GSLayer._anchors l)) + i
                       else i) <? Z.of_nat (length (GSLayer._anchors l)))
                  = true).
    { apply andb_true_iff. destruct (Z.ltb_spec i 0); split; lia. }
    assert (Hget : AnchorsProxy.__getitem__ owner (VInt i) w
                   = Return (Some r) w).
    { unfold AnchorsProxy.__getitem__, get_layer.
      rewrite (bind_Return _ _ _ _ _ (deref_Some layers _ _ _ Hl)). simpl.
      unfold py_index. rewrite Hin, Hr. reflexivity. }
    assert (Hdel : exists w',
               AnchorsProxy.__delitem__ owner (VInt i) w = Return tt w'
               /\ layers w' !! owner
                  = Some (set_anchors l
                            (delete
                               (Z.to_nat
                                  (if i <? 0
                                   then Z.of_nat (length (GSLayer._anchors l))
                                        + i
                                   else i)) (GSLayer._anchors l)))
               /\ anchors w' = anchors w).
    { eexists. split.
      - unfold AnchorsProxy.__delitem__, get_layer.
        rewrite (bind_Return _ _ _ _ _ (deref_Some layers _ _ _ Hl)). simpl.
        unfold AnchorsProxy.py_delete. rewrite Hin. reflexivity.
      - simpl. split; [apply lookup_insert_eq|reflexivity]. }
    destruct Hdel as (w' & Hdel & Hl' & Hanchors).
    exists w'. eexists. split.
    + unfold AnchorsProxy.pop. rewrite (bind_Return _ _ _ _ _ Hget).
      rewrite (bind_Return _ _ _ _ _ Hdel). reflexivity.
    + split; [exact Hl'|]. split; [reflexivity|exact Hanchors].
  - intros Hout.
    assert (Hin : (0 <=? (if i <? 0
                          then Z.of_nat (length (GSLayer._anchors l)) + i
                          else i))
                  && ((if i <? 0
                       then Z.of_nat (length (GSLayer._anchors l)) + i
                       else i) <? Z.of_nat (length (GSLayer._anchors l)))
                  = false).
    { apply andb_false_iff. destruct (Z.ltb_spec i 0); lia. }
    assert (Hget : AnchorsProxy.__getitem__ owner (VInt i) w
                   = Raised IndexError w).
    { unfold AnchorsProxy.__getitem__, get_layer.
      rewrite (bind_Return _ _ _ _ _ (deref_Some layers _ _ _ Hl)). simpl.
      unfold py_index. rewrite Hin. reflexivity. }
    unfold AnchorsProxy.pop. rewrite (bind_Raised_in _ _ _ _ _ Hget).
    reflexivity.
Qed.

Lemma adopt_run (w : World) (owner : loc) (new : list loc) :
  forall h : gmap loc GSAnchor.t,
  (forall r, r ∈ new -> is_Some (h !! r)) ->
  exists h',
    AnchorsProxy.adopt owner new (with_anchors h w)
    = Return tt (with_anchors h' w)
    /\ (forall r a, h !! r = Some a ->
          h' !! r = Some (if decide (r ∈ new)
                          then set_parent a (Some owner) else a)).
Proof.
  induction new as [|r0 new IH]; intros h Hvalid.
  - exists h. split; [reflexivity|]. intros r a Ha.
    rewrite decide_False by (intros Hin; inversion Hin). exact Ha.
  - destruct (Hvalid r0 ltac:(left)) as [a0 Ha0].
    destruct (IH (<[r0 := set_parent a0 (Some owner)]> h))
      as (h' & Hrun & Hh').
    { intros r Hr. destruct (decide (r = r0)) as [->|Hne].
      - rewrite lookup_insert_eq. eauto.
      - rewrite lookup_insert_ne by congruence. apply Hvalid. right. exact Hr. }
    exists h'. split.
    + simpl. unfold get_anchor.
      rewrite (bind_Return _ _ _ _ _
                 (deref_Some anchors r0 a0 (with_anchors h w) Ha0)).
      exact Hrun.
    + intros r a Ha. destruct (decide (r = r0)) as [->|Hne].
      * rewrite Ha0 in Ha. injection Ha as <-.
        rewrite (Hh' r0 _ (lookup_insert_eq _ _ _)).
        rewrite (decide_True (P := r0 ∈ r0 :: new)) by (left).
        destruct (decide (r0 ∈ new)); reflexivity.
      * rewrite (Hh' r a) by (rewrite lookup_insert_ne by congruence; exact Ha).
        destruct (decide (r ∈ new)) as [Hin|Hnin].
        -- rewrite decide_True by (right; exact Hin). reflexivity.
        -- rewrite decide_False; [reflexivity|].
           intros Hin. apply elem_of_cons in Hin as [?|?]; contradiction.
Qed.

Lemma with_anchors_same (w : World) : with_anchors (anchors w) w = w.
Proof. destruct w. reflexivity. Qed.

(** X5. [extend] puts the anchors at the end of the list in the order given and
    makes the layer the parent of each; it looks at no name, so anchors
    without a name and names already on the layer are taken as they come. *)
Theorem anchor_extend (w : World) (owner : loc) (l : GSLayer.t)
  (new : list loc) :
  layers w !! owner = Some l ->
  anchors_in_store w new ->
  exists w' l',
    AnchorsProxy.extend owner new w = Return tt w'
    /\ layers w' !! owner = Some l'
    /\ GSLayer._anchors l' = GSLayer._anchors l ++ new
    /\ forall r a, r ∈ new -> anchors w !! r = Some a ->
         anchors w' !! r = Some (set_parent a (Some owner)).
Proof.
  intros Hl Hvalid.
  destruct (adopt_run w owner new (anchors w) Hvalid) as (h' & Hrun & Hh').
  rewrite with_anchors_same in Hrun.
  eexists _, _. split.
  - unfold AnchorsProxy.extend. rewrite (bind_Return _ _ _ _ _ Hrun).
    unfold get_layer.
    rewrite (bind_Return _ _ _ _ _
               (deref_Some layers owner l (with_anchors h' w) Hl)).
    reflexivity.
  - simpl. split; [apply lookup_insert_eq|]. split; [reflexivity|].
    intros r a Hr Ha. rewrite (Hh' r a Ha). rewrite decide_True by exact Hr.
    reflexivity.
Qed.

End AnchorsMore.

Ltac all_in_store :=
  let r := fresh "r" in
  let Hr := fresh "Hr" in
  intros r Hr;
  repeat (apply elem_of_cons in Hr as [->|Hr]; [eexists; reflexivity|]);
  inversion Hr.

Lemma anchor_setitem_then_getitem_witness :
  layers top_world !! 0%nat = Some (a_layer [0%nat])
  /\ anchors top_world !! 2%nat = Some (an_anchor "bottom" 0 0)
  /\ exists w' a',
       AnchorsProxy.__setitem__ 0%nat (VStr "top") 2%nat top_world
       = Return tt w'
       /\ AnchorsProxy.__getitem__ 0%nat (VStr "top") w'
          = Return (Some 2%nat) w'
       /\ anchors w' !! 2%nat = Some a'
       /\ GSAnchor.name a' = Some "top"%string
       /\ GSAnchor.position a' = GSAnchor.position (an_anchor "bottom" 0 0).
Proof.
  split; [reflexivity|]. split; [reflexivity|].
  apply (anchor_setitem_then_getitem top_world 0%nat 2%nat (a_layer [0%nat])
           (an_anchor "bottom" 0 0) "top" eq_refl eq_refl).
  all_in_store.
Defined.

Lemma append_keeps_anchor_names_distinct_witness :
  NoDup (anchor_names top_world [0%nat])
  /\ exists w' l',
       LayerAnchorsProxy.append 0%nat 2%nat top_world = Return tt w'
       /\ layers w' !! 0%nat = Some l'
       /\ NoDup (anchor_names w' (GSLayer._anchors l'))
       /\ 2%nat ∈ GSLayer._anchors l'.
Proof.
  assert (Hnodup : NoDup (anchor_names top_world [0%nat]))
    by apply NoDup_singleton.
  split; [exact Hnodup|].
  eexists.
  assert (Hrun : LayerAnchorsProxy.append 0%nat 2%nat top_world
                 = Return tt
                     (with_layers
                        {[ 0%nat := a_layer [0%nat; 2%nat] ]} top_world))
    by reflexivity.
  destruct (append_keeps_anchor_names_distinct top_world _ 0%nat 2%nat
              (a_layer [0%nat]) (an_anchor "bottom" 0 0) eq_refl eq_refl
              ltac:(all_in_store) Hnodup Hrun) as (l' & H1 & H2 & H3).
  exists l'. split; [exact Hrun|]. repeat split; assumption.
Defined.

Lemma anchor_delitem_by_name_witness :
  layers top_world !! 0%nat = Some (a_layer [0%nat])
  /\ (exists w' l' a',
        AnchorsProxy.__delitem__ 0%nat (VStr "top") top_world = Return tt w'
        /\ layers w' !! 0%nat = Some l'
        /\ GSLayer._anchors l' = []
        /\ anchors w' !! 0%nat = Some a'
        /\ GSAnchor._parent a' = None)
  /\ AnchorsProxy.__delitem__ 0%nat (VStr "bottom") top_world
     = Return tt top_world.
Proof.
  split; [reflexivity|].
  destruct (anchor_delitem_by_name top_world 0%nat (a_layer [0%nat]) "top"
              eq_refl ltac:(all_in_store)) as (Hfound & _).
  destruct (anchor_delitem_by_name top_world 0%nat (a_layer [0%nat]) "bottom"
              eq_refl ltac:(all_in_store)) as (_ & Hmissing).
  split.
  - destruct (Hfound 0%nat 0%nat (an_anchor "top" 0 700) eq_refl eq_refl
                eq_refl) as (w' & l' & a' & H1 & H2 & H3 & _ & H5 & H6).
    { intros j r' a' Hj. lia. }
    exists w', l', a'. repeat split; assumption.
  - apply Hmissing. intros r a Hr.
    apply list_elem_of_singleton in Hr as ->. intros Ha.
    vm_compute in Ha. injection Ha as <-. discriminate.
Defined.

Lemma anchor_pop_witness :
  layers top_world !! 0%nat = Some (a_layer [0%nat])
  /\ (exists w' l',
        AnchorsProxy.pop 0%nat (VInt (-1)) top_world = Return (Some 0%nat) w'
        /\ layers w' !! 0%nat = Some l'
        /\ GSLayer._anchors l' = []
        /\ anchors w' = anchors top_world)
  /\ AnchorsProxy.pop 0%nat (VInt 1) top_world = Raised IndexError top_world.
Proof.
  split; [reflexivity|].
  destruct (anchor_pop top_world 0%nat (a_layer [0%nat]) (-1) eq_refl)
    as (Hin & _).
  destruct (anchor_pop top_world 0%nat (a_layer [0%nat]) 1 eq_refl)
    as (_ & Hout).
  split.
  - apply (Hin 0%nat); [simpl; lia|reflexivity].
  - apply Hout. right. simpl. lia.
Defined.

Lemma anchor_extend_witness :
  layers unnamed_world !! 0%nat = Some (a_layer [0%nat])
  /\ exists w' l',
       AnchorsProxy.extend 0%nat [1%nat] unnamed_world = Return tt w'
       /\ layers w' !! 0%nat = Some l'
       /\ GSLayer._anchors l' = [0%nat; 1%nat]
       /\ anchors w' !! 1%nat
          = Some (LayerAnchorsProxy.set_parent (an_anchor "" 5 5) (Some 0%nat)).
Proof.
  split; [reflexivity|].
  destruct (anchor_extend unnamed_world 0%nat (a_layer [0%nat]) [1%nat]
              eq_refl ltac:(all_in_store)) as (w' & l' & H1 & H2 & H3 & H4).
  exists w', l'. split; [exact H1|]. split; [exact H2|]. split; [exact H3|].
  apply (H4 1%nat (an_anchor "" 5 5)); [left|reflexivity].
Defined.

(** ** Deleting custom parameters *)

Section ParameterDeletion.
Import CustomParametersProxy.

Lemma py_remove_first (r : loc) (pre rest : list loc) :
  r ∉ pre -> AnchorsProxy.py_remove r (pre ++ r :: rest) = Ok (pre ++ rest).
Proof.
  induction pre as [|y pre IH]; simpl; intros Hnotin.
  - rewrite Nat.eqb_refl. reflexivity.
  - apply not_elem_of_cons in Hnotin as [Hne Hnotin].
    rewrite (proj2 (Nat.eqb_neq y r)) by congruence.
    rewrite (IH Hnotin). reflexivity.
Qed.

Lemma del_loop_no_match (o : owner) (key : pyval) (w : World)
  (ps : list loc) :
  values o w = Return ps w ->
  forall fuel index,
  (forall j r, (index <= j)%nat -> ps !! j = Some r ->
     exists p, parameters w !! r = Some p
               /\ py_eq (GSCustomParameter.name p) key = false) ->
  ParametersProxy.del_loop fuel o key index w = Return tt w.
Proof.
  intros Hvalues. induction fuel as [|fuel IH]; intros index Hnone;
    [reflexivity|].
  simpl. rewrite (bind_Return _ _ _ _ _ Hvalues).
  destruct (ps !! index) as [r|] eqn:Hr; [|reflexivity].
  destruct (Hnone index r ltac:(lia) Hr) as (p & Hp & Hn).
  unfold get_parameter.
  rewrite (bind_Return _ _ _ _ _ (deref_Some parameters _ _ _ Hp)), Hn.
  apply IH. intros j r' Hj. apply Hnone. lia.
Qed.

(** The loop ends by itself within as many turns as the list has elements
    left: more fuel changes nothing. *)
Lemma del_loop_fuel (o : owner) (key : pyval) :
  forall fuel fuel' index w ps,
  values o w = Return ps w ->
  (length ps <= index + fuel)%nat ->
  (fuel <= fuel')%nat ->
  ParametersProxy.del_loop fuel' o key index w
  = ParametersProxy.del_loop fuel o key index w.
Proof.
  induction fuel as [|fuel IH]; intros fuel' index w ps Hvalues Hlen Hle.
  - simpl. destruct fuel' as [|fuel']; [reflexivity|]. simpl.
    rewrite (bind_Return _ _ _ _ _ Hvalues).
    rewrite lookup_ge_None_2 by lia. reflexivity.
  - destruct fuel' as [|fuel']; [lia|]. simpl.
    rewrite !(bind_Return _ _ _ _ _ Hvalues).
    destruct (ps !! index) as [r|] eqn:Hr; [|reflexivity].
    destruct (parameters w !! r) as [p|] eqn:Hp.
    2:{ assert (Hget : get_parameter r w = Raised DanglingReference w)
          by (unfold get_parameter, deref; rewrite Hp; reflexivity).
        rewrite !(bind_Raised_in _ _ _ _ _ Hget). reflexivity. }
    unfold get_parameter.
    rewrite !(bind_Return _ _ _ _ _ (deref_Some parameters _ _ _ Hp)).
    destruct (py_eq _ _).
    + destruct (AnchorsProxy.py_remove r ps) as [rest|e] eqn:Hrm.
      2:{ rewrite !(bind_Raised_in (lift (Err e)) _ w e w eq_refl).
          reflexivity. }
      rewrite !(bind_Return (lift (Ok rest)) _ w rest w eq_refl).
      destruct (values_set_values o ps rest w Hvalues)
        as (w1 & Hset & Hvalues1 & _).
      rewrite !(bind_Return _ _ _ _ _ Hset).
      apply (IH fuel' (S index) w1 rest Hvalues1); [|lia].
      assert (Hshort : S (length rest) = length ps).
      { clear -Hrm. revert rest Hrm.
        induction ps as [|y ps IHps]; simpl; intros rest Hrm; [discriminate|].
        destruct (Nat.eqb y r); [injection Hrm as <-; reflexivity|].
        destruct (AnchorsProxy.py_remove r ps) as [rest0|] eqn:Hrest0;
          [|discriminate].
        injection Hrm as <-. simpl. rewrite (IHps rest0 eq_refl).
        reflexivity. }
      lia.
    + apply (IH fuel' (S index) w ps Hvalues); lia.
Qed.

Lemma del_loop_removes (o : owner) (key : pyval) (w : World)
  (pre rest : list loc) (r : loc) (p : GSCustomParameter.t) :
  values o w = Return (pre ++ r :: rest) w ->
  r ∉ pre ->
  parameters w !! r = Some p ->
  py_eq (GSCustomParameter.name p) key = true ->
  (forall r', r' ∈ pre ++ drop 1 rest ->
     exists p', parameters w !! r' = Some p'
                /\ py_eq (GSCustomParameter.name p') key = false) ->
  forall k index fuel,
  (index + k = length pre)%nat ->
  exists w',
    ParametersProxy.del_loop (k + S fuel) o key index w = Return tt w'
    /\ values o w' = Return (pre ++ rest) w'
    /\ parameters w' = parameters w.
Proof.
  intros Hvalues Hnotin Hp Hmatch Hothers.
  induction k as [|k IH]; intros index fuel Hindex.
  - simpl. rewrite (bind_Return _ _ _ _ _ Hvalues).
    assert (Hat : (pre ++ r :: rest) !! index = Some r).
    { rewrite lookup_app_r by lia.
      replace (index - length pre)%nat with 0%nat by lia. reflexivity. }
    rewrite Hat. unfold get_parameter.
    rewrite (bind_Return _ _ _ _ _ (deref_Some parameters _ _ _ Hp)), Hmatch.
    rewrite (py_remove_first r pre rest Hnotin).
    rewrite (bind_Return (lift (Ok (pre ++ rest))) _ w _ w eq_refl).
    destruct (values_set_values o _ (pre ++ rest) w Hvalues)
      as (w1 & Hset & Hvalues1 & Hheap).
    rewrite (bind_Return _ _ _ _ _ Hset).
    exists w1. split; [|split; assumption].
    apply (del_loop_no_match o key w1 (pre ++ rest) Hvalues1).
    intros j r' Hj Hr'. rewrite Hheap. apply Hothers.
    rewrite lookup_app_r in Hr' by lia.
    apply elem_of_app. right.
    apply list_elem_of_lookup. exists (j - length pre - 1)%nat.
    rewrite lookup_drop. rewrite <- Hr'. f_equal. lia.
  - simpl. rewrite (bind_Return _ _ _ _ _ Hvalues).
    destruct (pre !! index) as [r'|] eqn:Hr'.
    2:{ apply lookup_ge_None_1 in Hr'. lia. }
    rewrite (lookup_app_l_Some _ _ _ _ Hr').
    destruct (Hothers r') as (p' & Hp' & Hn').
    { apply elem_of_app. left. eapply list_elem_of_lookup_2, Hr'. }
    unfold get_parameter.
    rewrite (bind_Return _ _ _ _ _ (deref_Some parameters _ _ _ Hp')), Hn'.
    apply IH. lia.
Qed.

(** X6. Deleting by name takes the first parameter of that name off the list;
    the walk then steps over the parameter that followed it.  So when no
    other parameter has the name, the name is gone; but when the parameter
    right after the removed one has the name too, it stays and the name is
    still found. *)
Theorem parameter_delitem_by_name
  (w : World) (o : owner) (pre rest : list loc) (r : loc)
  (p : GSCustomParameter.t) (s : string) :
  values o w = Return (pre ++ r :: rest) w ->
  r ∉ pre ->
  parameters w !! r = Some p ->
  GSCustomParameter.name p = VStr s ->
  (forall r', r' ∈ pre ++ drop 1 rest ->
     exists p', parameters w !! r' = Some p'
                /\ GSCustomParameter.name p' <> VStr s) ->
  exists w',
    ParametersProxy.__delitem__ o (VStr s) w = Return tt w'
    /\ values o w' = Return (pre ++ rest) w'
    /\ parameters w' = parameters w
    /\ ((forall r', head rest = Some r' ->
           exists p', parameters w !! r' = Some p'
                      /\ GSCustomParameter.name p' <> VStr s) ->
        lookup o (VStr s) w' = Return VNone w')
    /\ (forall r' p', head rest = Some r' ->
          parameters w !! r' = Some p' ->
          GSCustomParameter.name p' = VStr s ->
          lookup o (VStr s) w' = Return (GSCustomParameter._value p') w').
Proof.
  intros Hvalues Hnotin Hp Hname Hothers.
  assert (Hothers' : forall r', r' ∈ pre ++ drop 1 rest ->
            exists p', parameters w !! r' = Some p'
                       /\ py_eq (GSCustomParameter.name p') (VStr s) = false).
  { intros r' Hr'. destruct (Hothers r' Hr') as (p' & Hp' & Hn').
    exists p'. split; [exact Hp'|]. apply py_eq_str_false, Hn'. }
  destruct (del_loop_removes o (VStr s) w pre rest r p Hvalues Hnotin Hp
              (proj2 (py_eq_str _ _) Hname) Hothers'
              (length pre) 0%nat (length rest) eq_refl)
    as (w' & Hrun & Hvalues' & Hheap).
  exists w'. split; [|split; [exact Hvalues'|split; [exact Hheap|split]]].
  - unfold ParametersProxy.__delitem__. simpl.
    rewrite (bind_Return _ _ _ _ _ Hvalues).
    rewrite length_app. simpl. exact Hrun.
  - intros Hhead. unfold lookup. rewrite (bind_Return _ _ _ _ _ Hvalues').
    apply scan_absent. intros r' Hr'. rewrite Hheap.
    apply elem_of_app in Hr' as [Hr'|Hr'].
    + apply Hothers'. apply elem_of_app. left. exact Hr'.
    + destruct rest as [|x rest]; [inversion Hr'|].
      apply elem_of_cons in Hr' as [->|Hr'].
      * destruct (Hhead x eq_refl) as (p' & Hp' & Hn').
        exists p'. split; [exact Hp'|]. apply py_eq_str_false, Hn'.
      * apply Hothers'. apply elem_of_app. right. exact Hr'.
  - intros r' p' Hhead Hp' Hn'. unfold lookup.
    rewrite (bind_Return _ _ _ _ _ Hvalues').
    destruct rest as [|x rest]; [discriminate|]. injection Hhead as ->.
    apply (scan_found w' _ (VStr s) (length pre) r' p').
    + rewrite lookup_app_r by lia. rewrite Nat.sub_diag. reflexivity.
    + rewrite Hheap. exact Hp'.
    + apply py_eq_str, Hn'.
    + intros j r0 Hj Hr0. rewrite lookup_app_l in Hr0 by exact Hj.
      rewrite Hheap. apply Hothers'. apply elem_of_app. left.
      eapply list_elem_of_lookup_2, Hr0.
Qed.

(** X7. The edges of deletion: a name that no parameter has is no error and
    changes nothing; a position in the list removes the parameter there, a
    position outside it raises [IndexError]; a key that is neither raises
    [KeyError]. *)
Theorem parameter_delitem_edges
  (w : World) (o : owner) (ps : list loc) (s : string) :
  values o w = Return ps w ->
  ((forall r, r ∈ ps ->
      exists p, parameters w !! r = Some p
                /\ GSCustomParameter.name p <> VStr s) ->
   ParametersProxy.__delitem__ o (VStr s) w = Return tt w)
  /\ (forall i r, ps !! i = Some r ->
        exists w',
          ParametersProxy.__delitem__ o (VInt (Z.of_nat i)) w = Return tt w'
          /\ values o w' = Return (delete i ps) w'
          /\ parameters w' = parameters w)
  /\ (forall i,
        i < - Z.of_nat (length ps) \/ Z.of_nat (length ps) <= i ->
        ParametersProxy.__delitem__ o (VInt i) w = Raised IndexError w)
  /\ ParametersProxy.__delitem__ o VNone w = Raised KeyError w.
Proof.
  intros Hvalues. split; [|split; [|split]].
  - intros Hnone. unfold ParametersProxy.__delitem__. simpl.
    rewrite (bind_Return _ _ _ _ _ Hvalues).
    apply (del_loop_no_match o (VStr s) w ps Hvalues).
    intros j r _ Hr.
    destruct (Hnone r (list_elem_of_lookup_2 _ _ _ Hr)) as (p & Hp & Hn).
    exists p. split; [exact Hp|]. apply py_eq_str_false, Hn.
  - intros i r Hi. pose proof (lookup_lt_Some _ _ _ Hi) as Hlt.
    destruct (values_set_values o ps (delete i ps) w Hvalues)
      as (w' & Hset & Hvalues' & Hheap).
    exists w'. split; [|split; assumption].
    unfold ParametersProxy.__delitem__. simpl.
    rewrite (bind_Return _ _ _ _ _ Hvalues).
    unfold AnchorsProxy.py_delete.
    replace (Z.of_nat i <? 0) with false by (symmetry; apply Z.ltb_ge; lia).
    replace ((0 <=? Z.of_nat i) && (Z.of_nat i <? Z.of_nat (length ps)))
      with true by (symmetry; apply andb_true_iff; split; lia).
    rewrite Nat2Z.id.
    rewrite (bind_Return (lift (Ok (delete i ps))) _ w _ w eq_refl).
    exact Hset.
  - intros i Hout. unfold ParametersProxy.__delitem__. simpl.
    rewrite (bind_Return _ _ _ _ _ Hvalues).
    unfold AnchorsProxy.py_delete.
    replace ((0 <=? (if i <? 0 then Z.of_nat (length ps) + i else i))
             && ((if i <? 0 then Z.of_nat (length ps) + i else i)
                 <? Z.of_nat (length ps)))
      with false
      by (symmetry; apply andb_false_iff; destruct (Z.ltb_spec i 0); lia).
    reflexivity.
  - reflexivity.
Qed.

End ParameterDeletion.

Section SetThenDelete.
Import CustomParametersProxy.
Context `{Imports}.

Lemma setitem_new_name_fresh
  (w : World) (o : owner) (ps : list loc) (nm : string) (value v : pyval) :
  values o w = Return ps w ->
  (forall r, r ∈ ps -> is_Some (parameters w !! r)) ->
  (forall r p, r ∈ ps -> parameters w !! r = Some p ->
     GSCustomParameter.name p <> VStr nm) ->
  CustomParameter.cast (VStr nm) value = Ok v ->
  exists w' r',
    __setitem__ o (VStr nm) value w = Return tt w'
    /\ values o w' = Return (ps ++ [r']) w'
    /\ (r' ∉ ps)
    /\ parameters w'
       = <[r' := GSCustomParameter.mk (VStr nm) v]> (parameters w).
Proof.
  intros Hvalues Hvalid Hnone Hcast.
  pose proof (getitem_name_absent w o ps nm Hvalues Hvalid Hnone) as Hget.
  set (r' := fresh (dom (parameters w))).
  set (heap := <[r' := GSCustomParameter.mk (VStr nm) v]> (parameters w)).
  assert (Hfresh : parameters w !! r' = None).
  { apply not_elem_of_dom. apply is_fresh. }
  pose proof (values_with_parameters o ps w heap Hvalues) as Hvalues1.
  destruct (values_set_values o ps (ps ++ [r']) _ Hvalues1)
    as (w' & Hset & Hvalues' & Hheap).
  exists w', r'. split; [|split; [exact Hvalues'|split]].
  - unfold __setitem__. rewrite (bind_Return _ _ _ _ _ Hget).
    unfold CustomParameter.__init__. rewrite Hcast. simpl.
    unfold bind at 1. unfold bind at 1. unfold ret at 1.
    fold r'. fold heap. rewrite (bind_Return _ _ _ _ _ Hvalues1).
    exact Hset.
  - intros Hin. destruct (Hvalid r' Hin) as [p Hp]. congruence.
  - rewrite Hheap. reflexivity.
Qed.

(** X8. Setting a name that the store does not hold and then deleting that name
    gives back the list of parameters the store had, and the name is not
    found any more. *)
Theorem parameter_set_then_delete
  (w : World) (o : owner) (ps : list loc) (nm : string) (value v : pyval) :
  values o w = Return ps w ->
  (forall r, r ∈ ps -> is_Some (parameters w !! r)) ->
  (forall r p, r ∈ ps -> parameters w !! r = Some p ->
     GSCustomParameter.name p <> VStr nm) ->
  CustomParameter.cast (VStr nm) value = Ok v ->
  exists w1 w2,
    __setitem__ o (VStr nm) value w = Return tt w1
    /\ ParametersProxy.__delitem__ o (VStr nm) w1 = Return tt w2
    /\ values o w2 = Return ps w2
    /\ lookup o (VStr nm) w2 = Return VNone w2.
Proof.
  intros Hvalues Hvalid Hnone Hcast.
  destruct (setitem_new_name_fresh w o ps nm value v Hvalues Hvalid Hnone
              Hcast) as (w1 & r' & Hset & Hvalues1 & Hfresh & Hheap1).
  assert (Hold : forall r, r ∈ ps ->
            exists p, parameters w1 !! r = Some p
                      /\ py_eq (GSCustomParameter.name p) (VStr nm) = false).
  { intros r Hr. destruct (Hvalid r Hr) as [p Hp]. exists p. split.
    - rewrite Hheap1. rewrite lookup_insert_ne by (intros ->; contradiction).
      exact Hp.
    - apply py_eq_str_false. eauto. }
  destruct (del_loop_removes o (VStr nm) w1 ps [] r'
              (GSCustomParameter.mk (VStr nm) v) Hvalues1 Hfresh)
    with (k := length ps) (index := 0%nat) (fuel := 0%nat)
    as (w2 & Hrun & Hvalues2 & Hheap2).
  { rewrite Hheap1. apply lookup_insert_eq. }
  { simpl. apply String.eqb_refl. }
  { intros r Hr. rewrite app_nil_r in Hr. apply Hold, Hr. }
  { reflexivity. }
  rewrite app_nil_r in Hvalues2.
  exists w1, w2. split; [exact Hset|]. split; [|split; [exact Hvalues2|]].
  - unfold ParametersProxy.__delitem__. simpl.
    rewrite (bind_Return _ _ _ _ _ Hvalues1).
    rewrite length_app. simpl. exact Hrun.
  - unfold lookup. rewrite (bind_Return _ _ _ _ _ Hvalues2).
    apply scan_absent. intros r Hr. rewrite Hheap2. apply Hold, Hr.
Qed.

End SetThenDelete.

Lemma parameter_delitem_by_name_witness :
  CustomParametersProxy.values (CustomParametersProxy.OfFont 0%nat)
    two_notes_world
  = Return ([] ++ 0%nat :: [1%nat; 2%nat]) two_notes_world
  /\ exists w',
       ParametersProxy.__delitem__ (CustomParametersProxy.OfFont 0%nat)
         (VStr "note") two_notes_world = Return tt w'
       /\ CustomParametersProxy.values (CustomParametersProxy.OfFont 0%nat) w'
          = Return [1%nat; 2%nat] w'
       /\ CustomParametersProxy.lookup (CustomParametersProxy.OfFont 0%nat)
            (VStr "note") w' = Return (VStr "second") w'.
Proof.
  split; [reflexivity|].
  destruct (parameter_delitem_by_name two_notes_world
              (CustomParametersProxy.OfFont 0%nat) [] [1%nat; 2%nat] 0%nat
              (GSCustomParameter.mk (VStr "note") (VStr "first")) "note"
              eq_refl ltac:(intros Hin; inversion Hin) eq_refl eq_refl)
    as (w' & Hrun & Hvalues & _ & _ & Hstays).
  { intros r' Hr'. simpl in Hr'. apply list_elem_of_singleton in Hr' as ->.
    eexists. split; [reflexivity|discriminate]. }
  exists w'. split; [exact Hrun|]. split; [exact Hvalues|].
  apply (Hstays 1%nat (GSCustomParameter.mk (VStr "note") (VStr "second")));
    reflexivity.
Defined.

Lemma parameter_delitem_edges_witness :
  CustomParametersProxy.values (CustomParametersProxy.OfFont 0%nat) upm_world
  = Return [0%nat] upm_world
  /\ ParametersProxy.__delitem__ (CustomParametersProxy.OfFont 0%nat)
       (VStr "xHeight") upm_world = Return tt upm_world
  /\ ParametersProxy.__delitem__ (CustomParametersProxy.OfFont 0%nat)
       (VInt 1) upm_world = Raised IndexError upm_world
  /\ exists w',
       ParametersProxy.__delitem__ (CustomParametersProxy.OfFont 0%nat)
         (VInt 0) upm_world = Return tt w'
       /\ CustomParametersProxy.values (CustomParametersProxy.OfFont 0%nat) w'
          = Return [] w'.
Proof.
  split; [reflexivity|].
  destruct (parameter_delitem_edges upm_world
              (CustomParametersProxy.OfFont 0%nat) [0%nat] "xHeight" eq_refl)
    as (Hmissing & Hpos & Hout & _).
  split; [|split].
  - apply Hmissing. intros r Hr. apply list_elem_of_singleton in Hr as ->.
    eexists. split; [reflexivity|discriminate].
  - apply Hout. right. simpl. lia.
  - destruct (Hpos 0%nat 0%nat eq_refl) as (w' & Hrun & Hvalues & _).
    exists w'. split; assumption.
Defined.

Lemma parameter_set_then_delete_witness :
  CustomParametersProxy.values (CustomParametersProxy.OfFont 0%nat) upm_world
  = Return [0%nat] upm_world
  /\ @CustomParameter.cast sample_imports (VStr "xHeight") (VStr "500")
     = Ok (VInt 500)
  /\ exists w1 w2,
       @CustomParametersProxy.__setitem__ sample_imports
         (CustomParametersProxy.OfFont 0%nat) (VStr "xHeight") (VStr "500")
         upm_world = Return tt w1
       /\ ParametersProxy.__delitem__ (CustomParametersProxy.OfFont 0%nat)
            (VStr "xHeight") w1 = Return tt w2
       /\ CustomParametersProxy.values (CustomParametersProxy.OfFont 0%nat) w2
          = Return [0%nat] w2
       /\ CustomParametersProxy.lookup (CustomParametersProxy.OfFont 0%nat)
            (VStr "xHeight") w2 = Return VNone w2.
Proof.
  split; [reflexivity|]. split; [reflexivity|].
  apply (@parameter_set_then_delete sample_imports upm_world
           (CustomParametersProxy.OfFont 0%nat) [0%nat] "xHeight"
           (VStr "500") (VInt 500) eq_refl).
  - intros r Hr. apply list_elem_of_singleton in Hr as ->.
    eexists. reflexivity.
  - intros r p Hr Hp. apply list_elem_of_singleton in Hr as ->.
    vm_compute in Hp. injection Hp as <-. discriminate.
  - reflexivity.
Defined.

(** ** Other kinds of custom parameters *)

Section OtherParameters.
Import CustomParameter.
Context `{Imports}.

Lemma boolean_name_is_only_boolean (name : string) :
  In name _CUSTOM_BOOL_PARAMS ->
  mem (VStr name) _CUSTOM_INT_PARAMS = false
  /\ mem (VStr name) _CUSTOM_FLOAT_PARAMS = false
  /\ mem (VStr name) _CUSTOM_BOOL_PARAMS = true.
Proof.
  intros Hin. unfold _CUSTOM_BOOL_PARAMS in Hin.
  repeat (destruct Hin as [<-|Hin]; [repeat split; reflexivity|]).
  inversion Hin.
Qed.

(** X9. A parameter with a boolean-coded name takes any value whatever and never
    raises: it stores the truth value of what is assigned, and renders it as
    [1] or [0]. *)
Theorem boolean_parameter_stores_and_renders
  (w : World) (r : loc) (p : GSCustomParameter.t) (name : string)
  (value : pyval) :
  In name _CUSTOM_BOOL_PARAMS ->
  parameters w !! r = Some p ->
  GSCustomParameter.name p = VStr name ->
  exists w',
    setValue r value w = Return tt w'
    /\ getValue r w' = Return (VBool (truthy value)) w'
    /\ plistValue r w'
       = Return (plist_form (plist_name (VStr name))
                   (if truthy value then "1" else "0")) w'.
Proof.
  intros Hin Hp Hname.
  destruct (boolean_name_is_only_boolean name Hin) as (Hint & Hfloat & Hbool).
  set (w' := with_parameters
               (<[r := GSCustomParameter.mk (VStr name)
                         (VBool (truthy value))]> (parameters w)) w).
  assert (Hp' : parameters w' !! r
                = Some (GSCustomParameter.mk (VStr name)
                          (VBool (truthy value))))
    by apply lookup_insert_eq.
  exists w'. split; [|split].
  - unfold setValue, get_parameter.
    rewrite (bind_Return _ _ _ _ _ (deref_Some parameters _ _ _ Hp)).
    rewrite Hname. unfold cast. rewrite Hint, Hfloat, Hbool. reflexivity.
  - unfold getValue, get_parameter.
    rewrite (bind_Return _ _ _ _ _ (deref_Some parameters _ _ _ Hp')).
    reflexivity.
  - unfold plistValue, get_parameter.
    rewrite (bind_Return _ _ _ _ _ (deref_Some parameters _ _ _ Hp')).
    cbn [GSCustomParameter.name GSCustomParameter._value].
    unfold plist_value. rewrite Hint, Hfloat, Hbool.
    cbn [truthy]. destruct (truthy value); reflexivity.
Qed.


End OtherParameters.

Lemma boolean_parameter_stores_and_renders_witness :
  In "isFixedPitch"%string CustomParameter._CUSTOM_BOOL_PARAMS
  /\ exists w',
       @CustomParameter.setValue sample_imports 0%nat (VStr "0")
         (one_parameter_world "isFixedPitch") = Return tt w'
       /\ CustomParameter.getValue 0%nat w' = Return (VBool true) w'
       /\ @CustomParameter.plistValue sample_imports 0%nat w'
          = Return (CustomParameter.plist_form "isFixedPitch" "1") w'.
Proof.
  assert (Hin : In "isFixedPitch"%string CustomParameter._CUSTOM_BOOL_PARAMS)
    by (left; reflexivity).
  split; [exact Hin|].
  apply (@boolean_parameter_stores_and_renders sample_imports
           (one_parameter_world "isFixedPitch") 0%nat
           (GSCustomParameter.mk (VStr "isFixedPitch") VNone) "isFixedPitch"
           (VStr "0") Hin eq_refl eq_refl).
Defined.


(** ** The name of a master: the reads that succeed, and one that cannot *)

Section MasterNameMore.
Import FontMaster.

(** X11. A "Master Name" parameter decides the name, whatever the weight, the
    width and the italic angle are, and the name is cached. *)
Theorem master_name_from_parameter
  (w : World) (self : loc) (m : GSFontMaster.t) (v : pyval) :
  masters w !! self = Some m ->
  GSFontMaster._name m = VNone ->
  CustomParametersProxy.lookup (CustomParametersProxy.OfMaster self)
    (VStr "Master Name") w = Return v w ->
  v <> VNone ->
  name self w
  = Return v (with_masters (<[self := set_name m v]> (masters w)) w)
  /\ name self (with_masters (<[self := set_name m v]> (masters w)) w)
     = Return v (with_masters (<[self := set_name m v]> (masters w)) w).
Proof.
  intros Hm Hname Hpar Hv. split.
  - unfold name, get_master.
    rewrite (bind_Return _ _ _ _ _ (deref_Some masters _ _ _ Hm)).
    rewrite Hname. rewrite (bind_Return _ _ _ _ _ Hpar).
    destruct v; try reflexivity. congruence.
  - apply (name_cached _ self (set_name m v)).
    + simpl. apply lookup_insert_eq.
    + exact Hv.
Qed.

Lemma add_custom_falsy (c : pystr) (names : list pystr) :
  pystr_truthy c = false -> add_custom c names = names.
Proof. intros Hc. unfold add_custom. rewrite Hc. reflexivity. Qed.

(** X12. An upright master without custom names, one of whose weight and width is
    "Regular", is named by the other one. *)
Theorem upright_master_name
  (w : World) (self : loc) (m : GSFontMaster.t) (s : string) :
  masters w !! self = Some m ->
  GSFontMaster._name m = VNone ->
  CustomParametersProxy.lookup (CustomParametersProxy.OfMaster self)
    (VStr "Master Name") w = Return VNone w ->
  is_italic (GSFontMaster.italicAngle m) = false ->
  pystr_truthy (GSFontMaster._custom m) = false ->
  pystr_truthy (GSFontMaster._custom1 m) = false ->
  pystr_truthy (GSFontMaster._custom2 m) = false ->
  (GSFontMaster._weight m = Some s
   /\ GSFontMaster._width m = Some "Regular"%string)
  \/ (GSFontMaster._weight m = Some "Regular"%string
      /\ GSFontMaster._width m = Some s) ->
  name self w
  = Return (VStr s)
      (with_masters (<[self := set_name m (VStr s)]> (masters w)) w).
Proof.
  intros Hm Hname Hpar Hit Hc Hc1 Hc2 Hcase.
  assert (Hcomputed : computed_name m = Ok (VStr s)).
  { unfold computed_name.
    rewrite (add_custom_falsy _ _ Hc), (add_custom_falsy _ _ Hc1),
      (add_custom_falsy _ _ Hc2), Hit.
    destruct Hcase as [[-> ->]|[-> ->]]; cbn [length Nat.ltb Nat.leb].
    - unfold list_remove.
      destruct (pystr_eq (Some s) (Some "Regular"%string)) eqn:Heq.
      + apply pystr_eq_true in Heq. injection Heq as ->. reflexivity.
      + rewrite (proj2 (pystr_eq_true (Some "Regular"%string) _) eq_refl).
        reflexivity.
    - unfold list_remove.
      rewrite (proj2 (pystr_eq_true (Some "Regular"%string) _) eq_refl).
      reflexivity. }
  unfold name, get_master.
  rewrite (bind_Return _ _ _ _ _ (deref_Some masters _ _ _ Hm)).
  rewrite Hname. rewrite (bind_Return _ _ _ _ _ Hpar).
  rewrite Hcomputed. reflexivity.
Qed.

Lemma list_remove_absent (x : pystr) (names : list pystr) :
  x ∉ names -> list_remove x names = Err ValueError.
Proof.
  induction names as [|y names IH]; simpl; intros Hnotin; [reflexivity|].
  apply not_elem_of_cons in Hnotin as [Hne Hnotin].
  rewrite (proj2 (pystr_eq_false y x)) by congruence.
  rewrite (IH Hnotin). reflexivity.
Qed.

Lemma add_custom_elem (c x : pystr) (names : list pystr) :
  x ∈ add_custom c names -> x ∈ names \/ x = c.
Proof.
  unfold add_custom. destruct (_ && _); [|auto].
  intros Hin. apply elem_of_app in Hin as [Hin|Hin]; [auto|].
  apply list_elem_of_singleton in Hin. auto.
Qed.

(** X13. A master with no explicit name and no "Master Name" parameter, none of
    whose name components is "Regular", has no name: the read raises
    [ValueError], upright or not, and nothing is cached. *)
Theorem master_name_without_regular_raises
  (w : World) (self : loc) (m : GSFontMaster.t) :
  masters w !! self = Some m ->
  GSFontMaster._name m = VNone ->
  CustomParametersProxy.lookup (CustomParametersProxy.OfMaster self)
    (VStr "Master Name") w = Return VNone w ->
  GSFontMaster._weight m <> Some "Regular"%string ->
  GSFontMaster._width m <> Some "Regular"%string ->
  GSFontMaster._custom m <> Some "Regular"%string ->
  GSFontMaster._custom1 m <> Some "Regular"%string ->
  GSFontMaster._custom2 m <> Some "Regular"%string ->
  name self w = Raised ValueError w.
Proof.
  intros Hm Hname Hpar Hw Hwd Hc Hc1 Hc2.
  assert (Hcomputed : computed_name m = Err ValueError).
  { unfold computed_name.
    set (names := add_custom _ (add_custom _ (add_custom _ _))).
    assert (Hlong : (1 <? length names)%nat = true).
    { apply Nat.ltb_lt. unfold names, add_custom.
      repeat (destruct (_ && _); rewrite ?length_app; simpl); lia. }
    rewrite Hlong. rewrite list_remove_absent; [reflexivity|].
    intros Hin. unfold names in Hin.
    apply add_custom_elem in Hin as [Hin|Hin]; [|congruence].
    apply add_custom_elem in Hin as [Hin|Hin]; [|congruence].
    apply add_custom_elem in Hin as [Hin|Hin]; [|congruence].
    apply elem_of_cons in Hin as [Hin|Hin]; [congruence|].
    apply list_elem_of_singleton in Hin. congruence. }
  unfold name, get_master.
  rewrite (bind_Return _ _ _ _ _ (deref_Some masters _ _ _ Hm)).
  rewrite Hname. rewrite (bind_Return _ _ _ _ _ Hpar).
  rewrite Hcomputed. reflexivity.
Qed.

End MasterNameMore.

Lemma master_name_from_parameter_witness :
  (exists m, masters named_master_world !! 0%nat = Some m
             /\ FontMaster.is_italic (GSFontMaster.italicAngle m) = true)
  /\ exists w',
       FontMaster.name 0%nat named_master_world = Return (VStr "Display") w'
       /\ FontMaster.name 0%nat w' = Return (VStr "Display") w'.
Proof.
  split; [eexists; split; reflexivity|].
  eexists.
  apply (master_name_from_parameter named_master_world 0%nat _
           (VStr "Display") eq_refl eq_refl eq_refl).
  discriminate.
Defined.

Lemma upright_master_name_witness :
  masters (master_world bold_master) !! 0%nat = Some bold_master
  /\ FontMaster.name 0%nat (master_world bold_master)
     = Return (VStr "Bold")
         (with_masters
            (<[0%nat := FontMaster.set_name bold_master (VStr "Bold")]>
               (masters (master_world bold_master)))
            (master_world bold_master)).
Proof.
  split; [reflexivity|].
  apply (upright_master_name (master_world bold_master) 0%nat bold_master
           "Bold" eq_refl eq_refl eq_refl eq_refl eq_refl eq_refl eq_refl).
  left. split; reflexivity.
Defined.

Lemma master_name_without_regular_raises_witness :
  masters (master_world bold_condensed_master) !! 0%nat
  = Some bold_condensed_master
  /\ FontMaster.name 0%nat (master_world bold_condensed_master)
     = Raised ValueError (master_world bold_condensed_master).
Proof.
  split; [reflexivity|].
  apply (master_name_without_regular_raises
           (master_world bold_condensed_master) 0%nat bold_condensed_master
           eq_refl eq_refl eq_refl); discriminate.
Defined.

(** ** Layers of a glyph: positions, ids, removal *)

Section LayersMore.
Import LayersProxy.

Lemma py_index_in_range {A : Type} (l : list A) (k : Z) :
  0 <= k < Z.of_nat (length l) -> py_index l k = py_index l (k - Z.of_nat (length l)).
Proof.
  intros Hk. unfold py_index.
  replace (k <? 0) with false by (symmetry; apply Z.ltb_ge; lia).
  replace (k - Z.of_nat (length l) <? 0) with true
    by (symmetry; apply Z.ltb_lt; lia).
  replace (Z.of_nat (length l) + (k - Z.of_nat (length l))) with k by lia.
  reflexivity.
Qed.

Lemma py_index_outside {A : Type} (l : list A) (k : Z) :
  k < - Z.of_nat (length l) \/ Z.of_nat (length l) <= k ->
  py_index l k = Err IndexError.
Proof.
  intros Hk. unfold py_index.
  replace ((0 <=? (if k <? 0 then Z.of_nat (length l) + k else k))
           && ((if k <? 0 then Z.of_nat (length l) + k else k)
               <? Z.of_nat (length l)))
    with false
    by (symmetry; apply andb_false_iff; destruct (Z.ltb_spec k 0); lia).
  reflexivity.
Qed.

(** X14. Positions of the layers of a glyph that holds [n] layers: from [0] to
    [n - 1] they count from the front, from [-n] to [-1] from the back, and,
    as a negative position is brought forward twice, from [-2n] to [-n - 1]
    from the back again; every other position raises [IndexError]. *)
Theorem layer_positions (w : World) (owner : loc) (g : GSGlyph.t) (k : Z) :
  glyphs w !! owner = Some g ->
  (forall i r,
      map snd (GSGlyph._layers g) !! i = Some r ->
      k = Z.of_nat i
      \/ k = Z.of_nat i - Z.of_nat (length (GSGlyph._layers g))
      \/ k = Z.of_nat i - 2 * Z.of_nat (length (GSGlyph._layers g)) ->
      GlyphLayerProxy.__getitem__ owner k w = Return r w)
  /\ (k < - (2 * Z.of_nat (length (GSGlyph._layers g)))
      \/ Z.of_nat (length (GSGlyph._layers g)) <= k ->
      GlyphLayerProxy.__getitem__ owner k w = Raised IndexError w).
Proof.
  intros Hg.
  assert (Hlen : length (map snd (GSGlyph._layers g))
                 = length (GSGlyph._layers g)) by apply length_map.
  split.
  - intros i r Hi Hk. pose proof (lookup_lt_Some _ _ _ Hi) as Hlt.
    rewrite Hlen in Hlt.
    unfold GlyphLayerProxy.__getitem__, get_glyph.
    rewrite (bind_Return _ _ _ _ _ (deref_Some glyphs _ _ _ Hg)).
    cbv zeta. rewrite Hlen.
    assert (Hok : py_index (map snd (GSGlyph._layers g)) (Z.of_nat i) = Ok r)
      by apply (py_index_nat _ _ _ Hi).
    destruct Hk as [-> | [-> | ->]].
    + replace (Z.of_nat i <? 0) with false
        by (symmetry; apply Z.ltb_ge; lia).
      rewrite Hok. reflexivity.
    + replace (Z.of_nat i - Z.of_nat (length (GSGlyph._layers g)) <? 0)
        with true by (symmetry; apply Z.ltb_lt; lia).
      replace (Z.of_nat (length (GSGlyph._layers g))
               + (Z.of_nat i - Z.of_nat (length (GSGlyph._layers g))))
        with (Z.of_nat i) by lia.
      rewrite Hok. reflexivity.
    + replace (Z.of_nat i - 2 * Z.of_nat (length (GSGlyph._layers g)) <? 0)
        with true by (symmetry; apply Z.ltb_lt; lia).
      replace (Z.of_nat (length (GSGlyph._layers g))
               + (Z.of_nat i - 2 * Z.of_nat (length (GSGlyph._layers g))))
        with (Z.of_nat i - Z.of_nat (length (map snd (GSGlyph._layers g))))
        by (rewrite Hlen; lia).
      rewrite <- py_index_in_range by (rewrite Hlen; lia).
      rewrite Hok. reflexivity.
  - intros Hk. unfold GlyphLayerProxy.__getitem__, get_glyph.
    rewrite (bind_Return _ _ _ _ _ (deref_Some glyphs _ _ _ Hg)).
    cbv zeta. rewrite Hlen. rewrite py_index_outside; [reflexivity|].
    rewrite Hlen. destruct (Z.ltb_spec k 0); lia.
Qed.

Lemma od_del_found (k : pystr) (v : loc) (pre post : list (pystr * loc)) :
  k ∉ map fst pre -> od_del k (pre ++ (k, v) :: post) = Ok (pre ++ post).
Proof.
  induction pre as [|[k' v'] pre IH]; simpl; intros Hk.
  - rewrite (proj2 (pystr_eq_true k k) eq_refl). reflexivity.
  - apply not_elem_of_cons in Hk as [Hne Hk].
    rewrite (proj2 (pystr_eq_false k' k)) by congruence.
    rewrite (IH Hk). reflexivity.
Qed.

Lemma od_del_absent (k : pystr) (d : list (pystr * loc)) :
  k ∉ map fst d -> od_del k d = Err KeyError.
Proof.
  induction d as [|[k' v'] d IH]; simpl; intros Hk; [reflexivity|].
  apply not_elem_of_cons in Hk as [Hne Hk].
  rewrite (proj2 (pystr_eq_false k' k)) by congruence.
  rewrite (IH Hk). reflexivity.
Qed.

(** X15. Deleting by id takes the entry of that id out of the glyph and touches no
    layer: the layer that leaves keeps its parent and its ids.  An id that
    the glyph does not hold raises [KeyError]. *)
Theorem layer_delitem_by_id
  (w : World) (owner : loc) (g : GSGlyph.t) (key : pystr) :
  glyphs w !! owner = Some g ->
  (forall pre layer post,
      GSGlyph._layers g = pre ++ (key, layer) :: post ->
      key ∉ map fst pre ->
      exists w',
        __delitem__ owner key w = Return tt w'
        /\ glyphs w' !! owner = Some (GSGlyph.mk (GSGlyph.parent g) (pre ++ post))
        /\ layers w' = layers w)
  /\ (key ∉ map fst (GSGlyph._layers g) ->
      __delitem__ owner key w = Raised KeyError w).
Proof.
  intros Hg. split.
  - intros pre layer post Hlayers Hk. eexists. split.
    + unfold __delitem__, get_glyph.
      rewrite (bind_Return _ _ _ _ _ (deref_Some glyphs _ _ _ Hg)).
      rewrite Hlayers, (od_del_found key layer pre post Hk). reflexivity.
    + simpl. split; [apply lookup_insert_eq|reflexivity].
  - intros Hk. unfold __delitem__, get_glyph.
    rewrite (bind_Return _ _ _ _ _ (deref_Some glyphs _ _ _ Hg)).
    rewrite (od_del_absent key _ Hk). reflexivity.
Qed.

(** X16. [remove(layer)] goes by the [layerId] of the layer: the entry filed under
    that id leaves the glyph, whichever layer it holds, and no layer is
    touched; when no entry has that id, nothing happens and nothing is
    raised. *)
Theorem layer_remove
  (w : World) (owner layer : loc) (g : GSGlyph.t) (l : GSLayer.t) :
  glyphs w !! owner = Some g ->
  layers w !! layer = Some l ->
  (forall pre held post,
      GSGlyph._layers g = pre ++ (GSLayer.layerId l, held) :: post ->
      GSLayer.layerId l ∉ map fst pre ->
      exists w',
        remove owner layer w = Return tt w'
        /\ glyphs w' !! owner = Some (GSGlyph.mk (GSGlyph.parent g) (pre ++ post))
        /\ layers w' = layers w)
  /\ (GSLayer.layerId l ∉ map fst (GSGlyph._layers g) ->
      remove owner layer w = Return tt w).
Proof.
  intros Hg Hl. split.
  - intros pre held post Hlayers Hk. eexists. split.
    + unfold remove, removeLayerForKey_, get_layer, get_glyph.
      rewrite (bind_Return _ _ _ _ _ (deref_Some layers _ _ _ Hl)).
      rewrite (bind_Return _ _ _ _ _ (deref_Some glyphs _ _ _ Hg)).
      rewrite Hlayers, (od_del_found _ held pre post Hk). reflexivity.
    + simpl. split; [apply lookup_insert_eq|reflexivity].
  - intros Hk. unfold remove, removeLayerForKey_, get_layer, get_glyph.
    rewrite (bind_Return _ _ _ _ _ (deref_Some layers _ _ _ Hl)).
    rewrite (bind_Return _ _ _ _ _ (deref_Some glyphs _ _ _ Hg)).
    rewrite (od_del_absent _ _ Hk). reflexivity.
Qed.

Lemma od_get_absent (k : pystr) (d : list (pystr * loc)) :
  k ∉ map fst d -> od_get k d = None.
Proof.
  induction d as [|[k' v'] d IH]; simpl; intros Hk; [reflexivity|].
  apply not_elem_of_cons in Hk as [Hne Hk].
  rewrite (proj2 (pystr_eq_false k' k)) by congruence.
  exact (IH Hk).
Qed.

Lemma od_get_found (k : pystr) (v : loc) (pre post : list (pystr * loc)) :
  k ∉ map fst pre -> od_get k (pre ++ (k, v) :: post) = Some v.
Proof.
  induction pre as [|[k' v'] pre IH]; simpl; intros Hk.
  - rewrite (proj2 (pystr_eq_true k k) eq_refl). reflexivity.
  - apply not_elem_of_cons in Hk as [Hne Hk].
    rewrite (proj2 (pystr_eq_false k' k)) by congruence.
    exact (IH Hk).
Qed.

Lemma od_get_od_set (k : pystr) (v : loc) (d : list (pystr * loc)) :
  od_get k (GlyphLayerProxy.od_set k v d) = Some v.
Proof.
  induction d as [|[k' v'] d IH]; simpl.
  - rewrite (proj2 (pystr_eq_true k k) eq_refl). reflexivity.
  - destruct (pystr_eq k' k) eqn:Hk; simpl; rewrite Hk; [reflexivity|exact IH].
Qed.

Lemma od_set_keys (k : pystr) (v : loc) (d : list (pystr * loc)) :
  map fst (GlyphLayerProxy.od_set k v d)
  = if decide (k ∈ map fst d) then map fst d else map fst d ++ [k].
Proof.
  induction d as [|[k' v'] d IH].
  - destruct (decide (k ∈ map fst [])) as [Hin|Hin]; [inversion Hin|reflexivity].
  - change (GlyphLayerProxy.od_set k v ((k', v') :: d))
      with (if pystr_eq k' k then (k', v) :: d
            else (k', v') :: GlyphLayerProxy.od_set k v d).
    change (map fst ((k', v') :: d)) with (k' :: map fst d).
    destruct (pystr_eq k' k) eqn:Hk.
    + apply pystr_eq_true in Hk as ->.
      destruct (decide (k ∈ k :: map fst d)) as [Hin|Hin]; [reflexivity|].
      exfalso. apply Hin. left.
    + apply pystr_eq_false in Hk.
      change (map fst ((k', v') :: GlyphLayerProxy.od_set k v d))
        with (k' :: map fst (GlyphLayerProxy.od_set k v d)).
      rewrite IH.
      destruct (decide (k ∈ map fst d)) as [Hin|Hin];
        destruct (decide (k ∈ k' :: map fst d)) as [Hin'|Hin'];
        try reflexivity.
      * exfalso. apply Hin'. right. exact Hin.
      * exfalso. apply elem_of_cons in Hin' as [->|Hin']; [congruence|tauto].
Qed.

(** The loop over the masters ends with the flag up exactly when it was up
    before or [find_master] finds a master with the id. *)
Lemma mark_master_id_run (w : World) (key : pystr) (ms : list loc) :
  (forall m, m ∈ ms -> is_Some (masters w !! m)) ->
  forall b,
  mark_master_id ms key b w
  = Return (b || match Font.find_master ms key w with
                 | Return (Some _) _ => true
                 | _ => false
                 end) w.
Proof.
  induction ms as [|r ms IH]; intros Hvalid b; simpl.
  - rewrite orb_false_r. reflexivity.
  - destruct (Hvalid r ltac:(left)) as [m Hm]. unfold get_master.
    rewrite !(bind_Return _ _ _ _ _ (deref_Some masters _ _ _ Hm)).
    rewrite IH by (intros m' Hm'; apply Hvalid; right; exact Hm').
    destruct (pystr_eq _ _); [rewrite orb_true_r; reflexivity|reflexivity].
Qed.

Lemma mark_master_id_names (w : World) (g : GSGlyph.t) (font : loc)
  (f : GSFont.t) (key : pystr) :
  GSGlyph.parent g = Some font ->
  fonts w !! font = Some f ->
  (forall m, m ∈ GSFont._masters f -> is_Some (masters w !! m)) ->
  mark_master_id (GSFont._masters f) key false w
  = Return (names_master w g key) w.
Proof.
  intros Hfont Hf Hvalid. rewrite (mark_master_id_run w key _ Hvalid).
  unfold names_master, Font.masterForId, get_font. rewrite Hfont.
  rewrite (bind_Return _ _ _ _ _ (deref_Some fonts _ _ _ Hf)). reflexivity.
Qed.

Lemma layer_setitem_run (w : World) (h : gmap loc GSLayer.t) (owner : loc)
  (g : GSGlyph.t) (r : loc) (l : GSLayer.t) (key : pystr) :
  glyphs w !! owner = Some g ->
  font_in_store w g ->
  h !! r = Some l ->
  __setitem__ owner key r (with_layers h w)
  = Return tt
      (with_glyphs
         (<[owner := GSGlyph.mk (GSGlyph.parent g)
                       (GlyphLayerProxy.od_set key r (GSGlyph._layers g))]>
            (glyphs w))
         (with_layers (<[r := set_up owner key (names_master w g key) l]> h) w)).
Proof.
  intros Hg Hstore Hl. unfold __setitem__.
  rewrite (bind_Return _ _ _ _ _ (setupLayer_run w h owner g r l key Hg Hstore Hl)).
  rewrite (bind_Return _ _ _ _ _ (get_glyph_with_layers _ w owner g Hg)).
  reflexivity.
Qed.

Lemma layer_getitem_held (color0 : option attr) (w : World) (owner : loc)
  (g : GSGlyph.t) (key : pystr) (layer : loc) :
  glyphs w !! owner = Some g ->
  od_get key (GSGlyph._layers g) = Some layer ->
  __getitem__ color0 owner key w = Return (Some layer) w.
Proof.
  intros Hg Hget. unfold __getitem__, get_glyph.
  rewrite (bind_Return _ _ _ _ _ (deref_Some glyphs _ _ _ Hg)).
  rewrite Hget. reflexivity.
Qed.

(** X17. Reading a glyph's layer by id changes nothing when a layer is filed under
    the id (the first such entry is returned), and, on a glyph that is in a
    font, when the id is neither filed nor the id of a master: the answer is
    then [None].  On a glyph that is in no font, an id that is not filed
    raises [AttributeError]. *)
Theorem layer_getitem_by_id
  (color0 : option attr) (w : World) (owner : loc) (g : GSGlyph.t)
  (key : pystr) :
  glyphs w !! owner = Some g ->
  (forall pre layer post,
      GSGlyph._layers g = pre ++ (key, layer) :: post ->
      key ∉ map fst pre ->
      __getitem__ color0 owner key w = Return (Some layer) w)
  /\ (key ∉ map fst (GSGlyph._layers g) ->
      GSGlyph.parent g = None ->
      __getitem__ color0 owner key w = Raised AttributeError w)
  /\ (key ∉ map fst (GSGlyph._layers g) ->
      GSGlyph.parent g <> None ->
      font_in_store w g ->
      names_master w g key = false ->
      __getitem__ color0 owner key w = Return None w).
Proof.
  intros Hg. split; [|split].
  - intros pre layer post Hlayers Hk.
    apply (layer_getitem_held color0 w owner g key layer Hg).
    rewrite Hlayers. apply od_get_found. exact Hk.
  - intros Hk Hparent. unfold __getitem__, get_glyph.
    rewrite (bind_Return _ _ _ _ _ (deref_Some glyphs _ _ _ Hg)).
    rewrite (od_get_absent _ _ Hk), Hparent. reflexivity.
  - intros Hk Hparent Hstore Hno. unfold __getitem__, get_glyph.
    rewrite (bind_Return _ _ _ _ _ (deref_Some glyphs _ _ _ Hg)).
    rewrite (od_get_absent _ _ Hk).
    destruct (GSGlyph.parent g) as [font|] eqn:Hfont; [|congruence].
    destruct (Hstore font Hfont) as (f & Hf & Hvalid). unfold get_font.
    rewrite (bind_Return _ _ _ _ _ (deref_Some fonts _ _ _ Hf)).
    rewrite (bind_Return _ _ _ _ _
               (mark_master_id_names w g font f key Hfont Hf Hvalid)).
    rewrite Hno. reflexivity.
Qed.

(** X18. Reading a glyph's layer by the id of a master of its font, when no layer
    is filed under that id, makes one: a layer that was not in the store
    before, set up as the master layer of that id with the glyph as its
    parent, and filed last in the glyph under the id.  Reading again returns
    the same layer and changes nothing more. *)
Theorem layer_for_master_id_is_made
  (color0 : option attr) (w : World) (owner : loc) (g : GSGlyph.t)
  (key : pystr) :
  glyphs w !! owner = Some g ->
  font_in_store w g ->
  key ∉ map fst (GSGlyph._layers g) ->
  names_master w g key = true ->
  exists layer w',
    __getitem__ color0 owner key w = Return (Some layer) w'
    /\ layers w !! layer = None
    /\ layers w'
       = <[layer := set_up owner key true (new_layer_record color0)]> (layers w)
    /\ glyphs w'
       = <[owner := GSGlyph.mk (GSGlyph.parent g)
                      (GSGlyph._layers g ++ [(key, layer)])]> (glyphs w)
    /\ __getitem__ color0 owner key w' = Return (Some layer) w'.
Proof.
  intros Hg Hstore Hk Hyes.
  destruct (GSGlyph.parent g) as [font|] eqn:Hfont;
    [|unfold names_master in Hyes; rewrite Hfont in Hyes; discriminate].
  destruct (Hstore font Hfont) as (f & Hf & Hvalid).
  set (layer := fresh (dom (layers w))).
  assert (Hfresh : layers w !! layer = None)
    by (apply not_elem_of_dom, is_fresh).
  set (h1 := <[layer := new_layer_record color0]> (layers w)).
  assert (Hset := layer_setitem_run w h1 owner g layer _ key Hg Hstore
                    (lookup_insert_eq _ _ _)).
  rewrite Hyes, (od_set_new _ _ _ Hk) in Hset. unfold h1 in Hset.
  rewrite insert_insert_eq, Hfont in Hset.
  eexists layer, _. split; [|split; [exact Hfresh|]].
  - unfold __getitem__, get_glyph.
    rewrite (bind_Return _ _ _ _ _ (deref_Some glyphs _ _ _ Hg)).
    rewrite (od_get_absent _ _ Hk), Hfont. unfold get_font.
    rewrite (bind_Return _ _ _ _ _ (deref_Some fonts _ _ _ Hf)).
    rewrite (bind_Return _ _ _ _ _
               (mark_master_id_names w g font f key Hfont Hf Hvalid)).
    rewrite Hyes.
    rewrite (bind_Return (new_layer color0) _ w layer
               (with_layers (<[layer := new_layer_record color0]> (layers w)) w)
               eq_refl).
    rewrite (bind_Return _ _ _ _ _ Hset). reflexivity.
  - split; [reflexivity|]. split; [reflexivity|].
    eapply layer_getitem_held.
    + simpl. apply lookup_insert_eq.
    + simpl. apply od_get_found. exact Hk.
Qed.

(** X19. Filing a layer under an id sets the layer up for the glyph (parent, id,
    and master id when the id is that of a master of the font) and the layer
    is what a read by that id then returns.  The ids of the glyph keep their
    order; a new id goes last. *)
Theorem layer_setitem_then_getitem
  (color0 : option attr) (w : World) (owner layer : loc) (g : GSGlyph.t)
  (l : GSLayer.t) (key : pystr) :
  glyphs w !! owner = Some g ->
  font_in_store w g ->
  layers w !! layer = Some l ->
  exists w',
    __setitem__ owner key layer w = Return tt w'
    /\ layers w'
       = <[layer := set_up owner key (names_master w g key) l]> (layers w)
    /\ __getitem__ color0 owner key w' = Return (Some layer) w'
    /\ keys owner w'
       = Return (if decide (key ∈ map fst (GSGlyph._layers g))
                 then map fst (GSGlyph._layers g)
                 else map fst (GSGlyph._layers g) ++ [key]) w'.
Proof.
  intros Hg Hstore Hl.
  assert (Hset := layer_setitem_run w (layers w) owner g layer l key Hg Hstore Hl).
  rewrite with_layers_same in Hset.
  eexists. split; [exact Hset|]. split; [reflexivity|]. split.
  - eapply layer_getitem_held.
    + simpl. apply lookup_insert_eq.
    + simpl. apply od_get_od_set.
  - unfold keys, get_glyph.
    erewrite bind_Return
      by (apply (deref_Some glyphs); simpl; apply lookup_insert_eq).
    simpl. rewrite od_set_keys. reflexivity.
Qed.

End LayersMore.

Ltac not_filed :=
  let H := fresh "H" in
  intros H;
  repeat (apply elem_of_cons in H as [H|H]; [discriminate H|]);
  inversion H.

Lemma two_layers_font_in_store : font_in_store two_layers_world two_layers_glyph.
Proof.
  intros font [= <-]. eexists. split; [reflexivity|]. all_in_store.
Qed.

Lemma layer_positions_witness :
  glyphs two_layers_world !! 0%nat = Some two_layers_glyph
  /\ GlyphLayerProxy.__getitem__ 0%nat (-3) two_layers_world
     = Return 1%nat two_layers_world
  /\ GlyphLayerProxy.__getitem__ 0%nat 2 two_layers_world
     = Raised IndexError two_layers_world.
Proof.
  split; [reflexivity|]. split.
  - apply (proj1 (layer_positions two_layers_world 0%nat two_layers_glyph (-3)
                    eq_refl) 1%nat 1%nat eq_refl).
    right. right. reflexivity.
  - apply (proj2 (layer_positions two_layers_world 0%nat two_layers_glyph 2
                    eq_refl)).
    right. simpl. lia.
Defined.

Lemma layer_delitem_by_id_witness :
  glyphs two_layers_world !! 0%nat = Some two_layers_glyph
  /\ (exists w',
        LayersProxy.__delitem__ 0%nat (Some "M1"%string) two_layers_world
        = Return tt w'
        /\ glyphs w' !! 0%nat
           = Some (GSGlyph.mk (Some 0%nat) [(Some "brace"%string, 1%nat)])
        /\ layers w' = layers two_layers_world)
  /\ LayersProxy.__delitem__ 0%nat (Some "other"%string) two_layers_world
     = Raised KeyError two_layers_world.
Proof.
  split; [reflexivity|]. split.
  - apply (proj1 (layer_delitem_by_id two_layers_world 0%nat two_layers_glyph
                    (Some "M1"%string) eq_refl)
             [] 0%nat [(Some "brace"%string, 1%nat)] eq_refl).
    not_filed.
  - apply (proj2 (layer_delitem_by_id two_layers_world 0%nat two_layers_glyph
                    (Some "other"%string) eq_refl)).
    not_filed.
Defined.

Lemma layer_remove_witness :
  glyphs two_layers_world !! 0%nat = Some two_layers_glyph
  /\ layers two_layers_world !! 2%nat = Some (a_loose_layer "brace")
  /\ layers two_layers_world !! 3%nat = Some (a_loose_layer "other")
  /\ (exists w',
        LayersProxy.remove 0%nat 2%nat two_layers_world = Return tt w'
        /\ glyphs w' !! 0%nat
           = Some (GSGlyph.mk (Some 0%nat) [(Some "M1"%string, 0%nat)])
        /\ layers w' = layers two_layers_world)
  /\ LayersProxy.remove 0%nat 3%nat two_layers_world
     = Return tt two_layers_world.
Proof.
  split; [reflexivity|]. split; [reflexivity|]. split; [reflexivity|]. split.
  - apply (proj1 (layer_remove two_layers_world 0%nat 2%nat two_layers_glyph
                    (a_loose_layer "brace") eq_refl eq_refl)
             [(Some "M1"%string, 0%nat)] 1%nat [] eq_refl).
    not_filed.
  - apply (proj2 (layer_remove two_layers_world 0%nat 3%nat two_layers_glyph
                    (a_loose_layer "other") eq_refl eq_refl)).
    not_filed.
Defined.

Lemma layer_getitem_by_id_witness :
  glyphs two_layers_world !! 0%nat = Some two_layers_glyph
  /\ glyphs orphan_glyph_world !! 0%nat
     = Some (GSGlyph.mk None [(Some "M1"%string, 0%nat)])
  /\ LayersProxy.__getitem__ None 0%nat (Some "brace"%string) two_layers_world
     = Return (Some 1%nat) two_layers_world
  /\ LayersProxy.__getitem__ None 0%nat (Some "M2"%string) orphan_glyph_world
     = Raised AttributeError orphan_glyph_world
  /\ LayersProxy.__getitem__ None 0%nat (Some "other"%string) two_layers_world
     = Return None two_layers_world.
Proof.
  split; [reflexivity|]. split; [reflexivity|].
  destruct (layer_getitem_by_id None two_layers_world 0%nat two_layers_glyph
              (Some "brace"%string) eq_refl) as (Hheld & _ & _).
  destruct (layer_getitem_by_id None orphan_glyph_world 0%nat
              (GSGlyph.mk None [(Some "M1"%string, 0%nat)])
              (Some "M2"%string) eq_refl) as (_ & Horphan & _).
  destruct (layer_getitem_by_id None two_layers_world 0%nat two_layers_glyph
              (Some "other"%string) eq_refl) as (_ & _ & Hnone).
  split; [|split].
  - apply (Hheld [(Some "M1"%string, 0%nat)] 1%nat [] eq_refl). not_filed.
  - apply Horphan; [not_filed|reflexivity].
  - apply Hnone; [not_filed|discriminate|exact two_layers_font_in_store
                 |reflexivity].
Defined.

Lemma layer_for_master_id_is_made_witness :
  glyphs two_layers_world !! 0%nat = Some two_layers_glyph
  /\ names_master two_layers_world two_layers_glyph (Some "M2"%string) = true
  /\ exists layer w',
       LayersProxy.__getitem__ None 0%nat (Some "M2"%string) two_layers_world
       = Return (Some layer) w'
       /\ layers two_layers_world !! layer = None
       /\ layers w' !! layer
          = Some (GSLayer.mk (Some (Some 0%nat)) (Some "M2"%string)
                    (Some "M2"%string) (VStr "Regular") []
                    (GSLayer.__dict__ (LayersProxy.new_layer_record None)))
       /\ glyphs w' !! 0%nat
          = Some (GSGlyph.mk (Some 0%nat)
                    [(Some "M1"%string, 0%nat); (Some "brace"%string, 1%nat);
                     (Some "M2"%string, layer)])
       /\ LayersProxy.__getitem__ None 0%nat (Some "M2"%string) w'
          = Return (Some layer) w'.
Proof.
  split; [reflexivity|]. split; [reflexivity|].
  destruct (layer_for_master_id_is_made None two_layers_world 0%nat
              two_layers_glyph (Some "M2"%string) eq_refl
              two_layers_font_in_store ltac:(not_filed) eq_refl)
    as (layer & w' & Hrun & Hfresh & Hlayers & Hglyphs & Hagain).
  exists layer, w'. split; [exact Hrun|]. split; [exact Hfresh|].
  split; [rewrite Hlayers; apply lookup_insert_eq|].
  split; [rewrite Hglyphs; apply lookup_insert_eq|exact Hagain].
Defined.

Lemma layer_setitem_then_getitem_witness :
  glyphs two_layers_world !! 0%nat = Some two_layers_glyph
  /\ layers two_layers_world !! 2%nat = Some (a_loose_layer "brace")
  /\ exists w',
       LayersProxy.__setitem__ 0%nat (Some "M2"%string) 2%nat two_layers_world
       = Return tt w'
       /\ layers w' !! 2%nat
          = Some (GSLayer.mk (Some (Some 0%nat)) (Some "M2"%string)
                    (Some "M2"%string) (VStr "Regular") [] ∅)
       /\ LayersProxy.__getitem__ None 0%nat (Some "M2"%string) w'
          = Return (Some 2%nat) w'
       /\ LayersProxy.keys 0%nat w'
          = Return [Some "M1"%string; Some "brace"%string; Some "M2"%string] w'.
Proof.
  split; [reflexivity|]. split; [reflexivity|].
  destruct (layer_setitem_then_getitem None two_layers_world 0%nat 2%nat
              two_layers_glyph (a_loose_layer "brace") (Some "M2"%string)
              eq_refl two_layers_font_in_store eq_refl)
    as (w' & Hrun & Hlayers & Hget & Hkeys).
  exists w'. split; [exact Hrun|].
  split; [rewrite Hlayers; apply lookup_insert_eq|].
  split; [exact Hget|]. rewrite Hkeys. f_equal.
Defined.


(** ** Custom parameters: removal, membership, and the note of a font *)

Section ParametersByName.
Import CustomParametersProxy.
Context `{Imports}.

Lemma scan_runs (w : World) (ps : list loc) (key : pyval) :
  (forall r, r ∈ ps -> is_Some (parameters w !! r)) ->
  exists v, scan ps key w = Return v w.
Proof.
  induction ps as [|r ps IH]; intros Hvalid; [eexists; reflexivity|].
  simpl. destruct (Hvalid r ltac:(left)) as [p Hp]. unfold get_parameter.
  rewrite (bind_Return _ _ _ _ _ (deref_Some parameters _ _ _ Hp)).
  destruct (py_eq _ _); [eexists; reflexivity|].
  apply IH. intros r' Hr'. apply Hvalid. right. exact Hr'.
Qed.

Lemma py_remove_absent (r : loc) (l : list loc) :
  r ∉ l -> AnchorsProxy.py_remove r l = Err ValueError.
Proof.
  induction l as [|y l IH]; simpl; intros Hnotin; [reflexivity|].
  apply not_elem_of_cons in Hnotin as [Hne Hnotin].
  rewrite (proj2 (Nat.eqb_neq y r)) by congruence.
  rewrite (IH Hnotin). reflexivity.
Qed.

(** X21. Removing a parameter object takes its first occurrence out of the list
    and touches no parameter; an object that is not in the list raises
    [ValueError].  Removing by name never removes anything: it raises
    [ValueError] whether or not a parameter has that name, and the membership
    test with a name raises [AttributeError]; both leave the store as it
    is. *)
Theorem parameter_remove_and_membership
  (w : World) (o : owner) (ps : list loc) (nm : string) (r : loc) :
  values o w = Return ps w ->
  (forall r, r ∈ ps -> is_Some (parameters w !! r)) ->
  ParametersProxy.remove o (inl nm) w = Raised ValueError w
  /\ ParametersProxy.__contains__ o (inl nm) w = Raised AttributeError w
  /\ (forall pre rest,
        ps = pre ++ r :: rest -> r ∉ pre ->
        exists w',
          ParametersProxy.remove o (inr r) w = Return tt w'
          /\ values o w' = Return (pre ++ rest) w'
          /\ parameters w' = parameters w)
  /\ (r ∉ ps -> ParametersProxy.remove o (inr r) w = Raised ValueError w).
Proof.
  intros Hvalues Hvalid. split; [|split; [reflexivity|split]].
  - destruct (scan_runs w ps (VStr nm) Hvalid) as [v Hv].
    unfold ParametersProxy.remove, __getitem__.
    rewrite (bind_Return _ _ w (ItemValue v) w).
    + rewrite (bind_Return _ _ _ _ _ Hvalues). reflexivity.
    + rewrite (bind_Return _ _ _ _ _ Hvalues). simpl.
      rewrite (bind_Return _ _ _ _ _ Hv). reflexivity.
  - intros pre rest -> Hnotin.
    destruct (values_set_values o _ (pre ++ rest) w Hvalues)
      as (w' & Hset & Hvalues' & Hheap).
    exists w'. split; [|split; assumption].
    unfold ParametersProxy.remove.
    rewrite (bind_Return (ret (ItemObject r)) _ w _ w eq_refl).
    rewrite (bind_Return _ _ _ _ _ Hvalues).
    rewrite (py_remove_first r pre rest Hnotin). exact Hset.
  - intros Hnotin. unfold ParametersProxy.remove.
    rewrite (bind_Return (ret (ItemObject r)) _ w _ w eq_refl).
    rewrite (bind_Return _ _ _ _ _ Hvalues).
    rewrite (py_remove_absent r ps Hnotin). reflexivity.
Qed.

Lemma cast_note (value : pyval) :
  CustomParameter.cast (VStr "note") value = Ok (VStr (str value)).
Proof. reflexivity. Qed.

(** X22. On a font with no custom parameter named "note" the note reads as the
    empty string.  Assigning a value then stores its text, and that text is
    what the note reads as afterwards, whatever was assigned (the text of
    [None] included); a second assignment raises [AttributeError] and changes
    nothing. *)
Theorem note_set_then_read
  (w : World) (font : loc) (ps : list loc) (value again : pyval) :
  values (OfFont font) w = Return ps w ->
  (forall r, r ∈ ps -> is_Some (parameters w !! r)) ->
  (forall r p, r ∈ ps -> parameters w !! r = Some p ->
     GSCustomParameter.name p <> VStr "note") ->
  FontMore.note font w = Return (VStr "") w
  /\ exists w',
       FontMore.set_note font value w = Return tt w'
       /\ FontMore.note font w' = Return (VStr (str value)) w'
       /\ FontMore.set_note font again w' = Raised AttributeError w'.
Proof.
  intros Hvalues Hvalid Hnone. split.
  - unfold FontMore.note.
    rewrite (bind_Return _ _ w VNone w); [reflexivity|].
    unfold lookup. rewrite (bind_Return _ _ _ _ _ Hvalues).
    apply scan_absent. intros r Hr. destruct (Hvalid r Hr) as [p Hp].
    exists p. split; [exact Hp|]. apply py_eq_str_false. eauto.
  - destruct (setitem_new_name_fresh w (OfFont font) ps "note" value _
                Hvalues Hvalid Hnone (cast_note value))
      as (w' & r' & Hset & Hvalues' & Hfresh & Hheap).
    assert (Hr' : parameters w' !! r'
                  = Some (GSCustomParameter.mk (VStr "note")
                            (VStr (str value))))
      by (rewrite Hheap; apply lookup_insert_eq).
    assert (Hold : forall j r0, (j < length ps)%nat ->
              (ps ++ [r']) !! j = Some r0 ->
              exists p', parameters w' !! r0 = Some p'
                         /\ py_eq (GSCustomParameter.name p') (VStr "note")
                            = false).
    { intros j r0 Hj Hr0. rewrite lookup_app_l in Hr0 by exact Hj.
      apply list_elem_of_lookup_2 in Hr0.
      destruct (Hvalid r0 Hr0) as [p Hp]. exists p. split.
      - rewrite Hheap, lookup_insert_ne by (intros ->; contradiction).
        exact Hp.
      - apply py_eq_str_false. eauto. }
    assert (Hat : (ps ++ [r']) !! length ps = Some r').
    { rewrite lookup_app_r by lia. rewrite Nat.sub_diag. reflexivity. }
    assert (Hscan : scan (ps ++ [r']) (VStr "note") w'
                    = Return (VStr (str value)) w').
    { apply (scan_found w' _ _ (length ps) r' _ Hat Hr'); [reflexivity|].
      exact Hold. }
    exists w'. split; [exact Hset|]. split.
    + unfold FontMore.note.
      rewrite (bind_Return _ _ w' (VStr (str value)) w')
        by (unfold lookup; rewrite (bind_Return _ _ _ _ _ Hvalues');
            exact Hscan).
      cbn [truthy]. destruct (String.eqb (str value) "") eqn:Hempty.
      * apply String.eqb_eq in Hempty. rewrite Hempty. reflexivity.
      * reflexivity.
    + unfold FontMore.set_note, __setitem__, __getitem__.
      rewrite (bind_Return _ _ w' (ItemValue (VStr (str value))) w').
      * reflexivity.
      * rewrite (bind_Return _ _ _ _ _ Hvalues'). simpl.
        rewrite (bind_Return _ _ _ _ _ Hscan). reflexivity.
Qed.

End ParametersByName.

Lemma parameter_remove_and_membership_witness :
  CustomParametersProxy.values (CustomParametersProxy.OfFont 0%nat)
    two_notes_world = Return [0%nat; 1%nat; 2%nat] two_notes_world
  /\ ParametersProxy.remove (CustomParametersProxy.OfFont 0%nat)
       (inl "unitsPerEm"%string) two_notes_world
     = Raised ValueError two_notes_world
  /\ ParametersProxy.__contains__ (CustomParametersProxy.OfFont 0%nat)
       (inl "unitsPerEm"%string) two_notes_world
     = Raised AttributeError two_notes_world
  /\ (exists w',
        ParametersProxy.remove (CustomParametersProxy.OfFont 0%nat)
          (inr 1%nat) two_notes_world = Return tt w'
        /\ CustomParametersProxy.values (CustomParametersProxy.OfFont 0%nat) w'
           = Return [0%nat; 2%nat] w'
        /\ parameters w' = parameters two_notes_world).
Proof.
  split; [reflexivity|].
  destruct (parameter_remove_and_membership two_notes_world
              (CustomParametersProxy.OfFont 0%nat) [0%nat; 1%nat; 2%nat]
              "unitsPerEm" 1%nat eq_refl ltac:(all_in_store))
    as (Hname & Hin & Hobject & _).
  split; [exact Hname|]. split; [exact Hin|].
  apply (Hobject [0%nat] [2%nat] eq_refl).
  intros Hin'. apply list_elem_of_singleton in Hin'. discriminate Hin'.
Defined.

Lemma note_set_then_read_witness :
  CustomParametersProxy.values (CustomParametersProxy.OfFont 0%nat) upm_world
  = Return [0%nat] upm_world
  /\ FontMore.note 0%nat upm_world = Return (VStr "") upm_world
  /\ exists w',
       @FontMore.set_note sample_imports 0%nat (VInt 7) upm_world = Return tt w'
       /\ FontMore.note 0%nat w' = Return (VStr "7") w'
       /\ @FontMore.set_note sample_imports 0%nat (VStr "more") w'
          = Raised AttributeError w'.
Proof.
  split; [reflexivity|].
  apply (@note_set_then_read sample_imports upm_world 0%nat [0%nat] (VInt 7)
           (VStr "more") eq_refl).
  - all_in_store.
  - intros r p Hr Hp. apply list_elem_of_singleton in Hr as ->.
    vm_compute in Hp. injection Hp as <-. discriminate.
Defined.

(** ** Taking a glyph into a font *)

Section SetupGlyph.
Import FontMore.

Lemma find_master_with_glyphs (x : gmap loc GSGlyph.t) (w : World)
  (key : pystr) (ms : list loc) :
  Font.find_master ms key (with_glyphs x w)
  = match Font.find_master ms key w with
    | Return a _ => Return a (with_glyphs x w)
    | Raised e _ => Raised e (with_glyphs x w)
    end.
Proof.
  induction ms as [|r ms IH]; simpl; [reflexivity|].
  unfold get_master, deref, bind. simpl.
  destruct (masters w !! r) as [m|]; [|reflexivity].
  destruct (pystr_eq _ _); [reflexivity|exact IH].
Qed.

Lemma names_master_with_glyphs (x : gmap loc GSGlyph.t) (w : World)
  (g : GSGlyph.t) (key : pystr) :
  names_master (with_glyphs x w) g key = names_master w g key.
Proof.
  unfold names_master, Font.masterForId, get_font, deref, bind. simpl.
  destruct (GSGlyph.parent g) as [font|]; [|reflexivity].
  destruct (fonts w !! font) as [f|]; [|reflexivity].
  rewrite find_master_with_glyphs.
  destruct (Font.find_master _ _ w) as [[m|] ?|]; reflexivity.
Qed.

Lemma set_up_twice (owner : loc) (b : bool) (l : GSLayer.t) :
  set_up owner (GSLayer.layerId l) b (set_up owner (GSLayer.layerId l) b l)
  = set_up owner (GSLayer.layerId l) b l.
Proof. unfold set_up. destruct b; reflexivity. Qed.

Lemma setup_layers_run (w : World) (glyph : loc) (g : GSGlyph.t) :
  glyphs w !! glyph = Some g ->
  font_in_store w g ->
  forall (ls : list loc) (h : gmap loc GSLayer.t),
  (forall r, r ∈ ls -> is_Some (h !! r)) ->
  exists h',
    setup_layers glyph ls (with_layers h w) = Return tt (with_layers h' w)
    /\ forall r,
         h' !! r
         = match h !! r with
           | Some l =>
               Some (if bool_decide (r ∈ ls) && lacks_master_id l
                     then set_up glyph (GSLayer.layerId l)
                            (names_master w g (GSLayer.layerId l)) l
                     else l)
           | None => None
           end.
Proof.
  intros Hg Hstore. induction ls as [|r0 ls IH]; intros h Hvalid.
  - exists h. split; [reflexivity|]. intros r.
    destruct (h !! r); reflexivity.
  - destruct (Hvalid r0 ltac:(left)) as [l0 Hl0].
    set (h1 := if lacks_master_id l0
               then <[r0 := set_up glyph (GSLayer.layerId l0)
                              (names_master w g (GSLayer.layerId l0)) l0]> h
               else h).
    assert (Hstep : bind (get_layer r0)
                      (fun l => bind (if lacks_master_id l
                                      then Glyph._setupLayer glyph r0
                                             (GSLayer.layerId l)
                                      else ret tt)
                                  (fun _ => setup_layers glyph ls))
                      (with_layers h w)
                    = setup_layers glyph ls (with_layers h1 w)).
    { rewrite (bind_Return _ _ _ _ _ (get_layer_with_layers h w r0 l0 Hl0)).
      unfold h1. destruct (lacks_master_id l0).
      - rewrite (bind_Return _ _ _ _ _
                   (setupLayer_run w h glyph g r0 l0 _ Hg Hstore Hl0)).
        reflexivity.
      - reflexivity. }
    destruct (IH h1) as (h' & Hrun & Hh').
    { intros r Hr. unfold h1. destruct (lacks_master_id l0).
      - destruct (decide (r = r0)) as [->|Hne].
        + rewrite lookup_insert_eq. eexists. reflexivity.
        + rewrite lookup_insert_ne by congruence.
          apply Hvalid. right. exact Hr.
      - apply Hvalid. right. exact Hr. }
    exists h'. split; [exact (eq_trans Hstep Hrun)|].
    intros r. rewrite Hh'. unfold h1.
    destruct (decide (r = r0)) as [->|Hne].
    + rewrite Hl0. rewrite (bool_decide_eq_true_2 (r0 ∈ r0 :: ls)) by left.
      destruct (lacks_master_id l0) eqn:Hlacks.
      * rewrite lookup_insert_eq. simpl.
        destruct (bool_decide (r0 ∈ ls) && lacks_master_id _);
          [|reflexivity].
        change (GSLayer.layerId (set_up glyph (GSLayer.layerId l0)
                                   (names_master w g (GSLayer.layerId l0)) l0))
          with (GSLayer.layerId l0).
        rewrite set_up_twice. reflexivity.
      * rewrite Hl0, Hlacks, andb_false_r. reflexivity.
    + assert (Hsame : (if lacks_master_id l0
                       then <[r0 := set_up glyph (GSLayer.layerId l0)
                                      (names_master w g (GSLayer.layerId l0))
                                      l0]> h
                       else h) !! r = h !! r).
      { destruct (lacks_master_id l0); [|reflexivity].
        apply lookup_insert_ne. congruence. }
      rewrite Hsame. destruct (h !! r) as [l|]; [|reflexivity].
      assert (Hmem : bool_decide (r ∈ r0 :: ls) = bool_decide (r ∈ ls)).
      { apply bool_decide_ext. rewrite elem_of_cons. tauto. }
      rewrite Hmem. reflexivity.
Qed.

(** X23. [_setupGlyph] makes the font the parent of the glyph and keeps its
    layers.  Of the layers of the glyph, those that have no master id (it is
    [None] or empty) are set up under their own id: the glyph becomes their
    parent, and the id becomes their master id when it is the id of a master
    of the font.  A layer that has a master id already is left as it is, its
    parent included, and so is every layer of the store that is not on the
    glyph. *)
Theorem setupGlyph_adopts
  (w : World) (font glyph : loc) (f : GSFont.t) (g : GSGlyph.t) :
  glyphs w !! glyph = Some g ->
  fonts w !! font = Some f ->
  (forall m, m ∈ GSFont._masters f -> is_Some (masters w !! m)) ->
  (forall r, r ∈ map snd (GSGlyph._layers g) -> is_Some (layers w !! r)) ->
  exists w',
    _setupGlyph font glyph w = Return tt w'
    /\ glyphs w' = <[glyph := GSGlyph.mk (Some font) (GSGlyph._layers g)]>
                     (glyphs w)
    /\ forall r l,
         layers w !! r = Some l ->
         layers w' !! r
         = Some (if bool_decide (r ∈ map snd (GSGlyph._layers g))
                    && lacks_master_id l
                 then set_up glyph (GSLayer.layerId l)
                        (names_master w
                           (GSGlyph.mk (Some font) (GSGlyph._layers g))
                           (GSLayer.layerId l)) l
                 else l).
Proof.
  intros Hg Hf Hvalid Hlayers.
  set (g1 := GSGlyph.mk (Some font) (GSGlyph._layers g)).
  set (w1 := with_glyphs (<[glyph := g1]> (glyphs w)) w).
  assert (Hg1 : glyphs w1 !! glyph = Some g1) by apply lookup_insert_eq.
  assert (Hstore : font_in_store w1 g1).
  { intros font' [= <-]. exists f. split; [exact Hf|exact Hvalid]. }
  destruct (setup_layers_run w1 glyph g1 Hg1 Hstore
              (map snd (GSGlyph._layers g)) (layers w1) Hlayers)
    as (h' & Hrun & Hh').
  rewrite with_layers_same in Hrun.
  exists (with_layers h' w1). split; [|split].
  - unfold _setupGlyph, get_glyph.
    rewrite (bind_Return _ _ _ _ _ (deref_Some glyphs _ _ _ Hg)).
    rewrite (bind_Return (put_glyph glyph g1) _ w tt w1 eq_refl).
    exact Hrun.
  - reflexivity.
  - intros r l Hl. change (layers (with_layers h' w1) !! r) with (h' !! r).
    rewrite Hh'. change (layers w1) with (layers w). rewrite Hl.
    unfold w1. rewrite names_master_with_glyphs. reflexivity.
Qed.

End SetupGlyph.

Lemma setupGlyph_adopts_witness :
  glyphs loose_glyph_world !! 0%nat = Some loose_glyph
  /\ fonts loose_glyph_world !! 0%nat = Some (GSFont.mk [0%nat] 0 [] ∅)
  /\ exists w',
       FontMore._setupGlyph 0%nat 0%nat loose_glyph_world = Return tt w'
       /\ glyphs w' !! 0%nat
          = Some (GSGlyph.mk (Some 0%nat) (GSGlyph._layers loose_glyph))
       /\ layers w' !! 0%nat
          = Some (GSLayer.mk (Some (Some 0%nat)) (Some "M1"%string)
                    (Some "M1"%string) (VStr "Regular") [] ∅)
       /\ layers w' !! 1%nat
          = Some (GSLayer.mk (Some (Some 0%nat)) (Some "brace"%string)
                    (Some ""%string) (VStr "Regular") [] ∅)
       /\ layers w' !! 2%nat = Some old_layer.
Proof.
  split; [reflexivity|]. split; [reflexivity|].
  destruct (setupGlyph_adopts loose_glyph_world 0%nat 0%nat
              (GSFont.mk [0%nat] 0 [] ∅) loose_glyph eq_refl eq_refl
              ltac:(all_in_store) ltac:(all_in_store))
    as (w' & Hrun & Hglyphs & Hlayers).
  exists w'. split; [exact Hrun|].
  split; [rewrite Hglyphs; apply lookup_insert_eq|].
  split; [exact (Hlayers 0%nat _ eq_refl)|].
  split; [exact (Hlayers 1%nat _ eq_refl)|].
  exact (Hlayers 2%nat _ eq_refl).
Defined.

(** ** A new component and what is written of it *)

Section NewComponent.
Context `{Imports}.

Lemma py_eq_int_sym (z : Z) (v : pyval) : py_eq (VInt z) v = py_eq v (VInt z).
Proof. destruct v; simpl; try reflexivity; apply Z.eqb_sym. Qed.

Lemma py_eq_pair (a b c d : pyval) :
  py_eq (VTuple [a; b]) (VTuple [c; d]) = py_eq a c && py_eq b d.
Proof. simpl. rewrite andb_true_r. reflexivity. Qed.

Lemma py_eq_transform (xx yy dx dy : pyval) :
  py_eq (VTuple [VInt 1; VInt 0; VInt 0; VInt 1; VInt 0; VInt 0])
        (VTuple [xx; VInt 0; VInt 0; yy; dx; dy])
  = py_eq xx (VInt 1) && py_eq yy (VInt 1)
    && (py_eq dx (VInt 0) && py_eq dy (VInt 0)).
Proof.
  rewrite <- !py_eq_int_sym.
  change (py_eq (VTuple [VInt 1; VInt 0; VInt 0; VInt 1; VInt 0; VInt 0])
                (VTuple [xx; VInt 0; VInt 0; yy; dx; dy]))
    with (py_eq (VInt 1) xx
          && (true && (true && (py_eq (VInt 1) yy
                                && (py_eq (VInt 0) dx
                                    && (py_eq (VInt 0) dy && true)))))).
  destruct (py_eq (VInt 1) xx), (py_eq (VInt 1) yy), (py_eq (VInt 0) dx),
    (py_eq (VInt 0) dy); reflexivity.
Qed.

Lemma component_getattr (w : World) (r : loc) (d : gmap string attr)
  (key : string) (a : attr) :
  others w !! r = Some d ->
  d !! key = Some a ->
  ComponentPolicy.getattr r key w = Return a w.
Proof.
  intros Hr Hkey. unfold ComponentPolicy.getattr, get_other.
  rewrite (bind_Return _ _ _ _ _ (deref_Some others _ _ _ Hr)).
  unfold dict_getattr. rewrite Hkey. reflexivity.
Qed.

(** X24. A component made from a name, an offset and a scale, with no transform
    given, is a new object of the store; its transform is written exactly
    when the scale is not [(1, 1)] or the offset is not [(0, 0)].  Its name
    is written whatever it is (the empty name too), and its [piece],
    [alignment] and [locked] are not. *)
Theorem new_component_transform_written
  (w : World) (name : string) (xx yy dx dy : pyval) :
  exists r w',
    Component.__init__ (VStr name) (VTuple [dx; dy]) (VTuple [xx; yy])
      (AVal VNone) w = Return r w'
    /\ others w !! r = None
    /\ ComponentPolicy.shouldWriteValueForKey r "transform" w'
       = Return (negb (py_eq xx (VInt 1) && py_eq yy (VInt 1))
                 || negb (py_eq dx (VInt 0) && py_eq dy (VInt 0))) w'
    /\ ComponentPolicy.shouldWriteValueForKey r "name" w' = Return true w'
    /\ ComponentPolicy.shouldWriteValueForKey r "piece" w' = Return false w'
    /\ ComponentPolicy.shouldWriteValueForKey r "alignment" w'
       = Return false w'
    /\ ComponentPolicy.shouldWriteValueForKey r "locked" w' = Return false w'.
Proof.
  set (r := fresh (dom (others w))).
  assert (Hfresh : others w !! r = None) by apply not_elem_of_dom, is_fresh.
  set (moved := negb (py_eq xx (VInt 1) && py_eq yy (VInt 1))
                || negb (py_eq dx (VInt 0) && py_eq dy (VInt 0))).
  assert (Hm : moved
               = negb (py_eq xx (VInt 1) && py_eq yy (VInt 1))
                 || negb (py_eq dx (VInt 0) && py_eq dy (VInt 0)))
    by reflexivity.
  clearbody moved.
  set (t := if moved then VTuple [xx; VInt 0; VInt 0; yy; dx; dy]
            else VTuple [VInt 1; VInt 0; VInt 0; VInt 1; VInt 0; VInt 0]).
  set (d := <["name"%string := AVal (VStr name)]>
              (<["transform"%string := AVal t]> Component.base_attributes)).
  assert (Hwith : Component.with_transform (VTuple [dx; dy]) (VTuple [xx; yy])
                    (AVal VNone)
                  = Ok (<["transform"%string := AVal t]>
                          Component.base_attributes)).
  { unfold Component.with_transform. rewrite !py_eq_pair, <- Hm.
    unfold t. destruct moved; [reflexivity|].
    apply (f_equal Ok). apply map_eq. intros k.
    destruct (decide (k = "transform"%string)) as [->|Hne].
    - rewrite lookup_insert_eq. reflexivity.
    - rewrite lookup_insert_ne by congruence. reflexivity. }
  set (w' := mkWorld (fonts w) (masters w) (glyphs w) (layers w) (anchors w)
               (parameters w) (<[r := d]> (others w))).
  assert (Hr : others w' !! r = Some d) by apply lookup_insert_eq.
  exists r, w'. split; [|split; [exact Hfresh|]].
  - unfold Component.__init__. rewrite Hwith. reflexivity.
  - split; [|split; [|split; [|split]]].
    + unfold ComponentPolicy.shouldWriteValueForKey.
      change (String.eqb "transform" "piece") with false. cbv iota.
      rewrite (base_rule ComponentPolicy.T (ComponentPolicy.getattr r)
                 "transform" w' (AVal t) Ktransform);
        [|apply (component_getattr w' r d _ _ Hr); reflexivity|reflexivity].
      apply (f_equal (fun b => Return b w')).
      change (negb (py_eq (VTuple [VInt 1; VInt 0; VInt 0; VInt 1; VInt 0;
                                   VInt 0]) t) = moved).
      unfold t. destruct moved.
      * rewrite py_eq_transform.
        destruct (py_eq xx (VInt 1)), (py_eq yy (VInt 1)),
          (py_eq dx (VInt 0)), (py_eq dy (VInt 0));
          first [reflexivity | discriminate Hm].
      * reflexivity.
    + unfold ComponentPolicy.shouldWriteValueForKey.
      change (String.eqb "name" "piece") with false. cbv iota.
      rewrite (base_rule ComponentPolicy.T (ComponentPolicy.getattr r)
                 "name" w' (AVal (VStr name)) Kunicode);
        [reflexivity|apply (component_getattr w' r d _ _ Hr)|reflexivity].
      apply lookup_insert_eq.
    + unfold ComponentPolicy.shouldWriteValueForKey.
      change (String.eqb "piece" "piece") with true. cbv iota.
      rewrite (bind_Return _ _ w' (AVal (VDict [])) w');
        [reflexivity|apply (component_getattr w' r d _ _ Hr); reflexivity].
    + unfold ComponentPolicy.shouldWriteValueForKey.
      change (String.eqb "alignment" "piece") with false. cbv iota.
      rewrite (base_rule ComponentPolicy.T (ComponentPolicy.getattr r)
                 "alignment" w' (AVal (VInt 0)) Kint);
        [reflexivity|apply (component_getattr w' r d _ _ Hr); reflexivity
        |reflexivity].
    + unfold ComponentPolicy.shouldWriteValueForKey.
      change (String.eqb "locked" "piece") with false. cbv iota.
      rewrite (base_rule ComponentPolicy.T (ComponentPolicy.getattr r)
                 "locked" w' (AVal (VBool false)) Kbool);
        [reflexivity|apply (component_getattr w' r d _ _ Hr); reflexivity
        |reflexivity].
Qed.

End NewComponent.

(** ** Appending a layer to a glyph *)

Section LayerAppend.
Import LayersProxy.

(** What [append] does once the layer at [layer] has a master id and an
    id. *)
Lemma append_files (uuid4 : pystr) (w : World) (h : gmap loc GSLayer.t)
  (owner layer : loc) (g : GSGlyph.t) (l : GSLayer.t) :
  glyphs w !! owner = Some g ->
  font_in_store w g ->
  h !! layer = Some l ->
  pystr_truthy (GSLayer.layerId l) = true ->
  (do l <- get_layer layer;
   do _ <- (if pystr_truthy (GSLayer.layerId l) then ret tt
            else put_layer layer (set_layerId l uuid4));
   do l <- get_layer layer;
   do _ <- Glyph._setupLayer owner layer (GSLayer.layerId l);
   do l <- get_layer layer;
   do g <- get_glyph owner;
   put_glyph owner
     (GSGlyph.mk (GSGlyph.parent g)
        (GlyphLayerProxy.od_set (GSLayer.layerId l) layer
           (GSGlyph._layers g)))) (with_layers h w)
  = Return tt
      (with_glyphs
         (<[owner := GSGlyph.mk (GSGlyph.parent g)
                       (GlyphLayerProxy.od_set (GSLayer.layerId l) layer
                          (GSGlyph._layers g))]> (glyphs w))
         (with_layers
            (<[layer := set_up owner (GSLayer.layerId l)
                          (names_master w g (GSLayer.layerId l)) l]> h) w)).
Proof.
  intros Hg Hstore Hl Hid.
  rewrite (bind_Return _ _ _ _ _ (get_layer_with_layers h w layer l Hl)).
  rewrite Hid.
  rewrite (bind_Return (ret tt) _ (with_layers h w) tt (with_layers h w)
             eq_refl).
  rewrite (bind_Return _ _ _ _ _ (get_layer_with_layers h w layer l Hl)).
  rewrite (bind_Return _ _ _ _ _
             (setupLayer_run w h owner g layer l _ Hg Hstore Hl)).
  rewrite (bind_Return _ _ _ _ _
             (get_layer_with_layers _ w layer _ (lookup_insert_eq _ _ _))).
  rewrite (bind_Return _ _ _ _ _ (get_glyph_with_layers _ w owner g Hg)).
  reflexivity.
Qed.

(** X25. Appending a layer that has an id files it under that id, last when the
    id is new and in the place of the entry of that id otherwise, with the
    glyph as its parent.  Its master id ends as its own id when that is the
    id of a master of the font; otherwise it keeps the master id it has, and
    a layer that has none takes the id of the first master of the font.  For
    such a layer a glyph that is in no font raises [AttributeError] and a
    font without masters raises [IndexError], and nothing changes. *)
Theorem layer_append
  (uuid4 : pystr) (w : World) (owner layer : loc) (g : GSGlyph.t)
  (l : GSLayer.t) :
  glyphs w !! owner = Some g ->
  font_in_store w g ->
  layers w !! layer = Some l ->
  pystr_truthy (GSLayer.layerId l) = true ->
  (pystr_truthy (GSLayer.associatedMasterId l) = false ->
   GSGlyph.parent g = None ->
   append uuid4 owner layer w = Raised AttributeError w)
  /\ (pystr_truthy (GSLayer.associatedMasterId l) = false ->
      forall font f,
        GSGlyph.parent g = Some font ->
        fonts w !! font = Some f ->
        GSFont._masters f = [] ->
        append uuid4 owner layer w = Raised IndexError w)
  /\ (forall mid,
        (pystr_truthy (GSLayer.associatedMasterId l) = true
         /\ mid = GSLayer.associatedMasterId l)
        \/ (pystr_truthy (GSLayer.associatedMasterId l) = false
            /\ exists font f first rest m,
                 GSGlyph.parent g = Some font
                 /\ fonts w !! font = Some f
                 /\ GSFont._masters f = first :: rest
                 /\ masters w !! first = Some m
                 /\ GSFontMaster.id m = mid) ->
        exists w',
          append uuid4 owner layer w = Return tt w'
          /\ layers w'
             = <[layer := GSLayer.mk (Some (Some owner)) (GSLayer.layerId l)
                            (if names_master w g (GSLayer.layerId l)
                             then GSLayer.layerId l else mid)
                            (GSLayer._name l) (GSLayer._anchors l)
                            (GSLayer.__dict__ l)]> (layers w)
          /\ glyphs w'
             = <[owner := GSGlyph.mk (GSGlyph.parent g)
                            (GlyphLayerProxy.od_set (GSLayer.layerId l) layer
                               (GSGlyph._layers g))]> (glyphs w)).
Proof.
  intros Hg Hstore Hl Hid. split; [|split].
  - intros Hnone Hparent. unfold append, get_layer, get_glyph.
    rewrite (bind_Return _ _ _ _ _ (deref_Some layers _ _ _ Hl)).
    rewrite Hnone.
    apply bind_Raised_in.
    rewrite (bind_Return _ _ _ _ _ (deref_Some glyphs _ _ _ Hg)).
    rewrite Hparent. reflexivity.
  - intros Hnone font f Hparent Hf Hempty. unfold append, get_layer, get_glyph.
    rewrite (bind_Return _ _ _ _ _ (deref_Some layers _ _ _ Hl)).
    rewrite Hnone.
    apply bind_Raised_in.
    rewrite (bind_Return _ _ _ _ _ (deref_Some glyphs _ _ _ Hg)).
    rewrite Hparent. unfold get_font.
    rewrite (bind_Return _ _ _ _ _ (deref_Some fonts _ _ _ Hf)).
    rewrite Hempty. reflexivity.
  - intros mid [[Hsome ->] | [Hnone Hfirst]].
    + pose proof (append_files uuid4 w (layers w) owner layer g l
                    Hg Hstore Hl Hid) as Hrun.
      rewrite with_layers_same in Hrun.
      eexists. split.
      * unfold append.
        rewrite (bind_Return _ _ _ _ _ (deref_Some layers _ _ _ Hl)).
        rewrite Hsome.
        rewrite (bind_Return (ret tt) _ w tt w eq_refl).
        exact Hrun.
      * split; reflexivity.
    + destruct Hfirst as (font & f & first & rest & m & Hparent & Hf & Hms
                          & Hm & <-).
      set (l1 := Glyph.set_associatedMasterId l (GSFontMaster.id m)).
      pose proof (append_files uuid4 w (<[layer := l1]> (layers w)) owner
                    layer g l1 Hg Hstore
                    (lookup_insert_eq _ _ _) Hid) as Hrun.
      rewrite insert_insert_eq in Hrun.
      eexists. split.
      * unfold append.
        rewrite (bind_Return _ _ _ _ _ (deref_Some layers _ _ _ Hl)).
        rewrite Hnone.
        rewrite (bind_Return _ _ w tt
                   (with_layers (<[layer := l1]> (layers w)) w)).
        -- exact Hrun.
        -- unfold get_glyph.
           rewrite (bind_Return _ _ _ _ _ (deref_Some glyphs _ _ _ Hg)).
           rewrite Hparent. unfold get_font.
           rewrite (bind_Return _ _ _ _ _ (deref_Some fonts _ _ _ Hf)).
           rewrite Hms.
           rewrite (bind_Return (lift (py_index (first :: rest) 0)) _ w first
                      w eq_refl).
           unfold get_master.
           rewrite (bind_Return _ _ _ _ _ (deref_Some masters _ _ _ Hm)).
           reflexivity.
      * split; reflexivity.
Qed.

End LayerAppend.

Lemma layer_append_witness :
  glyphs two_layers_world !! 0%nat = Some two_layers_glyph
  /\ layers two_layers_world !! 3%nat = Some (a_loose_layer "other")
  /\ glyphs loose_glyph_world !! 0%nat = Some loose_glyph
  /\ layers loose_glyph_world !! 1%nat = Some (a_loose_layer "brace")
  /\ glyphs no_master_world !! 0%nat = Some (GSGlyph.mk (Some 0%nat) [])
  /\ layers no_master_world !! 0%nat = Some (a_loose_layer "brace")
  /\ (exists w',
        LayersProxy.append None 0%nat 3%nat two_layers_world = Return tt w'
        /\ layers w' !! 3%nat
           = Some (GSLayer.mk (Some (Some 0%nat)) (Some "other"%string)
                     (Some "M1"%string) (VStr "Regular") [] ∅)
        /\ glyphs w' !! 0%nat
           = Some (GSGlyph.mk (Some 0%nat)
                     [(Some "M1"%string, 0%nat); (Some "brace"%string, 1%nat);
                      (Some "other"%string, 3%nat)]))
  /\ LayersProxy.append None 0%nat 1%nat loose_glyph_world
     = Raised AttributeError loose_glyph_world
  /\ LayersProxy.append None 0%nat 0%nat no_master_world
     = Raised IndexError no_master_world.
Proof.
  repeat (split; [reflexivity|]).
  destruct (layer_append None two_layers_world 0%nat 3%nat two_layers_glyph
              (a_loose_layer "other") eq_refl two_layers_font_in_store
              eq_refl eq_refl) as (_ & _ & Hfiled).
  destruct (layer_append None loose_glyph_world 0%nat 1%nat loose_glyph
              (a_loose_layer "brace") eq_refl
              ltac:(intros font Hfont; discriminate Hfont)
              eq_refl eq_refl) as (Horphan & _ & _).
  destruct (layer_append None no_master_world 0%nat 0%nat
              (GSGlyph.mk (Some 0%nat) []) (a_loose_layer "brace") eq_refl
              ltac:(intros font [= <-]; eexists; split;
                    [reflexivity|all_in_store])
              eq_refl eq_refl) as (_ & Hempty & _).
  split; [|split].
  - destruct (Hfiled (Some "M1"%string)) as (w' & Hrun & Hlayers & Hglyphs).
    { right. split; [reflexivity|].
      exists 0%nat, (GSFont.mk [0%nat; 1%nat] 0 [] ∅), 0%nat, [1%nat],
        bold_master.
      repeat split; reflexivity. }
    exists w'. split; [exact Hrun|].
    split; [rewrite Hlayers|rewrite Hglyphs]; apply lookup_insert_eq.
  - apply Horphan; reflexivity.
  - apply (Hempty eq_refl 0%nat new_font); reflexivity.
Defined.

(** ** Anchors that leave a layer by position or as objects *)

Section AnchorsLeave.
Import AnchorsProxy.

Lemma py_delete_at {A : Type} (l : list A) (i : nat) (k : Z) :
  (i < length l)%nat ->
  k = Z.of_nat i \/ k = Z.of_nat i - Z.of_nat (length l) ->
  py_delete l k = Ok (delete i l).
Proof.
  intros Hi Hk. unfold py_delete.
  assert (Hpos : (if k <? 0 then Z.of_nat (length l) + k else k) = Z.of_nat i).
  { destruct Hk as [-> | ->].
    - replace (Z.of_nat i <? 0) with false by (symmetry; apply Z.ltb_ge; lia).
      reflexivity.
    - replace (Z.of_nat i - Z.of_nat (length l) <? 0) with true
        by (symmetry; apply Z.ltb_lt; lia).
      lia. }
  rewrite Hpos.
  replace (0 <=? Z.of_nat i) with true by (symmetry; apply Z.leb_le; lia).
  replace (Z.of_nat i <? Z.of_nat (length l)) with true
    by (symmetry; apply Z.ltb_lt; lia).
  rewrite Nat2Z.id. reflexivity.
Qed.

(** X26. An anchor that is deleted by its position, counted from either end, or
    removed as an object (its first occurrence) leaves the list of the layer,
    and no anchor is touched: unlike deletion by name, the anchor keeps the
    layer as its parent.  Removing an anchor that is not on the layer raises
    [ValueError] and removing by name raises [TypeError]; both change
    nothing. *)
Theorem anchor_leaves_and_keeps_parent
  (w : World) (owner : loc) (l : GSLayer.t) :
  layers w !! owner = Some l ->
  (forall (k : Z) (i : nat),
      (i < length (GSLayer._anchors l))%nat ->
      k = Z.of_nat i
      \/ k = Z.of_nat i - Z.of_nat (length (GSLayer._anchors l)) ->
      exists w',
        __delitem__ owner (VInt k) w = Return tt w'
        /\ layers w' !! owner
           = Some (LayerAnchorsProxy.set_anchors l
                     (delete i (GSLayer._anchors l)))
        /\ anchors w' = anchors w)
  /\ (forall pre r post,
        GSLayer._anchors l = pre ++ r :: post ->
        r ∉ pre ->
        exists w',
          remove owner (inr r) w = Return tt w'
          /\ layers w' !! owner
             = Some (LayerAnchorsProxy.set_anchors l (pre ++ post))
          /\ anchors w' = anchors w)
  /\ (forall r, r ∉ GSLayer._anchors l ->
        remove owner (inr r) w = Raised ValueError w)
  /\ (forall s, remove owner (inl s) w = Raised TypeError w).
Proof.
  intros Hl. split; [|split; [|split]].
  - intros k i Hi Hk. eexists. split.
    + unfold __delitem__, get_layer.
      rewrite (bind_Return _ _ _ _ _ (deref_Some layers _ _ _ Hl)).
      cbn [CustomParametersProxy.as_int].
      rewrite (py_delete_at _ i k Hi Hk). reflexivity.
    + simpl. split; [apply lookup_insert_eq|reflexivity].
  - intros pre r post Hlist Hnotin. eexists. split.
    + unfold remove, get_layer.
      rewrite (bind_Return _ _ _ _ _ (deref_Some layers _ _ _ Hl)).
      rewrite Hlist, (py_remove_first r pre post Hnotin). reflexivity.
    + simpl. split; [apply lookup_insert_eq|reflexivity].
  - intros r Hnotin. unfold remove, get_layer.
    rewrite (bind_Return _ _ _ _ _ (deref_Some layers _ _ _ Hl)).
    rewrite (py_remove_absent r _ Hnotin). reflexivity.
  - intros s. reflexivity.
Qed.

End AnchorsLeave.

Lemma anchor_leaves_and_keeps_parent_witness :
  layers top_world !! 0%nat = Some (a_layer [0%nat])
  /\ (exists w',
        AnchorsProxy.__delitem__ 0%nat (VInt (-1)) top_world = Return tt w'
        /\ layers w' !! 0%nat = Some (a_layer [])
        /\ anchors w' = anchors top_world)
  /\ (exists w',
        AnchorsProxy.remove 0%nat (inr 0%nat) top_world = Return tt w'
        /\ layers w' !! 0%nat = Some (a_layer [])
        /\ anchors w' = anchors top_world)
  /\ AnchorsProxy.remove 0%nat (inr 2%nat) top_world
     = Raised ValueError top_world
  /\ AnchorsProxy.remove 0%nat (inl "top"%string) top_world
     = Raised TypeError top_world.
Proof.
  split; [reflexivity|].
  destruct (anchor_leaves_and_keeps_parent top_world 0%nat (a_layer [0%nat])
              eq_refl) as (Hposition & Hobject & Habsent & Hname).
  split; [|split; [|split]].
  - apply (Hposition (-1) 0%nat); [simpl; lia|right; reflexivity].
  - apply (Hobject [] 0%nat [] eq_refl). intros Hin. inversion Hin.
  - apply Habsent. intros Hin. apply list_elem_of_singleton in Hin.
    discriminate Hin.
  - apply Hname.
Defined.

(** ** User data *)

Section UserDataMore.
Import UserData.

Lemma user_data_read (st : Store) (owner d : loc) (x : gmap string pyval)
  (key : string) :
  _userData st owner = Some d ->
  dicts st !! d = Some x ->
  __getitem__ st owner key = Ok (default VNone (x !! key)).
Proof.
  intros Hd Hx. unfold __getitem__, get_dict. rewrite Hd, Hx. reflexivity.
Qed.

Lemma user_data_write (st : Store) (owner d : loc) (x : gmap string pyval)
  (key : string) (value : pyval) :
  _userData st owner = Some d ->
  dicts st !! d = Some x ->
  __setitem__ st owner key value
  = Ok (mkStore (<[d := <[key := value]> x]> (dicts st)) (of_class st)
          (of_instance st)).
Proof.
  intros Hd Hx. unfold __setitem__, get_dict. rewrite Hd, Hx. reflexivity.
Qed.

(** X27. Instances that have no [_userData] of their own share the dict of their
    class: what is written through one of them is read through every other
    one.  An instance that has its own dict reads what it read before. *)
Theorem user_data_is_shared_by_default
  (st : Store) (writer reader : loc) (x : gmap string pyval) (key : string)
  (value : pyval) :
  of_instance st !! writer = None ->
  of_instance st !! reader = None ->
  dicts st !! of_class st = Some x ->
  exists st',
    __setitem__ st writer key value = Ok st'
    /\ __getitem__ st' reader key = Ok value
    /\ (forall other, other <> key ->
          __getitem__ st' reader other = __getitem__ st reader other)
    /\ (forall o d other,
          of_instance st !! o = Some (Some d) -> d <> of_class st ->
          __getitem__ st' o other = __getitem__ st o other).
Proof.
  intros Hwriter Hreader Hx.
  assert (Hw : _userData st writer = Some (of_class st))
    by (unfold _userData; rewrite Hwriter; reflexivity).
  assert (Hr : _userData st reader = Some (of_class st))
    by (unfold _userData; rewrite Hreader; reflexivity).
  eexists. split; [apply (user_data_write st writer _ x key value Hw Hx)|].
  split; [|split].
  - erewrite user_data_read;
      [|unfold _userData; simpl; rewrite Hreader; reflexivity
       |simpl; apply lookup_insert_eq].
    rewrite lookup_insert_eq. reflexivity.
  - intros other Hother.
    erewrite user_data_read;
      [|unfold _userData; simpl; rewrite Hreader; reflexivity
       |simpl; apply lookup_insert_eq].
    rewrite lookup_insert_ne by congruence.
    symmetry. apply (user_data_read st reader _ x other Hr Hx).
  - intros o d other Ho Hd. unfold __getitem__, _userData, get_dict. simpl.
    rewrite Ho. rewrite lookup_insert_ne by congruence. reflexivity.
Qed.

(** X28. Writing a key and reading it gives the value back; deleting the key
    makes it read as [None] again and leaves the other keys as they were;
    deleting a key that is not there is no error and changes nothing. *)
Theorem user_data_set_get_delete
  (st : Store) (owner d : loc) (x : gmap string pyval) (key : string)
  (value : pyval) :
  _userData st owner = Some d ->
  dicts st !! d = Some x ->
  exists st1 st2,
    __setitem__ st owner key value = Ok st1
    /\ __getitem__ st1 owner key = Ok value
    /\ __delitem__ st1 owner key = Ok st2
    /\ __getitem__ st2 owner key = Ok VNone
    /\ (forall other, other <> key ->
          __getitem__ st2 owner other = __getitem__ st owner other)
    /\ __delitem__ st2 owner key = Ok st2.
Proof.
  intros Hd Hx.
  set (st1 := mkStore (<[d := <[key := value]> x]> (dicts st)) (of_class st)
                (of_instance st)).
  set (st2 := mkStore (<[d := delete key (<[key := value]> x)]> (dicts st1))
                (of_class st) (of_instance st)).
  assert (Hd1 : _userData st1 owner = Some d) by exact Hd.
  assert (Hd2 : _userData st2 owner = Some d) by exact Hd.
  assert (Hx1 : dicts st1 !! d = Some (<[key := value]> x))
    by apply lookup_insert_eq.
  assert (Hx2 : dicts st2 !! d = Some (delete key (<[key := value]> x)))
    by apply lookup_insert_eq.
  exists st1, st2.
  split; [apply (user_data_write st owner d x key value Hd Hx)|].
  split; [|split; [|split; [|split]]].
  - rewrite (user_data_read st1 owner d _ key Hd1 Hx1), lookup_insert_eq.
    reflexivity.
  - unfold __delitem__, get_dict. rewrite Hd1, Hx1, lookup_insert_eq.
    reflexivity.
  - rewrite (user_data_read st2 owner d _ key Hd2 Hx2), lookup_delete_eq.
    reflexivity.
  - intros other Hother.
    rewrite (user_data_read st2 owner d _ other Hd2 Hx2).
    rewrite (user_data_read st owner d _ other Hd Hx).
    rewrite lookup_delete_ne, lookup_insert_ne by congruence. reflexivity.
  - unfold __delitem__, get_dict. rewrite Hd2, Hx2, lookup_delete_eq.
    reflexivity.
Qed.

(** X29. Once the setter has put [None] in the place of the user data of an
    instance, reading a key raises [AttributeError] and deleting one raises
    [TypeError], but writing works: it gives the instance a new dict of its
    own that holds that one key.  The instances that read from a dict of the
    store read what they read before. *)
Theorem user_data_after_none
  (st : Store) (owner : loc) (key : string) (value : pyval) :
  __getitem__ (setter st owner None) owner key = Err AttributeError
  /\ __delitem__ (setter st owner None) owner key = Err TypeError
  /\ exists st',
       __setitem__ (setter st owner None) owner key value = Ok st'
       /\ __getitem__ st' owner key = Ok value
       /\ (forall other, other <> key -> __getitem__ st' owner other = Ok VNone)
       /\ (forall o d x other,
             o <> owner -> _userData st o = Some d -> dicts st !! d = Some x ->
             __getitem__ st' o other = __getitem__ st o other).
Proof.
  assert (Hnone : _userData (setter st owner None) owner = None).
  { unfold _userData, setter. simpl. rewrite lookup_insert_eq. reflexivity. }
  split; [unfold __getitem__; rewrite Hnone; reflexivity|].
  split; [unfold __delitem__; rewrite Hnone; reflexivity|].
  set (d := fresh (dom (dicts st))).
  assert (Hfresh : dicts st !! d = None) by apply not_elem_of_dom, is_fresh.
  eexists. split; [unfold __setitem__; rewrite Hnone; reflexivity|].
  simpl. fold d.
  assert (Hown : forall other,
            __getitem__
              (mkStore (<[d := {[ key := value ]}]> (dicts st)) (of_class st)
                 (<[owner := Some d]> (<[owner := None]> (of_instance st))))
              owner other
            = Ok (default VNone (({[ key := value ]} : gmap string pyval)
                                 !! other))).
  { intros other. apply (user_data_read _ owner d).
    - unfold _userData. simpl. rewrite lookup_insert_eq. reflexivity.
    - simpl. apply lookup_insert_eq. }
  split; [|split].
  - rewrite Hown, lookup_singleton_eq. reflexivity.
  - intros other Hother. rewrite Hown, lookup_singleton_ne by congruence.
    reflexivity.
  - intros o d' x other Ho Hd' Hx.
    rewrite (user_data_read st o d' x other Hd' Hx).
    apply (user_data_read _ o d').
    + unfold _userData in *. simpl.
      rewrite !lookup_insert_ne by congruence. exact Hd'.
    + simpl. rewrite lookup_insert_ne; [exact Hx|].
      intros ->. congruence.
Qed.

End UserDataMore.

Lemma user_data_is_shared_by_default_witness :
  exists st',
    UserData.__setitem__ new_class_data 1%nat "note" (VInt 7) = Ok st'
    /\ UserData.__getitem__ st' 2%nat "note" = Ok (VInt 7).
Proof.
  destruct (user_data_is_shared_by_default new_class_data 1%nat 2%nat ∅
              "note" (VInt 7) eq_refl eq_refl eq_refl)
    as (st' & Hset & Hget & _).
  exists st'. split; assumption.
Defined.

Lemma user_data_set_get_delete_witness :
  exists st1 st2,
    UserData.__setitem__ new_class_data 1%nat "note" (VInt 7) = Ok st1
    /\ UserData.__getitem__ st1 1%nat "note" = Ok (VInt 7)
    /\ UserData.__delitem__ st1 1%nat "note" = Ok st2
    /\ UserData.__getitem__ st2 1%nat "note" = Ok VNone.
Proof.
  destruct (user_data_set_get_delete new_class_data 1%nat 0%nat ∅ "note"
              (VInt 7) eq_refl eq_refl)
    as (st1 & st2 & Hset & Hget & Hdel & Hgone & _).
  exists st1, st2. repeat split; assumption.
Defined.

(** ** The code of a feature *)

Section FeatureCode.
Import Feature.

Lemma replace_from_drop (old new : string) (s : string) :
  forall k, replace_from k old new s
            = replace_from 0 old new (string_drop k s).
Proof.
  induction s as [|x s IH]; intros [|k]; try reflexivity.
  simpl. apply IH.
Qed.

Lemma string_drop_length (s : string) :
  forall k, (String.length (string_drop k s) <= String.length s)%nat.
Proof.
  induction s as [|x s IH]; intros [|k]; simpl; try lia.
  specialize (IH k). lia.
Qed.

Lemma occurs_in_tail (p : string) (x : ascii) (s : string) :
  occurs_in p (String x s) = false -> occurs_in p s = false.
Proof. simpl. intros H. apply orb_false_iff in H as [_ H]. exact H. Qed.

Lemma occurs_in_head (p : string) (s : string) :
  occurs_in p s = false -> String.prefix p s = false.
Proof.
  destruct s; simpl; intros H; apply orb_false_iff in H as [H _]; exact H.
Qed.

Lemma occurs_in_drop (p : string) (s : string) :
  forall k, occurs_in p s = false -> occurs_in p (string_drop k s) = false.
Proof.
  induction s as [|x s IH]; intros [|k] H; try exact H.
  simpl. apply IH. exact (occurs_in_tail p x s H).
Qed.

Lemma prefix_cons (a b : ascii) (p s : string) :
  String.prefix (String a p) (String b s)
  = Ascii.eqb a b && String.prefix p s.
Proof.
  simpl. destruct (ascii_dec a b) as [->|Hne].
  - rewrite Ascii.eqb_refl. reflexivity.
  - rewrite (proj2 (Ascii.eqb_neq a b) Hne). reflexivity.
Qed.

Lemma replace_step (old new : string) (x : ascii) (s : string) :
  replace_from 0 old new (String x s)
  = if String.prefix old (String x s)
    then new +:+ replace_from 0 old new
                   (string_drop (String.length old - 1) s)
    else String x (replace_from 0 old new s).
Proof.
  cbn [replace_from]. rewrite <- replace_from_drop. reflexivity.
Qed.

(** A text that does not hold [old] comes back as it is. *)
Lemma replace_absent (old new : string) (s : string) :
  occurs_in old s = false -> replace old new s = s.
Proof.
  unfold replace. induction s as [|x s IH]; intros H; [reflexivity|].
  rewrite replace_step, (occurs_in_head _ _ H).
  rewrite (IH (occurs_in_tail _ _ _ H)). reflexivity.
Qed.

(** A text [p] without the character [c] that starts the result of putting
    [c] in the place of [old] starts the text itself. *)
Lemma prefix_of_replaced (old : string) (c : ascii) (p : string) :
  has_char c p = false ->
  forall s,
  String.prefix p (replace_from 0 old (String c EmptyString) s) = true ->
  String.prefix p s = true.
Proof.
  induction p as [|a p IH]; intros Hc s Hp; [destruct s; reflexivity|].
  simpl in Hc. apply orb_false_iff in Hc as [Hac Hc].
  destruct s as [|x s]; [discriminate Hp|].
  rewrite replace_step in Hp.
  destruct (String.prefix old (String x s)).
  - change (String c EmptyString +:+ ?t) with (String c t) in Hp.
    rewrite prefix_cons, Hac in Hp. discriminate Hp.
  - rewrite prefix_cons in Hp. apply andb_true_iff in Hp as [Hax Hp].
    rewrite prefix_cons, Hax. apply (IH Hc s Hp).
Qed.

Lemma replaced_keeps_out (old : string) (c : ascii) (p : string) :
  has_char c p = false ->
  forall n s,
  (String.length s <= n)%nat ->
  occurs_in p s = false ->
  occurs_in p (replace_from 0 old (String c EmptyString) s) = false.
Proof.
  intros Hc. induction n as [|n IH]; intros s Hn Hs.
  - destruct s; [exact Hs|simpl in Hn; lia].
  - destruct s as [|x s]; [exact Hs|]. simpl in Hn.
    rewrite replace_step.
    destruct (String.prefix old (String x s)) eqn:Hold.
    + change (String c EmptyString +:+ ?t) with (String c t).
      cbn [occurs_in]. apply orb_false_iff. split.
      * destruct p as [|a p]; [discriminate Hs|].
        simpl in Hc. apply orb_false_iff in Hc as [Hac _].
        rewrite prefix_cons, Hac. reflexivity.
      * apply IH.
        -- pose proof (string_drop_length s (String.length old - 1)). lia.
        -- apply occurs_in_drop. exact (occurs_in_tail _ _ _ Hs).
    + cbn [occurs_in]. apply orb_false_iff. split.
      * destruct (String.prefix p (String x (replace_from 0 old _ s)))
          eqn:Hp; [|reflexivity].
        assert (Hp' : String.prefix p
                        (replace_from 0 old (String c EmptyString)
                           (String x s)) = true)
          by (rewrite replace_step, Hold; exact Hp).
        apply (prefix_of_replaced old c p Hc) in Hp'.
        rewrite (occurs_in_head _ _ Hs) in Hp'. discriminate Hp'.
      * apply IH; [lia|exact (occurs_in_tail _ _ _ Hs)].
Qed.

Lemma replaced_is_gone (old : string) (c : ascii) :
  has_char c old = false ->
  old <> EmptyString ->
  forall n s,
  (String.length s <= n)%nat ->
  occurs_in old (replace_from 0 old (String c EmptyString) s) = false.
Proof.
  intros Hc Hold. induction n as [|n IH]; intros s Hn.
  - destruct s; [|simpl in Hn; lia]. destruct old; [congruence|reflexivity].
  - destruct s as [|x s]; [destruct old; [congruence|reflexivity]|].
    simpl in Hn. rewrite replace_step.
    destruct (String.prefix old (String x s)) eqn:Hmatch.
    + change (String c EmptyString +:+ ?t) with (String c t).
      cbn [occurs_in]. apply orb_false_iff. split.
      * destruct old as [|a old]; [congruence|].
        simpl in Hc. apply orb_false_iff in Hc as [Hac _].
        rewrite prefix_cons, Hac. reflexivity.
      * apply IH.
        pose proof (string_drop_length s (String.length old - 1)). lia.
    + cbn [occurs_in]. apply orb_false_iff. split.
      * destruct (String.prefix old (String x (replace_from 0 old _ s)))
          eqn:Hp; [|reflexivity].
        assert (Hp' : String.prefix old
                        (replace_from 0 old (String c EmptyString)
                           (String x s)) = true)
          by (rewrite replace_step, Hmatch; exact Hp).
        apply (prefix_of_replaced old c old Hc) in Hp'.
        rewrite Hmatch in Hp'. discriminate Hp'.
      * apply IH. lia.
Qed.

Lemma run_keeps_out (p : string) (rs : list (string * string)) :
  keep_out p rs = true ->
  forall code, occurs_in p code = false -> occurs_in p (run rs code) = false.
Proof.
  induction rs as [|[old new] rs IH]; intros Hrs code Hcode; [exact Hcode|].
  simpl in Hrs. apply andb_true_iff in Hrs as [Hnew Hrs].
  destruct new as [|c [|? ?]]; try discriminate Hnew.
  apply negb_true_iff in Hnew.
  apply (IH Hrs). apply (replaced_keeps_out old c p Hnew _ code (le_n _) Hcode).
Qed.

Lemma run_clears (pre post : list (string * string)) (old : string)
  (c : ascii) (code : string) :
  has_char c old = false ->
  old <> EmptyString ->
  keep_out old post = true ->
  occurs_in old (run (pre ++ (old, String c EmptyString) :: post) code)
  = false.
Proof.
  intros Hc Hold Hpost. unfold run. rewrite fold_left_app. simpl.
  apply (run_keeps_out old post Hpost).
  apply (replaced_is_gone old c Hc Hold _ _ (le_n _)).
Qed.

Lemma run_fixed (rs : list (string * string)) (code : string) :
  (forall r, In r rs -> occurs_in (fst r) code = false) ->
  run rs code = code.
Proof.
  induction rs as [|r rs IH]; intros Hall; [reflexivity|].
  unfold run. simpl. rewrite (replace_absent _ _ _ (Hall r (or_introl eq_refl))).
  apply IH. intros r' Hr'. apply Hall. right. exact Hr'.
Qed.

Lemma setCode_clears (code : string) (r : string * string) :
  In r replacements -> occurs_in (fst r) (run replacements code) = false.
Proof.
  intros Hin. unfold replacements in Hin.
  destruct Hin as [<-|[<-|[<-|[<-|[<-|[<-|[]]]]]]].
  - apply (run_clears [] _ "\012"); [reflexivity|discriminate|reflexivity].
  - apply (run_clears [_] _ "\011"); [reflexivity|discriminate|reflexivity].
  - apply (run_clears [_; _] _ "\U2018");
      [reflexivity|discriminate|reflexivity].
  - apply (run_clears [_; _; _] _ "\U2019");
      [reflexivity|discriminate|reflexivity].
  - apply (run_clears [_; _; _; _] _ "\U201C");
      [reflexivity|discriminate|reflexivity].
  - apply (run_clears [_; _; _; _; _] _ "\U201D");
      [reflexivity|discriminate|reflexivity].
Qed.

(** X30. The code that [setCode] stores holds none of the six escapes any more,
    whatever code it was given, so that storing again the code read back
    changes nothing; a code that holds no escape is stored as it is. *)
Theorem setCode_leaves_no_escape (self : t) (code : string) :
  (forall escaped unescaped,
      In (escaped, unescaped) replacements ->
      occurs_in escaped (getCode (setCode self code)) = false)
  /\ setCode (setCode self code) (getCode (setCode self code))
     = setCode self code
  /\ ((forall escaped unescaped,
         In (escaped, unescaped) replacements ->
         occurs_in escaped code = false) ->
      getCode (setCode self code) = code).
Proof.
  split; [|split].
  - intros escaped unescaped Hin.
    apply (setCode_clears code (escaped, unescaped) Hin).
  - unfold setCode, getCode. cbn [Feature.name Feature._code]. f_equal.
    apply run_fixed. intros r Hr. apply (setCode_clears code r Hr).
  - intros Hnone. apply run_fixed. intros [escaped unescaped] Hr.
    apply (Hnone escaped unescaped Hr).
Qed.

End FeatureCode.

Lemma setCode_leaves_no_escape_witness :
  occurs_in "\012"
    (Feature.getCode (Feature.setCode (Feature.mk (VStr "kern") "")
                        "sub a by b;\012sub c by d;\012")) = false
  /\ Feature.getCode (Feature.setCode (Feature.mk (VStr "kern") "")
                        "sub a by b;")
     = "sub a by b;"%string.
Proof.
  destruct (setCode_leaves_no_escape (Feature.mk (VStr "kern") "")
              "sub a by b;\012sub c by d;\012") as (Hgone & _ & _).
  destruct (setCode_leaves_no_escape (Feature.mk (VStr "kern") "")
              "sub a by b;") as (_ & _ & Hsame).
  split.
  - apply (Hgone "\012"%string nl). left. reflexivity.
  - apply Hsame. intros escaped unescaped Hin.
    repeat (destruct Hin as [[= <- <-]|Hin]; [reflexivity|]).
    inversion Hin.
Defined.

Lemma new_component_transform_written_witness :
  exists r w',
    Component.__init__ (VStr "a") (VTuple [VInt 0; VInt 0])
      (VTuple [VInt 2; VInt 1]) (AVal VNone) empty_world = Return r w'
    /\ @ComponentPolicy.shouldWriteValueForKey sample_imports r "transform" w'
       = Return true w'
    /\ @ComponentPolicy.shouldWriteValueForKey sample_imports r "name" w'
       = Return true w'.
Proof.
  destruct (@new_component_transform_written sample_imports empty_world "a"
              (VInt 2) (VInt 1) (VInt 0) (VInt 0))
    as (r & w' & Hrun & _ & Htransform & Hname & _).
  exists r, w'. repeat split; assumption.
Defined.

Lemma user_data_after_none_witness :
  UserData.__getitem__ (UserData.setter new_class_data 1%nat None) 1%nat "note"
  = Err AttributeError
  /\ exists st',
       UserData.__setitem__ (UserData.setter new_class_data 1%nat None) 1%nat
         "note" (VInt 7) = Ok st'
       /\ UserData.__getitem__ st' 1%nat "note" = Ok (VInt 7).
Proof.
  destruct (user_data_after_none new_class_data 1%nat "note" (VInt 7))
    as (Hget & _ & st' & Hset & Hread & _).
  split; [exact Hget|]. exists st'. split; assumption.
Defined.

(** ** Integer keys on a glyph that is in no font *)

Section FontlessIntegerKeys.
Import FontlessLayers.





End FontlessIntegerKeys.


(** ** Replacing the layers of a glyph: any list of layers *)

Section LayerSetterAnyList.
Import GlyphLayerProxy.












End LayerSetterAnyList.


